(** * MarketMind adaptive trader: a shallow embedding of the decision core

    The development follows the TypeScript sources
    - [src/lib/strategies/base.ts]   (BaseStrategy: validateSignal, pivots),
    - [src/lib/strategies/smc.ts]    (SMCStrategy: structures and signals),
    - [src/lib/marketmind/core.ts]   (MarketMindCore and LearningEngine),
    - the risk manager               (RiskManager: validation, sizing,
                                      break-even, status),
    - [src/lib/mt5/trading.ts]       (MT5Trading: orders, closing, sizing),
    - the authentication manager     (MT5Auth: sessions),
    and states the properties of the specification over it, followed by
    further properties of the code (performance record, indicators,
    start and stop, execution and learning data of the orchestrator).

    Numbers.  A JavaScript [number] is an IEEE-754 binary64 value.  The
    strategy and the risk manager are modelled over exact rationals [Q]:
    every arithmetic step is the source's, without rounding.  Where the
    source divides by a value that can be zero, the quotient is a [jsnum],
    which adds the special values the division produces (infinities and
    NaN, zeros unsigned).  The learning engine and the target adjustment
    of the risk manager are written once over an interface of number
    operations and instantiated twice: with [Q] for the general theorems,
    and with the kernel's binary64 floats to evaluate concrete scenarios
    with the arithmetic of the source. *)

From Stdlib Require Import QArith Qround Qabs Qminmax Lqa Floats.
From Stdlib Require Import Sorting.Sorted Sorting.Permutation.
From stdpp Require Import gmap strings list.

Local Open Scope Q_scope.

#[local] Set Warnings "-clear-no-such-hyp".

(** ** Numbers *)

Definition Qltb (x y : Q) : bool := negb (Qle_bool y x).
Definition Qgtb (x y : Q) : bool := Qltb y x.
Definition Qgeb (x y : Q) : bool := Qle_bool y x.

(** The result of an operation that may leave the finite numbers. *)
Inductive jsnum : Type :=
| Fin (q : Q)
| PInf
| NInf
| NaN.

(** [a / b] as JavaScript computes it. *)
Definition js_div (a b : jsnum) : jsnum :=
  match a, b with
  | NaN, _ | _, NaN => NaN
  | Fin x, Fin y =>
      if Qeq_bool y 0
      then (if Qeq_bool x 0 then NaN else if Qltb 0 x then PInf else NInf)
      else Fin (x / y)
  | Fin _, (PInf | NInf) => Fin 0
  | PInf, Fin y => if Qle_bool 0 y then PInf else NInf
  | NInf, Fin y => if Qle_bool 0 y then NInf else PInf
  | (PInf | NInf), (PInf | NInf) => NaN
  end.

(** [a * b] as JavaScript computes it. *)
Definition js_mul (a b : jsnum) : jsnum :=
  match a, b with
  | NaN, _ | _, NaN => NaN
  | Fin x, Fin y => Fin (x * y)
  | Fin x, PInf | PInf, Fin x =>
      if Qeq_bool x 0 then NaN else if Qltb 0 x then PInf else NInf
  | Fin x, NInf | NInf, Fin x =>
      if Qeq_bool x 0 then NaN else if Qltb 0 x then NInf else PInf
  | PInf, PInf | NInf, NInf => PInf
  | PInf, NInf | NInf, PInf => NInf
  end.

(** [Math.round]: the nearest integer, halves towards plus infinity. *)
Definition Qround_half_up (q : Q) : Q := inject_Z (Qfloor (q + (1 # 2))).

Definition js_round (a : jsnum) : jsnum :=
  match a with
  | Fin q => Fin (Qround_half_up q)
  | other => other
  end.

(** [Math.min] and [Math.max]: NaN if an argument is NaN. *)
Definition js_min (a b : jsnum) : jsnum :=
  match a, b with
  | NaN, _ | _, NaN => NaN
  | NInf, _ | _, NInf => NInf
  | PInf, other | other, PInf => other
  | Fin x, Fin y => Fin (Qmin x y)
  end.

Definition js_max (a b : jsnum) : jsnum :=
  match a, b with
  | NaN, _ | _, NaN => NaN
  | PInf, _ | _, PInf => PInf
  | NInf, other | other, NInf => other
  | Fin x, Fin y => Fin (Qmax x y)
  end.

(** Comparisons: every comparison with NaN is false. *)
Definition js_ltb (a b : jsnum) : bool :=
  match a, b with
  | NaN, _ | _, NaN => false
  | Fin x, Fin y => Qltb x y
  | NInf, (Fin _ | PInf) => true
  | Fin _, PInf => true
  | _, _ => false
  end.

Definition js_leb (a b : jsnum) : bool :=
  match a, b with
  | NaN, _ | _, NaN => false
  | Fin x, Fin y => Qle_bool x y
  | NInf, _ => true
  | _, PInf => true
  | _, _ => false
  end.


(** ** Shared value types ([src/lib/mt5/types.ts]) *)

Inductive Action : Type := BUY | SELL | CLOSE.

Inductive PositionType : Type := PositionBUY | PositionSELL.

Module OHLC.
Record t : Type := mk {
  time : Z;
  open : Q;
  high : Q;
  low : Q;
  close : Q;
  volume : Q
}.
End OHLC.

Module MarketData.
Record t : Type := mk {
  symbol : string;
  bid : Q;
  ask : Q;
  spread : Q;
  volume : Q;
  timestamp : Z
}.
End MarketData.

Module StrategySignal.
(** The number type is a parameter: the learning engine reads signals
    over either instance of the number interface. *)
Record t (N : Type) : Type := mk {
  symbol : string;
  action : Action;
  confidence : N;
  entry : N;
  stopLoss : N;
  takeProfit : N;
  strategy : string;
  timestamp : Z
}.
Arguments mk {N}.
Arguments symbol {N}.
Arguments action {N}.
Arguments confidence {N}.
Arguments entry {N}.
Arguments stopLoss {N}.
Arguments takeProfit {N}.
Arguments strategy {N}.
Arguments timestamp {N}.
End StrategySignal.

Module Position.
Record t : Type := mk {
  ticket : Z;
  symbol : string;
  type : PositionType;
  volume : Q;
  openPrice : Q;
  currentPrice : Q;
  profit : Q;
  stopLoss : Q;
  takeProfit : Q;
  openTime : Z;
  comment : string
}.
End Position.

Module SymbolInfo.
Record t : Type := mk {
  name : string;
  digits : Z;
  point : Q;
  spread : Q;
  tradeMode : Z;
  volumeMin : Q;
  volumeMax : Q;
  volumeStep : Q;
  marginRequired : Q
}.
End SymbolInfo.

Module AccountInfo.
Record t : Type := mk {
  balance : Q;
  equity : Q;
  profit : Q;
  margin : Q;
  freeMargin : Q;
  marginLevel : Q;
  currency : string;
  leverage : Q
}.
End AccountInfo.

Module RiskParams.
Record t : Type := mk {
  maxRiskPerTrade : Q;
  maxDailyLoss : Q;
  maxOpenPositions : Q;
  minRiskReward : Q;
  maxSpread : Q;
  newsFilterEnabled : bool
}.
End RiskParams.

Abbreviation Signal := (StrategySignal.t Q).

(** ** BaseStrategy ([src/lib/strategies/base.ts]) *)

Module Base.
Import StrategySignal.

(** [riskReward] of validateSignal: the quotient of the two distances.
    With [entry = stopLoss] it is an infinity or NaN. *)
Definition riskReward (signal : Signal) : jsnum :=
  js_div (Fin (Qabs (takeProfit signal - entry signal)))
         (Fin (Qabs (entry signal - stopLoss signal))).

(** validateSignal.  [!signal.symbol] holds for the empty string only;
    [!signal.action] never holds, an action being one of three
    non-empty strings. *)
Definition validateSignal (signal : Signal) : bool :=
  if String.eqb (symbol signal) "" || Qltb (confidence signal) 0.5
  then false
  else if js_ltb (riskReward signal) (Fin 1.5)
  then false
  else true.

(** [data[i]] for an index inside the array. *)
Definition at_ (data : list Q) (i : nat) : Q := nth i data 0.

(** findPivotHighs: one entry per index [leftBars <= i < length -
    rightBars], the value at a pivot and 0 elsewhere. *)
Definition findPivotHighs (highs : list Q) (leftBars rightBars : nat) : list Q :=
  map (fun i =>
         let isPivot :=
           forallb (fun j => negb (Qgeb (at_ highs j) (at_ highs i)))
                   (seq (i - leftBars) leftBars)
           && forallb (fun j => negb (Qgeb (at_ highs j) (at_ highs i)))
                      (seq (i + 1) rightBars) in
         if isPivot then at_ highs i else 0)
      (seq leftBars (length highs - rightBars - leftBars)).

Definition findPivotLows (lows : list Q) (leftBars rightBars : nat) : list Q :=
  map (fun i =>
         let isPivot :=
           forallb (fun j => negb (Qle_bool (at_ lows j) (at_ lows i)))
                   (seq (i - leftBars) leftBars)
           && forallb (fun j => negb (Qle_bool (at_ lows j) (at_ lows i)))
                      (seq (i + 1) rightBars) in
         if isPivot then at_ lows i else 0)
      (seq leftBars (length lows - rightBars - leftBars)).
End Base.

(** ** SMCStrategy ([src/lib/strategies/smc.ts]) *)

Inductive Bias : Type := bullish | bearish.

Inductive ZoneKind : Type := support | resistance.

Module OrderBlock.
Record t : Type := mk {
  type : Bias;
  high : Q;
  low : Q;
  index : nat;
  strength : Q;
  tested : bool
}.
End OrderBlock.

Module LiquidityZone.
Record t : Type := mk {
  type : ZoneKind;
  level : Q;
  strength : Q;
  touches : nat
}.
End LiquidityZone.

Module FairValueGap.
Record t : Type := mk {
  type : Bias;
  top : Q;
  bottom : Q;
  index : nat;
  filled : bool
}.
End FairValueGap.

Module SMC.

(** The strategy object: the activation flag and name of BaseStrategy
    and the three structure arrays. *)
Record t : Type := mk {
  name : string;
  isActive : bool;
  orderBlocks : list OrderBlock.t;
  liquidityZones : list LiquidityZone.t;
  fairValueGaps : list FairValueGap.t
}.

(** [new SMCStrategy()] *)
Definition create : t :=
  {| name := "SMC (Smart Money)"; isActive := false;
     orderBlocks := []; liquidityZones := []; fairValueGaps := [] |}.

Definition activate (s : t) : t :=
  {| name := name s; isActive := true; orderBlocks := orderBlocks s;
     liquidityZones := liquidityZones s; fairValueGaps := fairValueGaps s |}.

Definition deactivate (s : t) : t :=
  {| name := name s; isActive := false; orderBlocks := orderBlocks s;
     liquidityZones := liquidityZones s; fairValueGaps := fairValueGaps s |}.

(** [ohlc[i]].  Every index the strategy reads lies inside the window
    (analyze runs on 50 bars or more), so the default is never read and
    the [catch] of analyze is never entered. *)
Definition bar (ohlc : list OHLC.t) (i : nat) : OHLC.t :=
  nth i ohlc (OHLC.mk 0 0 0 0 0 0).

(** The loop of isBullishOrderBlock and isBearishOrderBlock: indices
    [index + 1 <= i < min (index + lookahead + 1) length]. *)
Definition lookaheadIndices (ohlc : list OHLC.t) (index : nat) : list nat :=
  seq (index + 1) (Nat.min (index + 3 + 1) (length ohlc) - (index + 1)).

Definition isBullishOrderBlock (ohlc : list OHLC.t) (index : nat) : bool :=
  let current := bar ohlc index in
  let bodySize := Qabs (OHLC.close current - OHLC.open current) in
  let lowerWick := Qmin (OHLC.open current) (OHLC.close current) - OHLC.low current in
  if Qltb lowerWick (bodySize * 0.5) || Qle_bool (OHLC.close current) (OHLC.open current)
  then false
  else
    let bullishMove :=
      length (filter (fun i => Qgtb (OHLC.close (bar ohlc i)) (OHLC.high current) = true)
                     (lookaheadIndices ohlc index)) in
    (2 <=? bullishMove)%nat.

Definition isBearishOrderBlock (ohlc : list OHLC.t) (index : nat) : bool :=
  let current := bar ohlc index in
  let bodySize := Qabs (OHLC.close current - OHLC.open current) in
  let upperWick := OHLC.high current - Qmax (OHLC.open current) (OHLC.close current) in
  if Qltb upperWick (bodySize * 0.5) || Qgeb (OHLC.close current) (OHLC.open current)
  then false
  else
    let bearishMove :=
      length (filter (fun i => Qltb (OHLC.close (bar ohlc i)) (OHLC.low current) = true)
                     (lookaheadIndices ohlc index)) in
    (2 <=? bearishMove)%nat.

(** calculateOrderBlockStrength.  It is called for order blocks only,
    whose body is not zero ([close <> open]), and on a non-empty window,
    so both divisions are by non-zero values. *)
Definition calculateOrderBlockStrength (ohlc : list OHLC.t) (index : nat) (type : Bias) : Q :=
  let current := bar ohlc index in
  let strength := 0 + (if Qgtb (OHLC.volume current) 1000 then 20 else 10) in
  let bodySize := Qabs (OHLC.close current - OHLC.open current) in
  let wickSize :=
    match type with
    | bullish => Qmin (OHLC.open current) (OHLC.close current) - OHLC.low current
    | bearish => OHLC.high current - Qmax (OHLC.open current) (OHLC.close current)
    end in
  let strength := strength + (wickSize / bodySize) * 30 in
  let recency :=
    inject_Z (Z.of_nat (length ohlc - index)) / inject_Z (Z.of_nat (length ohlc)) in
  let strength := strength + recency * 20 in
  Qmin strength 100.

(** [sort((a, b) => b.strength - a.strength)]: a stable sort, strongest
    first; blocks of equal strength keep their order. *)
Fixpoint insertByStrength (x : OrderBlock.t) (sorted : list OrderBlock.t) : list OrderBlock.t :=
  match sorted with
  | [] => [x]
  | y :: rest =>
      if Qltb (OrderBlock.strength x) (OrderBlock.strength y)
      then y :: insertByStrength x rest
      else x :: y :: rest
  end.

Definition sortByStrength (blocks : list OrderBlock.t) : list OrderBlock.t :=
  fold_right insertByStrength [] blocks.

(** The blocks pushed by the loop of updateOrderBlocks at index [i]. *)
Definition orderBlocksAt (ohlc : list OHLC.t) (i : nat) : list OrderBlock.t :=
  let current := bar ohlc i in
  (if isBullishOrderBlock ohlc i
   then [OrderBlock.mk bullish (OHLC.high current) (OHLC.low current) i
           (calculateOrderBlockStrength ohlc i bullish) false]
   else [])
  ++
  (if isBearishOrderBlock ohlc i
   then [OrderBlock.mk bearish (OHLC.high current) (OHLC.low current) i
           (calculateOrderBlockStrength ohlc i bearish) false]
   else []).

(** updateOrderBlocks: indices [10 <= i < length - 5], then the ten
    strongest. *)
Definition updateOrderBlocks (ohlc : list OHLC.t) : list OrderBlock.t :=
  take 10 (sortByStrength
             (flat_map (orderBlocksAt ohlc) (seq 10 (length ohlc - 5 - 10)))).

Definition calculateLiquidityStrength (ohlc : list OHLC.t) (index : nat) (level : Q) : Q :=
  let touches :=
    length (filter (fun i =>
                      Qltb (Qabs (OHLC.high (bar ohlc i) - level)) (level * 0.001)
                      || Qltb (Qabs (OHLC.low (bar ohlc i) - level)) (level * 0.001) = true)
                   (seq (index + 1) (length ohlc - (index + 1)))) in
  let strength := inject_Z (Z.of_nat touches) * 25 in
  Qmin strength 100.

(** The zones pushed for one pivot array: entry [i] of the array
    belongs to bar [i + 3]. *)
Definition zonesOf (kind : ZoneKind) (ohlc : list OHLC.t) (pivots : list Q) : list LiquidityZone.t :=
  flat_map (fun i =>
              let p := Base.at_ pivots i in
              if Qgtb p 0
              then [LiquidityZone.mk kind p (calculateLiquidityStrength ohlc (i + 3) p) 1]
              else [])
           (seq 0 (length pivots)).

Definition updateLiquidityZones (ohlc : list OHLC.t) : list LiquidityZone.t :=
  let highs := map OHLC.high ohlc in
  let lows := map OHLC.low ohlc in
  let pivotHighs := Base.findPivotHighs highs 3 3 in
  let pivotLows := Base.findPivotLows lows 3 3 in
  zonesOf resistance ohlc pivotHighs ++ zonesOf support ohlc pivotLows.

(** The gaps pushed by the loop of updateFairValueGaps at index [i]. *)
Definition fairValueGapsAt (ohlc : list OHLC.t) (i : nat) : list FairValueGap.t :=
  let prev := bar ohlc (i - 1) in
  let current := bar ohlc i in
  let next := bar ohlc (i + 1) in
  (if Qltb (OHLC.high prev) (OHLC.low next)
      && Qgtb (OHLC.close current) (OHLC.open current)
   then [FairValueGap.mk bullish (OHLC.low next) (OHLC.high prev) i false]
   else [])
  ++
  (if Qgtb (OHLC.low prev) (OHLC.high next)
      && Qltb (OHLC.close current) (OHLC.open current)
   then [FairValueGap.mk bearish (OHLC.low prev) (OHLC.high next) i false]
   else []).

(** updateFairValueGaps: the array is emptied and refilled from the
    window, indices [1 <= i < length - 1]. *)
Definition updateFairValueGaps (ohlc : list OHLC.t) : list FairValueGap.t :=
  flat_map (fairValueGapsAt ohlc) (seq 1 (length ohlc - 1 - 1)).

(** An unstamped candidate, as the check functions return it. *)
Definition candidate (name : string) (action : Action)
    (confidence entry stopLoss takeProfit : Q) : Signal :=
  StrategySignal.mk "" action confidence entry stopLoss takeProfit name 0%Z.

Fixpoint checkOrderBlockEntry (name : string) (blocks : list OrderBlock.t)
    (currentPrice : Q) : option Signal :=
  match blocks with
  | [] => None
  | orderBlock :: rest =>
      if OrderBlock.tested orderBlock
      then checkOrderBlockEntry name rest currentPrice
      else
        let high := OrderBlock.high orderBlock in
        let low := OrderBlock.low orderBlock in
        let tolerance := (high - low) * 0.1 in
        let inside :=
          Qgeb currentPrice (low - tolerance) && Qle_bool currentPrice (high + tolerance) in
        match OrderBlock.type orderBlock with
        | bullish =>
            if inside
            then Some (candidate name BUY (OrderBlock.strength orderBlock / 100)
                         currentPrice
                         (low - (high - low) * 0.2)
                         (currentPrice + (currentPrice - low) * 2))
            else checkOrderBlockEntry name rest currentPrice
        | bearish =>
            if inside
            then Some (candidate name SELL (OrderBlock.strength orderBlock / 100)
                         currentPrice
                         (high + (high - low) * 0.2)
                         (currentPrice - (high - currentPrice) * 2))
            else checkOrderBlockEntry name rest currentPrice
        end
  end.

(** The loop of checkLiquidityGrabReversal over the zones; [lastBar] is
    the last bar of the window. *)
Fixpoint liquidityGrab (name : string) (zones : list LiquidityZone.t)
    (currentPrice : Q) (lastBar : OHLC.t) : option Signal :=
  match zones with
  | [] => None
  | zone :: rest =>
      let level := LiquidityZone.level zone in
      let tolerance := level * 0.001 in
      match LiquidityZone.type zone with
      | resistance =>
          if Qgtb currentPrice (level + tolerance)
             && Qltb (OHLC.close lastBar) (OHLC.open lastBar)
          then Some (candidate name SELL (LiquidityZone.strength zone / 100)
                       currentPrice
                       (level + level * 0.002)
                       (currentPrice - (currentPrice - level) * 1.5))
          else liquidityGrab name rest currentPrice lastBar
      | support =>
          if Qltb currentPrice (level - tolerance)
             && Qgtb (OHLC.close lastBar) (OHLC.open lastBar)
          then Some (candidate name BUY (LiquidityZone.strength zone / 100)
                       currentPrice
                       (level - level * 0.002)
                       (currentPrice + (level - currentPrice) * 1.5))
          else liquidityGrab name rest currentPrice lastBar
      end
  end.

(** [ohlc.slice(-10)] *)
Definition recentBars (ohlc : list OHLC.t) : list OHLC.t :=
  drop (length ohlc - 10) ohlc.

Definition checkLiquidityGrabReversal (name : string) (zones : list LiquidityZone.t)
    (currentPrice : Q) (ohlc : list OHLC.t) : option Signal :=
  let recent := recentBars ohlc in
  if (length recent <? 5)%nat then None
  else liquidityGrab name zones currentPrice (bar recent (length recent - 1)).

Fixpoint checkFairValueGapFill (name : string) (gaps : list FairValueGap.t)
    (currentPrice : Q) : option Signal :=
  match gaps with
  | [] => None
  | fvg :: rest =>
      if FairValueGap.filled fvg
      then checkFairValueGapFill name rest currentPrice
      else
        let top := FairValueGap.top fvg in
        let bottom := FairValueGap.bottom fvg in
        let inside := Qgeb currentPrice bottom && Qle_bool currentPrice top in
        match FairValueGap.type fvg with
        | bullish =>
            if inside
            then Some (candidate name BUY 0.75 currentPrice
                         (bottom - (top - bottom) * 0.5)
                         (currentPrice + (top - bottom) * 2))
            else checkFairValueGapFill name rest currentPrice
        | bearish =>
            if inside
            then Some (candidate name SELL 0.75 currentPrice
                         (top + (top - bottom) * 0.5)
                         (currentPrice - (top - bottom) * 2))
            else checkFairValueGapFill name rest currentPrice
        end
  end.

(** The three assignments analyze makes to a candidate before it
    validates it. *)
Definition stamp (signal : Signal) (symbol name : string) (now : Z) : Signal :=
  StrategySignal.mk symbol (StrategySignal.action signal)
    (StrategySignal.confidence signal) (StrategySignal.entry signal)
    (StrategySignal.stopLoss signal) (StrategySignal.takeProfit signal)
    name now.

(** One [if (signal) { ...; if (this.validateSignal(signal)) return
    signal; }] block of analyze, followed by the rest of the body. *)
Definition orElse (found : option Signal) (symbol name : string) (now : Z)
    (rest : option Signal) : option Signal :=
  match found with
  | Some signal =>
      let signal := stamp signal symbol name now in
      if Base.validateSignal signal then Some signal else rest
  | None => rest
  end.

(** The structures after the three update calls of analyze. *)
Definition updateStructures (s : t) (ohlc : list OHLC.t) : t :=
  {| name := name s; isActive := isActive s;
     orderBlocks := updateOrderBlocks ohlc;
     liquidityZones := updateLiquidityZones ohlc;
     fairValueGaps := updateFairValueGaps ohlc |}.

(** analyze: the strategy after the call and the returned signal
    ([None] for null).  [now] is the clock read by [Date.now()]. *)
Definition analyze (s : t) (symbol : string) (ohlc : list OHLC.t)
    (marketData : MarketData.t) (now : Z) : t * option Signal :=
  if negb (isActive s) || (length ohlc <? 50)%nat then (s, None)
  else
    let s' := updateStructures s ohlc in
    let currentPrice := MarketData.bid marketData in
    (s',
     orElse (checkOrderBlockEntry (name s') (orderBlocks s') currentPrice)
       symbol (name s') now
       (orElse (checkLiquidityGrabReversal (name s') (liquidityZones s') currentPrice ohlc)
          symbol (name s') now
          (orElse (checkFairValueGapFill (name s') (fairValueGaps s') currentPrice)
             symbol (name s') now
             None))).

End SMC.

(** ** The number interface of the learning engine *)

(** The operations the LearningEngine and the target adjustment of the
    risk manager apply to numbers.  [lit q] is the value of the decimal
    literal [q] of the source; [truthy] is the test made by [||] (false
    for zero and NaN); [nquotient_ltb a b c] is the test [a / b < c]. *)
Class JSNumber (N : Type) : Type := {
  lit : Q -> N;
  nadd : N -> N -> N;
  nsub : N -> N -> N;
  nmul : N -> N -> N;
  nabs : N -> N;
  nmin : N -> N -> N;
  nmax : N -> N -> N;
  ngtb : N -> N -> bool;
  nquotient_ltb : N -> N -> N -> bool;
  truthy : N -> bool
}.

(** Exact rationals; a quotient is taken in [jsnum], where a division
    by zero gives an infinity or NaN. *)
#[export] Instance Q_number : JSNumber Q := {|
  lit := fun q => q;
  nadd := Qplus;
  nsub := Qminus;
  nmul := Qmult;
  nabs := Qabs;
  nmin := Qmin;
  nmax := Qmax;
  ngtb := Qgtb;
  nquotient_ltb := fun a b c => js_ltb (js_div (Fin a) (Fin b)) (Fin c);
  truthy := fun q => negb (Qeq_bool q 0)
|}.

Definition float_of_Z (z : Z) : float :=
  match z with
  | Z0 => 0%float
  | Zpos p => PrimFloat.of_uint63 (Uint63.of_Z (Zpos p))
  | Zneg p => PrimFloat.opp (PrimFloat.of_uint63 (Uint63.of_Z (Zpos p)))
  end.

(** The binary64 value of a decimal literal: numerator and denominator
    are small integers, exact in binary64, and the division rounds their
    quotient to the nearest value, which is how a literal is read. *)
Definition float_of_Q (q : Q) : float :=
  PrimFloat.div (float_of_Z (Qnum q)) (float_of_Z (Zpos (Qden q))).

Definition float_min (a b : float) : float :=
  if PrimFloat.is_nan a || PrimFloat.is_nan b then PrimFloat.nan
  else if PrimFloat.ltb a b then a else b.

Definition float_max (a b : float) : float :=
  if PrimFloat.is_nan a || PrimFloat.is_nan b then PrimFloat.nan
  else if PrimFloat.ltb a b then b else a.

(** IEEE-754 binary64, the numbers of the source. *)
#[export] Instance float_number : JSNumber float := {|
  lit := float_of_Q;
  nadd := PrimFloat.add;
  nsub := PrimFloat.sub;
  nmul := PrimFloat.mul;
  nabs := PrimFloat.abs;
  nmin := float_min;
  nmax := float_max;
  ngtb := fun a b => PrimFloat.ltb b a;
  nquotient_ltb := fun a b c => PrimFloat.ltb (PrimFloat.div a b) c;
  truthy := fun a => negb (PrimFloat.eqb a 0%float || PrimFloat.is_nan a)
|}.

(** adjustTakeProfit of the risk manager, written once over the number
    interface: the risk manager below runs it on exact rationals, and
    the scenarios evaluate it on binary64, the arithmetic of the
    source. *)
Definition adjustTakeProfitOver {N : Type} `{JSNumber N} (minRiskReward : N)
    (signal : StrategySignal.t N) : N :=
  let riskDistance :=
    nabs (nsub (StrategySignal.entry signal) (StrategySignal.stopLoss signal)) in
  let rewardDistance :=
    nabs (nsub (StrategySignal.takeProfit signal) (StrategySignal.entry signal)) in
  if nquotient_ltb rewardDistance riskDistance minRiskReward
  then
    let minReward := nmul riskDistance minRiskReward in
    match StrategySignal.action signal with
    | BUY => nadd (StrategySignal.entry signal) minReward
    | _ => nsub (StrategySignal.entry signal) minReward
    end
  else StrategySignal.takeProfit signal.

(** ** LearningEngine ([src/lib/marketmind/core.ts]) *)

Inductive TradeResultKind : Type := win | loss.

Module TradeOutcome.
Record t (N : Type) : Type := mk {
  result : TradeResultKind;
  profit : N;
  closeTime : Z
}.
Arguments mk {N}.
Arguments result {N}.
Arguments profit {N}.
Arguments closeTime {N}.
End TradeOutcome.

Module SignalHistory.
Record t (N : Type) : Type := mk {
  signal : StrategySignal.t N;
  ticket : Z;
  executionTime : Z;
  outcome : option (TradeOutcome.t N)
}.
Arguments mk {N}.
Arguments signal {N}.
Arguments ticket {N}.
Arguments executionTime {N}.
Arguments outcome {N}.
End SignalHistory.

Module LearningEngine.
Section WithNumber.
Context {N : Type} `{JSNumber N}.

(** The two weight maps; a key without entry reads as [undefined]. *)
Record t : Type := mk {
  strategyWeights : gmap string N;
  symbolPerformance : gmap string (gmap string N)
}.

(** The constructor: four default weights. *)
Definition create : t :=
  {| strategyWeights :=
       <["TurtleSoup" := lit 1.0]>
         (<["ORB" := lit 1.0]> (<["ICT" := lit 1.0]> (<["SMC" := lit 1.0]> ∅)));
     symbolPerformance := ∅ |}.

(** [value || fallback] for a value read from a map. *)
Definition orElse (value : option N) (fallback : N) : N :=
  match value with
  | Some w => if truthy w then w else fallback
  | None => fallback
  end.

Definition getStrategyWeight (le : t) (strategy : string) : N :=
  orElse (strategyWeights le !! strategy) (lit 1.0).

(** getSymbolWeight: [symbolMap?.get(strategy) || 1.0] *)
Definition getSymbolWeight (le : t) (strategy symbol : string) : N :=
  orElse (match symbolPerformance le !! symbol with
          | Some symbolMap => symbolMap !! strategy
          | None => None
          end)
         (lit 1.0).

Definition getMarketConditionWeight (ohlc : list OHLC.t) : N := lit 1.0.

(** [totalScore] of selectBestSignal; the symbol is the argument of the
    call, not the symbol of the signal. *)
Definition totalScore (le : t) (symbol : string) (ohlc : list OHLC.t)
    (signal : StrategySignal.t N) : N :=
  let baseConfidence := StrategySignal.confidence signal in
  let strategyWeight := getStrategyWeight le (StrategySignal.strategy signal) in
  let symbolWeight := getSymbolWeight le (StrategySignal.strategy signal) symbol in
  let marketConditionWeight := getMarketConditionWeight ohlc in
  nmul (nmul (nmul baseConfidence strategyWeight) symbolWeight) marketConditionWeight.

(** One iteration of the loop of selectBestSignal on the pair
    [(bestSignal, bestScore)]. *)
Definition keepBest (le : t) (symbol : string) (ohlc : list OHLC.t)
    (best : option (StrategySignal.t N) * N) (signal : StrategySignal.t N)
    : option (StrategySignal.t N) * N :=
  let score := totalScore le symbol ohlc signal in
  if ngtb score (snd best) then (Some signal, score) else best.

Definition selectBestSignal (le : t) (signals : list (StrategySignal.t N))
    (symbol : string) (ohlc : list OHLC.t) : option (StrategySignal.t N) :=
  match signals with
  | [] => None
  | [signal] => Some signal
  | _ => fst (fold_left (keepBest le symbol ohlc) signals (None, lit 0))
  end.

Definition clampWeight (w : N) : N := nmax (lit 0.1) (nmin (lit 2.0) w).

Definition updateFromTrade (le : t) (history : SignalHistory.t N) : t :=
  match SignalHistory.outcome history with
  | None => le
  | Some outcome =>
      let strategy := StrategySignal.strategy (SignalHistory.signal history) in
      let symbol := StrategySignal.symbol (SignalHistory.signal history) in
      let isWin :=
        match TradeOutcome.result outcome with win => true | loss => false end in
      let currentWeight := orElse (strategyWeights le !! strategy) (lit 1.0) in
      let adjustment := if isWin then lit 0.05 else lit (-0.02) in
      let newWeight := clampWeight (nadd currentWeight adjustment) in
      let symbolMap := default ∅ (symbolPerformance le !! symbol) in
      let symbolWeight := orElse (symbolMap !! strategy) (lit 1.0) in
      let symbolAdjustment := if isWin then lit 0.03 else lit (-0.01) in
      let newSymbolWeight := clampWeight (nadd symbolWeight symbolAdjustment) in
      {| strategyWeights := <[strategy := newWeight]> (strategyWeights le);
         symbolPerformance :=
           <[symbol := <[strategy := newSymbolWeight]> symbolMap]> (symbolPerformance le) |}
  end.

(** The engine after a sequence of completed trades, oldest first. *)
Definition updateFromTrades (le : t) (histories : list (SignalHistory.t N)) : t :=
  fold_left updateFromTrade histories le.
End WithNumber.
Arguments t N : clear implicits.
End LearningEngine.

(** ** MarketMindCore ([src/lib/marketmind/core.ts]) *)

(** [String.prototype.toUpperCase] on the ASCII letters.  Symbols are
    ASCII names; other characters are left as they are. *)
Definition upperAscii (c : Ascii.ascii) : Ascii.ascii :=
  let n := Ascii.nat_of_ascii c in
  if ((97 <=? n) && (n <=? 122))%nat then Ascii.ascii_of_nat (n - 32) else c.

Fixpoint toUpperCase (s : string) : string :=
  match s with
  | EmptyString => EmptyString
  | String c rest => String (upperAscii c) (toUpperCase rest)
  end.

Module Core.

(** The orchestrator: the strategy map in insertion order, the
    monitored symbols, the running flag and the learning engine. *)
Record t : Type := mk {
  strategies : list (string * SMC.t);
  activeSymbols : gset string;
  isRunning : bool;
  learningEngine : LearningEngine.t Q
}.

(** The constructor: initializeStrategies registers the SMC strategy. *)
Definition create : t :=
  {| strategies := [("SMC"%string, SMC.create)];
     activeSymbols := ∅;
     isRunning := false;
     learningEngine := LearningEngine.create |}.

Definition addSymbol (c : t) (symbol : string) : t :=
  {| strategies := strategies c;
     activeSymbols := {[ toUpperCase symbol ]} ∪ activeSymbols c;
     isRunning := isRunning c;
     learningEngine := learningEngine c |}.

Definition removeSymbol (c : t) (symbol : string) : t :=
  {| strategies := strategies c;
     activeSymbols := activeSymbols c ∖ {[ toUpperCase symbol ]};
     isRunning := isRunning c;
     learningEngine := learningEngine c |}.

(** The loop of analyzeSymbol over the strategies: every active
    strategy is asked once, and what it returns, if not null, is pushed
    on [signals]. *)
Fixpoint collectSignals (strategies : list (string * SMC.t)) (symbol : string)
    (ohlc : list OHLC.t) (marketData : MarketData.t) (now : Z)
    : list (string * SMC.t) * list Signal :=
  match strategies with
  | [] => ([], [])
  | (key, strategy) :: rest =>
      let '(rest', signals) := collectSignals rest symbol ohlc marketData now in
      if negb (SMC.isActive strategy)
      then ((key, strategy) :: rest', signals)
      else
        let '(strategy', signal) := SMC.analyze strategy symbol ohlc marketData now in
        ((key, strategy') :: rest',
         match signal with Some s => s :: signals | None => signals end)
  end.

(** analyzeSymbol up to the call of executeSignal: the orchestrator
    after the cycle, the candidate signals and the signal handed to
    execution.  [marketData] and [ohlc] are the replies of the market
    data feed. *)
Definition analyzeSymbol (c : t) (symbol : string)
    (marketData : option MarketData.t) (ohlc : list OHLC.t) (now : Z)
    : t * list Signal * option Signal :=
  match marketData with
  | None => (c, [], None)
  | Some marketData =>
      if (length ohlc <? 50)%nat then (c, [], None)
      else
        let '(strategies', signals) :=
          collectSignals (strategies c) symbol ohlc marketData now in
        ({| strategies := strategies';
            activeSymbols := activeSymbols c;
            isRunning := isRunning c;
            learningEngine := learningEngine c |},
         signals,
         if (0 <? length signals)%nat
         then LearningEngine.selectBestSignal (learningEngine c) signals symbol ohlc
         else None)
  end.

End Core.

(** ** MT5Trading ([src/lib/mt5/trading.ts]): the SLTP request *)

Module OrderRequest.
(** The fields of an [OrderAction.SLTP] request that modifyPosition
    fills from its arguments. *)
Record t : Type := mk {
  ticket : Z;
  stopLoss : Q;
  takeProfit : Q
}.
End OrderRequest.

Module MT5Trading.
(** [value || fallback] on numbers *)
Definition orElse (value fallback : Q) : Q :=
  if Qeq_bool value 0 then fallback else value.

(** modifyPosition: the request sent for a position that is still
    open ([None] for 'Position not found'). *)
Definition modifyPosition (positions : list Position.t) (ticket : Z)
    (stopLoss takeProfit : Q) : option OrderRequest.t :=
  match List.find (fun p => Z.eqb (Position.ticket p) ticket) positions with
  | None => None
  | Some position =>
      Some (OrderRequest.mk ticket
              (orElse stopLoss (Position.stopLoss position))
              (orElse takeProfit (Position.takeProfit position)))
  end.

(** Modelled from the spec: the execution gateway is a collaborator
    outside the repository; a request it accepts sets the stop and the
    target of the position it names ("moves stop to 1.1000"). *)
Definition applyRequest (request : OrderRequest.t) (position : Position.t) : Position.t :=
  if Z.eqb (Position.ticket position) (OrderRequest.ticket request)
  then Position.mk (Position.ticket position) (Position.symbol position)
         (Position.type position) (Position.volume position)
         (Position.openPrice position) (Position.currentPrice position)
         (Position.profit position)
         (OrderRequest.stopLoss request) (OrderRequest.takeProfit request)
         (Position.openTime position) (Position.comment position)
  else position.
End MT5Trading.

(** ** RiskManager *)

(** The reason strings of the risk manager; numbers printed into a
    message are kept as arguments. *)
Inductive Reason : Type :=
| TradingBlocked            (* 'Trading blocked due to daily loss limit' *)
| NoAccountInformation      (* 'Cannot retrieve account information' *)
| DailyLossLimitReached (currentDailyLoss maxDailyLoss : Q)
                            (* 'Daily loss limit reached: .. / ..' *)
| DailyLossCheckPassed      (* 'Daily loss limit check passed' *)
| MaxPositionsReached (openPositions : nat) (maxOpenPositions : Q)
                            (* 'Maximum open positions reached: .. / ..' *)
| PositionCountCheckPassed  (* 'Position count check passed' *)
| NoMarketDataForSpread     (* 'Cannot retrieve market data for spread check' *)
| SpreadTooWide (spreadPips maxSpread : Q)
                            (* 'Spread too wide: .. > .. pips' *)
| SpreadCheckPassed         (* 'Spread check passed' *)
| NoValidPositionSize       (* 'Unable to calculate valid position size' *)
| TradeValidated.           (* 'Trade validated successfully' *)

Module ValidationCheck.
Record t : Type := mk {
  passed : bool;
  reason : Reason
}.
End ValidationCheck.

Module TradeValidationResult.
Record t : Type := mk {
  isValid : bool;
  reason : Reason;
  adjustedSignal : option Signal;
  positionSize : option jsnum
}.
End TradeValidationResult.

Module PartialRiskParams.
(** [Partial<RiskParams>]: the fields present in an update. *)
Record t : Type := mk {
  maxRiskPerTrade : option Q;
  maxDailyLoss : option Q;
  maxOpenPositions : option Q;
  minRiskReward : option Q;
  maxSpread : option Q;
  newsFilterEnabled : option bool
}.
End PartialRiskParams.

Module Feed.
(** What the market data feed answers during one call of the risk
    manager ([None] for null). *)
Record t : Type := mk {
  getAccountInfo : option AccountInfo.t;
  getPositions : list Position.t;
  getMarketData : string -> option MarketData.t;
  getSymbolInfo : string -> option SymbolInfo.t
}.
End Feed.

(** A call the position monitor makes on the trading gateway. *)
Inductive GatewayCall : Type :=
| ModifyPosition (ticket : Z) (stopLoss takeProfit : Q)
| ClosePosition (ticket : Z).

Module RiskManager.

Record t : Type := mk {
  riskParams : RiskParams.t;
  dailyStartBalance : Q;
  dailyPL : Q;
  isTradeBlocked : bool
}.

Definition setBlocked (rm : t) (blocked : bool) : t :=
  mk (riskParams rm) (dailyStartBalance rm) (dailyPL rm) blocked.

(** initializeDailyTracking, once the account reply has arrived. *)
Definition initializeDailyTracking (rm : t) (feed : Feed.t) : t :=
  match Feed.getAccountInfo feed with
  | Some accountInfo =>
      mk (riskParams rm) (AccountInfo.balance accountInfo) 0 (isTradeBlocked rm)
  | None => rm
  end.

(** The field initialisers of the class; the constructor then starts
    initializeDailyTracking. *)
Definition create (riskParams : RiskParams.t) : t := mk riskParams 0 0 false.

(** The exported singleton's parameters. *)
Definition defaultParams : RiskParams.t :=
  RiskParams.mk 2.0 6.0 5 1.5 3.0 true.

Definition checkDailyLossLimit (rm : t) (accountInfo : AccountInfo.t)
    : t * ValidationCheck.t :=
  let maxDailyLoss :=
    (dailyStartBalance rm * RiskParams.maxDailyLoss (riskParams rm)) / 100 in
  let currentDailyLoss := dailyStartBalance rm - AccountInfo.balance accountInfo in
  if Qgeb currentDailyLoss maxDailyLoss
  then (setBlocked rm true,
        ValidationCheck.mk false (DailyLossLimitReached currentDailyLoss maxDailyLoss))
  else (rm, ValidationCheck.mk true DailyLossCheckPassed).

Definition checkMaxPositions (rm : t) (feed : Feed.t) : ValidationCheck.t :=
  let positions := Feed.getPositions feed in
  if Qgeb (inject_Z (Z.of_nat (length positions)))
          (RiskParams.maxOpenPositions (riskParams rm))
  then ValidationCheck.mk false
         (MaxPositionsReached (length positions)
            (RiskParams.maxOpenPositions (riskParams rm)))
  else ValidationCheck.mk true PositionCountCheckPassed.

Definition checkSpread (rm : t) (feed : Feed.t) (symbol : string) : ValidationCheck.t :=
  match Feed.getMarketData feed symbol with
  | None => ValidationCheck.mk false NoMarketDataForSpread
  | Some marketData =>
      let spreadPips := MarketData.spread marketData in
      if Qgtb spreadPips (RiskParams.maxSpread (riskParams rm))
      then ValidationCheck.mk false
             (SpreadTooWide spreadPips (RiskParams.maxSpread (riskParams rm)))
      else ValidationCheck.mk true SpreadCheckPassed
  end.

(** calculatePositionSize.  The quotient by the stop distance can be
    an infinity or NaN (a zero distance or a zero point), so the size
    is a [jsnum]. *)
Definition calculatePositionSize (rm : t) (feed : Feed.t) (signal : Signal)
    (accountInfo : AccountInfo.t) : jsnum :=
  let riskAmount :=
    (AccountInfo.equity accountInfo * RiskParams.maxRiskPerTrade (riskParams rm)) / 100 in
  let stopLossDistance :=
    Qabs (StrategySignal.entry signal - StrategySignal.stopLoss signal) in
  match Feed.getSymbolInfo feed (StrategySignal.symbol signal) with
  | None => Fin 0
  | Some symbolInfo =>
      let pointValue := SymbolInfo.point symbolInfo in
      let tickValue := 1 in
      let positionSize :=
        js_div (Fin riskAmount)
               (js_mul (js_div (Fin stopLossDistance) (Fin pointValue)) (Fin tickValue)) in
      js_max (Fin (SymbolInfo.volumeMin symbolInfo))
        (js_min (Fin (SymbolInfo.volumeMax symbolInfo))
           (js_mul (js_round (js_div positionSize (Fin (SymbolInfo.volumeStep symbolInfo))))
                   (Fin (SymbolInfo.volumeStep symbolInfo))))
  end.

Definition adjustStopLoss (rm : t) (signal : Signal) : Q :=
  StrategySignal.stopLoss signal.

(** adjustTakeProfit, on exact rationals. *)
Definition adjustTakeProfit (rm : t) (signal : Signal) : Q :=
  adjustTakeProfitOver (RiskParams.minRiskReward (riskParams rm)) signal.

Definition reject (reason : Reason) : TradeValidationResult.t :=
  TradeValidationResult.mk false reason None None.

(** validateTrade: the manager after the call and the result.  The
    feed never rejects a request (it resolves to null), so the [catch]
    branch is not entered. *)
Definition validateTrade (rm : t) (feed : Feed.t) (signal : Signal)
    : t * TradeValidationResult.t :=
  if isTradeBlocked rm then (rm, reject TradingBlocked)
  else
    match Feed.getAccountInfo feed with
    | None => (rm, reject NoAccountInformation)
    | Some accountInfo =>
        let '(rm, dailyLossCheck) := checkDailyLossLimit rm accountInfo in
        if negb (ValidationCheck.passed dailyLossCheck)
        then (rm, reject (ValidationCheck.reason dailyLossCheck))
        else
          let positionCheck := checkMaxPositions rm feed in
          if negb (ValidationCheck.passed positionCheck)
          then (rm, reject (ValidationCheck.reason positionCheck))
          else
            let spreadCheck := checkSpread rm feed (StrategySignal.symbol signal) in
            if negb (ValidationCheck.passed spreadCheck)
            then (rm, reject (ValidationCheck.reason spreadCheck))
            else
              let positionSize := calculatePositionSize rm feed signal accountInfo in
              if js_leb positionSize (Fin 0)
              then (rm, reject NoValidPositionSize)
              else
                let adjustedSL := adjustStopLoss rm signal in
                let adjustedTP := adjustTakeProfit rm signal in
                let adjustedSignal :=
                  StrategySignal.mk (StrategySignal.symbol signal)
                    (StrategySignal.action signal)
                    (StrategySignal.confidence signal)
                    (StrategySignal.entry signal)
                    adjustedSL adjustedTP
                    (StrategySignal.strategy signal)
                    (StrategySignal.timestamp signal) in
                (rm, TradeValidationResult.mk true TradeValidated
                       (Some adjustedSignal) (Some positionSize))
    end.

Definition shouldMoveToBreakEven (position : Position.t) : bool :=
  let riskDistance := Qabs (Position.openPrice position - Position.stopLoss position) in
  let currentProfit := Position.currentPrice position - Position.openPrice position in
  Qgeb (Qabs currentProfit) (riskDistance * 1.5)
  && negb (Qeq_bool (Position.stopLoss position) (Position.openPrice position)).

(** moveToBreakEven: the call made on the trading gateway. *)
Definition moveToBreakEven (position : Position.t) : GatewayCall :=
  ModifyPosition (Position.ticket position) (Position.openPrice position)
    (Position.takeProfit position).

Definition shouldTrailStop (position : Position.t) : bool := false.

Definition shouldEmergencyClose (rm : t) (position : Position.t) : bool :=
  let maxLossAmount :=
    (dailyStartBalance rm * RiskParams.maxRiskPerTrade (riskParams rm) * 2) / 100 in
  Qgeb (Qabs (Position.profit position)) maxLossAmount
  && Qltb (Position.profit position) 0.

(** applyPositionRiskManagement: the gateway calls for one position
    (trailStopLoss only writes a log line). *)
Definition applyPositionRiskManagement (rm : t) (position : Position.t) : list GatewayCall :=
  (if shouldMoveToBreakEven position then [moveToBreakEven position] else [])
  ++ (if shouldEmergencyClose rm position then [ClosePosition (Position.ticket position)] else []).

Definition monitorPositions (rm : t) (feed : Feed.t) : list GatewayCall :=
  flat_map (applyPositionRiskManagement rm) (Feed.getPositions feed).

Definition updateDailyPL (rm : t) (feed : Feed.t) : t :=
  match Feed.getAccountInfo feed with
  | Some accountInfo =>
      mk (riskParams rm) (dailyStartBalance rm)
         (AccountInfo.balance accountInfo - dailyStartBalance rm) (isTradeBlocked rm)
  | None => rm
  end.

Definition resetDailyTracking (rm : t) (feed : Feed.t) : t :=
  setBlocked (initializeDailyTracking rm feed) false.

Definition updateRiskParams (rm : t) (newParams : PartialRiskParams.t) : t :=
  let old := riskParams rm in
  mk (RiskParams.mk
        (default (RiskParams.maxRiskPerTrade old) (PartialRiskParams.maxRiskPerTrade newParams))
        (default (RiskParams.maxDailyLoss old) (PartialRiskParams.maxDailyLoss newParams))
        (default (RiskParams.maxOpenPositions old) (PartialRiskParams.maxOpenPositions newParams))
        (default (RiskParams.minRiskReward old) (PartialRiskParams.minRiskReward newParams))
        (default (RiskParams.maxSpread old) (PartialRiskParams.maxSpread newParams))
        (default (RiskParams.newsFilterEnabled old) (PartialRiskParams.newsFilterEnabled newParams)))
     (dailyStartBalance rm) (dailyPL rm) (isTradeBlocked rm).

(** The public methods that change or consult the manager, as calls
    with the feed's replies at the time of the call. *)
Inductive Call : Type :=
| CallValidateTrade (feed : Feed.t) (signal : Signal)
| CallMonitorPositions (feed : Feed.t)
| CallUpdateDailyPL (feed : Feed.t)
| CallUpdateRiskParams (newParams : PartialRiskParams.t)
| CallResetDailyTracking (feed : Feed.t).

Definition isReset (call : Call) : bool :=
  match call with CallResetDailyTracking _ => true | _ => false end.

Definition isValidateTrade (call : Call) : bool :=
  match call with CallValidateTrade _ _ => true | _ => false end.

(** One call: the manager afterwards and, for validateTrade, the
    result. *)
Definition step (rm : t) (call : Call) : t * option TradeValidationResult.t :=
  match call with
  | CallValidateTrade feed signal =>
      let '(rm', result) := validateTrade rm feed signal in (rm', Some result)
  | CallMonitorPositions feed => (rm, None)
  | CallUpdateDailyPL feed => (updateDailyPL rm feed, None)
  | CallUpdateRiskParams newParams => (updateRiskParams rm newParams, None)
  | CallResetDailyTracking feed => (resetDailyTracking rm feed, None)
  end.

(** A sequence of calls: the final manager and the validation results
    in order. *)
Fixpoint run (rm : t) (calls : list Call) : t * list TradeValidationResult.t :=
  match calls with
  | [] => (rm, [])
  | call :: rest =>
      let '(rm', result) := step rm call in
      let '(final, results) := run rm' rest in
      (final, match result with Some r => r :: results | None => results end)
  end.

End RiskManager.

(** ** First matches *)

(** The test and the candidate of each loop of the signal generator,
    taken out of the loop: a loop returns the candidate of the first
    element that passes the test. *)
Module Match.

Definition blockMatches (currentPrice : Q) (orderBlock : OrderBlock.t) : bool :=
  let high := OrderBlock.high orderBlock in
  let low := OrderBlock.low orderBlock in
  let tolerance := (high - low) * 0.1 in
  negb (OrderBlock.tested orderBlock)
  && (Qgeb currentPrice (low - tolerance) && Qle_bool currentPrice (high + tolerance)).

Definition blockCandidate (name : string) (currentPrice : Q) (orderBlock : OrderBlock.t) : Signal :=
  let high := OrderBlock.high orderBlock in
  let low := OrderBlock.low orderBlock in
  match OrderBlock.type orderBlock with
  | bullish =>
      SMC.candidate name BUY (OrderBlock.strength orderBlock / 100) currentPrice
        (low - (high - low) * 0.2) (currentPrice + (currentPrice - low) * 2)
  | bearish =>
      SMC.candidate name SELL (OrderBlock.strength orderBlock / 100) currentPrice
        (high + (high - low) * 0.2) (currentPrice - (high - currentPrice) * 2)
  end.

Definition zoneMatches (currentPrice : Q) (lastBar : OHLC.t) (zone : LiquidityZone.t) : bool :=
  let level := LiquidityZone.level zone in
  let tolerance := level * 0.001 in
  match LiquidityZone.type zone with
  | resistance =>
      Qgtb currentPrice (level + tolerance)
      && Qltb (OHLC.close lastBar) (OHLC.open lastBar)
  | support =>
      Qltb currentPrice (level - tolerance)
      && Qgtb (OHLC.close lastBar) (OHLC.open lastBar)
  end.

Definition zoneCandidate (name : string) (currentPrice : Q) (zone : LiquidityZone.t) : Signal :=
  let level := LiquidityZone.level zone in
  match LiquidityZone.type zone with
  | resistance =>
      SMC.candidate name SELL (LiquidityZone.strength zone / 100) currentPrice
        (level + level * 0.002) (currentPrice - (currentPrice - level) * 1.5)
  | support =>
      SMC.candidate name BUY (LiquidityZone.strength zone / 100) currentPrice
        (level - level * 0.002) (currentPrice + (level - currentPrice) * 1.5)
  end.

Definition gapMatches (currentPrice : Q) (fvg : FairValueGap.t) : bool :=
  negb (FairValueGap.filled fvg)
  && (Qgeb currentPrice (FairValueGap.bottom fvg)
      && Qle_bool currentPrice (FairValueGap.top fvg)).

Definition gapCandidate (name : string) (currentPrice : Q) (fvg : FairValueGap.t) : Signal :=
  let top := FairValueGap.top fvg in
  let bottom := FairValueGap.bottom fvg in
  match FairValueGap.type fvg with
  | bullish =>
      SMC.candidate name BUY 0.75 currentPrice
        (bottom - (top - bottom) * 0.5) (currentPrice + (top - bottom) * 2)
  | bearish =>
      SMC.candidate name SELL 0.75 currentPrice
        (top + (top - bottom) * 0.5) (currentPrice - (top - bottom) * 2)
  end.

(** What one category contributes to analyze: its first match, stamped,
    if it passes validateSignal. *)
Definition emitted (found : option Signal) (symbol name : string) (now : Z) : option Signal :=
  SMC.orElse found symbol name now None.

End Match.

(** ** Detection cycles of a strategy *)

Module Cycle.
(** What the orchestrator does to a strategy: it activates it, deactivates
    it, or runs analyze on the window and tick of a cycle. *)
Inductive t : Type :=
| Activate
| Deactivate
| Analyze (symbol : string) (ohlc : list OHLC.t) (marketData : MarketData.t) (now : Z).

Definition step (s : SMC.t) (cycle : t) : SMC.t :=
  match cycle with
  | Activate => SMC.activate s
  | Deactivate => SMC.deactivate s
  | Analyze symbol ohlc marketData now => fst (SMC.analyze s symbol ohlc marketData now)
  end.

(** The strategy after a sequence of cycles, oldest first. *)
Definition run (s : SMC.t) (cycles : list t) : SMC.t := fold_left step cycles s.
End Cycle.



(** ** The sizing rule in the words of the specification *)

Definition clampVolume (volumeMin volumeMax size : Q) : Q :=
  Qmax volumeMin (Qmin volumeMax size).

Definition roundToStep (volumeStep size : Q) : Q :=
  Qround_half_up (size / volumeStep) * volumeStep.

(** "size = riskAmount / stopDistance, then clamped to [min, max] and
    rounded to the nearest volume step": the quotient, the clamp, then
    the rounding. *)
Definition specPositionSize (riskAmount stopDistance volumeMin volumeMax volumeStep : Q) : Q :=
  roundToStep volumeStep (clampVolume volumeMin volumeMax (riskAmount / stopDistance)).

(** A volume that is a whole number of steps. *)
Definition multipleOfStep (volumeStep volume : Q) : Prop :=
  exists k : Z, volume == inject_Z k * volumeStep.

(** ** The weights of the learning engine *)

(** Every stored weight lies in [0.1, 2.0]. *)
Definition weightsInRange (le : LearningEngine.t Q) : Prop :=
  (forall strategy w,
      LearningEngine.strategyWeights le !! strategy = Some w -> 0.1 <= w /\ w <= 2.0)
  /\ (forall symbol symbolMap strategy w,
         LearningEngine.symbolPerformance le !! symbol = Some symbolMap ->
         symbolMap !! strategy = Some w -> 0.1 <= w /\ w <= 2.0).

(** The adjustments of updateFromTrade, by outcome. *)
Definition strategyAdjustment (result : TradeResultKind) : Q :=
  match result with win => 0.05 | loss => -0.02 end.

Definition symbolAdjustment (result : TradeResultKind) : Q :=
  match result with win => 0.03 | loss => -0.01 end.

(** ** Scenarios *)

Module Scenario.

Definition flatBar (price : Q) : OHLC.t := OHLC.mk 0 price price price price 0.

Definition tick (price : Q) : MarketData.t := MarketData.mk "EURUSD" price price 0 0 0.

(** Fifty bars: twenty flat at 100, a bullish rejection bar (low 96,
    close 102) followed by two bars closing above its high and leaving a
    gap between 102 and 103, then flat at 107. *)
Definition blockAndGap : list OHLC.t :=
  replicate 20 (flatBar 100)
  ++ [OHLC.mk 0 100 102 96 102 0; OHLC.mk 0 102 106 102 106 0; OHLC.mk 0 103 107 103 107 0]
  ++ replicate 27 (flatBar 107).

(** Fifty bars with one bullish gap between 100 and 103 and no order
    block or liquidity zone. *)
Definition gapOnly : list OHLC.t :=
  replicate 20 (flatBar 100)
  ++ [OHLC.mk 0 100 103 100 103 0]
  ++ replicate 29 (flatBar 103).

Definition activeStrategy : SMC.t := SMC.activate SMC.create.

(** The gap of [gapOnly], with its flag set. *)
Definition filledGap : FairValueGap.t := FairValueGap.mk bullish 103 100 20 true.

Definition strategyWithFilledGap : SMC.t :=
  SMC.mk "SMC (Smart Money)" true [] [] [filledGap].

(** The arbitration scenario of the specification: weights 1.2 and 0.8,
    confidences 0.6 and 0.9, no symbol weights stored (1.0 each). *)
Section Arbitration.
Context {N : Type} `{JSNumber N}.

Definition weightsAB : LearningEngine.t N :=
  LearningEngine.mk (<["B" := lit 0.8]> (<["A" := lit 1.2]> ∅)) ∅.

Definition candidateOf (strategy : string) (confidence : Q) : StrategySignal.t N :=
  StrategySignal.mk "EURUSD" BUY (lit confidence) (lit 1.1) (lit 1.095) (lit 1.11)
    strategy 0%Z.

Definition candidateA : StrategySignal.t N := candidateOf "A" 0.6.
Definition candidateB : StrategySignal.t N := candidateOf "B" 0.9.
End Arbitration.

(** The break-even scenario: bought at 1.1000 with the stop at 1.0950. *)
Definition boughtAt (currentPrice profit : Q) : Position.t :=
  Position.mk 1 "EURUSD" PositionBUY 0.1 1.1000 currentPrice profit 1.0950 1.1150 0 "".

(** At 1.1080, 80 pips in profit. *)
Definition winningPosition : Position.t := boughtAt 1.1080 80.

(** At 1.0920, 80 pips in loss. *)
Definition losingPosition : Position.t := boughtAt 1.0920 (-80).

(** The daily-loss scenario: the day started at 10,000. *)
Definition managerAt10000 : RiskManager.t :=
  RiskManager.mk RiskManager.defaultParams 10000 0 false.

Definition account (balance : Q) : AccountInfo.t :=
  AccountInfo.mk balance balance 0 0 balance 0 "USD" 100.

Definition eurusdInfo (volumeMin volumeMax volumeStep : Q) : SymbolInfo.t :=
  SymbolInfo.mk "EURUSD" 5 0.00001 1 0 volumeMin volumeMax volumeStep 0.

Definition feed (balance : Q) (info : SymbolInfo.t) : Feed.t :=
  Feed.mk (Some (account balance)) [] (fun _ => Some (tick 1.1)) (fun _ => Some info).

Definition buySignal (takeProfit : Q) : Signal :=
  StrategySignal.mk "EURUSD" BUY 0.75 1.1000 1.0950 takeProfit "SMC (Smart Money)" 0%Z.

End Scenario.

(** * Further parts of the code *)

(** The order of [sort((a, b) => b.strength - a.strength)]: strongest
    first. *)
Definition strongerOrEqual (a b : OrderBlock.t) : Prop :=
  OrderBlock.strength b <= OrderBlock.strength a.

(** The two pivot searches of BaseStrategy differ in one comparison:
    [blocks neighbour candidate] is the test that ends a candidate,
    [>=] for highs and [<=] for lows. *)
Definition pivotsWith (blocks : Q -> Q -> bool) (data : list Q)
    (leftBars rightBars : nat) : list Q :=
  map (fun i =>
         let isPivot :=
           forallb (fun j => negb (blocks (Base.at_ data j) (Base.at_ data i)))
                   (seq (i - leftBars) leftBars)
           && forallb (fun j => negb (blocks (Base.at_ data j) (Base.at_ data i)))
                      (seq (i + 1) rightBars) in
         if isPivot then Base.at_ data i else 0)
      (seq leftBars (length data - rightBars - leftBars)).

(** A BUY signal on EURUSD, its three prices read as decimal literals
    in either arithmetic. *)
Definition boughtWith {N : Type} `{JSNumber N} (entry stopLoss takeProfit : Q)
    : StrategySignal.t N :=
  StrategySignal.mk "EURUSD" BUY (lit 0.75) (lit entry) (lit stopLoss) (lit takeProfit)
    "SMC (Smart Money)" 0%Z.



(** ** BaseStrategy: the performance record ([src/lib/strategies/base.ts]) *)

Module TradeResult.
Record t : Type := mk {
  symbol : string;
  strategy : string;
  entry : Q;
  exit : Q;
  profit : Q;
  duration : Z;
  timestamp : Z
}.
End TradeResult.

(** A counter read as a number. *)
Definition count (n : nat) : Q := inject_Z (Z.of_nat n).

(** [reduce((a, b) => a + b, 0)] *)
Definition sum (data : list Q) : Q := fold_left Qplus data 0.

Module StrategyPerformance.
(** The three counters start at 0 and are only incremented. *)
Record t : Type := mk {
  totalTrades : nat;
  winningTrades : nat;
  losingTrades : nat;
  totalProfit : Q;
  winRate : Q;
  avgWin : Q;
  avgLoss : Q;
  profitFactor : Q;
  maxDrawdown : Q
}.

(** The record of the constructor and of resetPerformance. *)
Definition create : t := mk 0 0 0 0 0 0 0 0 0.

(** updatePerformance.  Every divisor is a counter that has just been
    incremented, or an average that has been tested to be positive. *)
Definition updatePerformance (p : t) (trade : TradeResult.t) : t :=
  let profit := TradeResult.profit trade in
  let totalTrades := S (totalTrades p) in
  let isWin := Qgtb profit 0 in
  let winningTrades := if isWin then S (winningTrades p) else winningTrades p in
  let avgWin :=
    if isWin
    then (avgWin p * (count winningTrades - 1) + profit) / count winningTrades
    else avgWin p in
  let losingTrades := if isWin then losingTrades p else S (losingTrades p) in
  let avgLoss :=
    if isWin
    then avgLoss p
    else (avgLoss p * (count losingTrades - 1) + Qabs profit) / count losingTrades in
  let totalProfit := totalProfit p + profit in
  let winRate := (count winningTrades / count totalTrades) * 100 in
  let profitFactor := if Qgtb avgLoss 0 then avgWin / avgLoss else profitFactor p in
  let maxDrawdown :=
    if Qltb profit 0 && Qgtb (Qabs profit) (maxDrawdown p)
    then Qabs profit
    else maxDrawdown p in
  mk totalTrades winningTrades losingTrades totalProfit winRate avgWin avgLoss
     profitFactor maxDrawdown.

(** The record after a sequence of closed trades, oldest first. *)
Definition updatePerformances (p : t) (trades : list TradeResult.t) : t :=
  fold_left updatePerformance trades p.
End StrategyPerformance.

(** What holds of the record after any sequence of trades. *)
Definition performanceOf (profits : list Q) (p : StrategyPerformance.t) : Prop :=
  let wins := List.filter (fun x => Qgtb x 0) profits in
  let losses := List.filter (fun x => negb (Qgtb x 0)) profits in
  StrategyPerformance.totalTrades p = length profits
  /\ StrategyPerformance.winningTrades p = length wins
  /\ StrategyPerformance.losingTrades p = length losses
  /\ StrategyPerformance.totalProfit p == sum profits
  /\ StrategyPerformance.avgWin p * count (length wins) == sum wins
  /\ StrategyPerformance.avgLoss p * count (length losses) == - sum losses
  /\ 0 <= StrategyPerformance.avgLoss p
  /\ (length losses = 0%nat -> StrategyPerformance.avgLoss p = 0)
  /\ StrategyPerformance.winRate p * count (length profits) == 100 * count (length wins)
  /\ (0 < StrategyPerformance.avgLoss p ->
      StrategyPerformance.profitFactor p
      = StrategyPerformance.avgWin p / StrategyPerformance.avgLoss p)
  /\ (StrategyPerformance.avgLoss p <= 0 -> StrategyPerformance.profitFactor p = 0)
  /\ 0 <= StrategyPerformance.maxDrawdown p
  /\ (forall x, In x profits -> - x <= StrategyPerformance.maxDrawdown p)
  /\ (0 < StrategyPerformance.maxDrawdown p ->
      exists x, In x profits /\ x < 0 /\ StrategyPerformance.maxDrawdown p = Qabs x).

(** ** BaseStrategy: the indicators ([src/lib/strategies/base.ts]) *)

(** [a + b] and [a - b] as JavaScript computes them. *)
Definition js_add (a b : jsnum) : jsnum :=
  match a, b with
  | NaN, _ | _, NaN => NaN
  | Fin x, Fin y => Fin (x + y)
  | PInf, NInf | NInf, PInf => NaN
  | PInf, _ | _, PInf => PInf
  | NInf, _ | _, NInf => NInf
  end.

Definition js_opp (a : jsnum) : jsnum :=
  match a with
  | Fin x => Fin (- x)
  | PInf => NInf
  | NInf => PInf
  | NaN => NaN
  end.

Definition js_sub (a b : jsnum) : jsnum := js_add a (js_opp b).

Module Indicators.

(** [data.slice(start, end)] for indices that are not negative. *)
Definition slice (data : list Q) (start finish : nat) : list Q :=
  firstn (finish - start) (skipn start data).

(** calculateSMA, for a period that is a bar count.  With period 0 the
    loop starts at index -1 and every window is empty: one 0 / 0 more
    than there are values. *)
Definition calculateSMA (data : list Q) (period : nat) : list jsnum :=
  match period with
  | O => repeat (js_div (Fin (sum [])) (Fin (count period))) (S (length data))
  | S _ =>
      map (fun i =>
             js_div (Fin (sum (slice data (i + 1 - period) (i + 1)))) (Fin (count period)))
          (seq (period - 1) (length data - (period - 1)))
  end.

(** The loop of calculateEMA from index 1 on: [previous] is [ema[i - 1]]. *)
Fixpoint emaFrom (k previous : Q) (rest : list Q) : list Q :=
  match rest with
  | [] => []
  | x :: rest' =>
      let current := x * k + previous * (1 - k) in
      current :: emaFrom k current rest'
  end.

(** calculateEMA.  [ema[0] = data[0]] stores [undefined] ([None]) when
    there is no value at all. *)
Definition calculateEMA (data : list Q) (period : nat) : list (option Q) :=
  let k := 2 / (count period + 1) in
  match data with
  | [] => [None]
  | first :: rest => map Some (first :: emaFrom k first rest)
  end.

(** [data.slice(1).map((price, i) => price - data[i])] *)
Definition changes (data : list Q) : list Q :=
  map (fun i => Base.at_ data (S i) - Base.at_ data i) (seq 0 (length data - 1)).

Definition calculateRSI (data : list Q) (period : nat) : list jsnum :=
  map (fun i =>
         let window := slice (changes data) (i - period) i in
         let gains := List.filter (fun change => Qgtb change 0) window in
         let losses := map Qabs (List.filter (fun change => Qltb change 0) window) in
         let avgGain := js_div (Fin (sum gains)) (Fin (count period)) in
         let avgLoss := js_div (Fin (sum losses)) (Fin (count period)) in
         let rs := js_div avgGain avgLoss in
         js_sub (Fin 100) (js_div (Fin 100) (js_add (Fin 1) rs)))
      (seq period (length (changes data) - period)).
End Indicators.

(** ** MT5Trading: orders ([src/lib/mt5/trading.ts]) *)

Inductive OrderType : Type :=
| OrderBUY | OrderSELL | BUY_LIMIT | SELL_LIMIT | BUY_STOP | SELL_STOP.

Inductive OrderAction : Type := DEAL | PENDING | SLTP | MODIFY | REMOVE.

(** The comment of a request; what is printed into it is kept as an
    argument. *)
Inductive Comment : Type :=
| MarketMindStrategy (strategy : string)   (* `MarketMind-${strategy}` *)
| MarketMindTime (now : Z)                 (* `MarketMind-${Date.now()}` *)
| CloseTicket (ticket : Z).                (* `Close-${ticket}` *)

Inductive OrderError : Type :=
| PositionNotFound                         (* 'Position not found' *)
| NotConnected.                            (* 'MT5 not connected' *)

Module Request.
(** [OrderRequest] of types.ts; a field left out of the object literal
    is [None]. *)
Record t : Type := mk {
  action : OrderAction;
  symbol : string;
  volume : jsnum;
  type : OrderType;
  price : option Q;
  stopLoss : option Q;
  takeProfit : option Q;
  comment : option Comment;
  magic : Z
}.
End Request.

Module OrderResult.
Record t : Type := mk {
  success : bool;
  ticket : option Z;
  error : option OrderError;
  retcode : option Z
}.
End OrderResult.

Module Trading.

Record t : Type := mk {
  magicNumber : Z
}.

(** The exported singleton: [new MT5Trading()]. *)
Definition create : t := mk 12345.

(** sendOrderRequest with simulateOrderExecution: [connected] is the
    answer of isConnectionActive and [draw] the ticket the simulation
    draws. *)
Definition sendOrderRequest (connected : bool) (draw : Z) (request : Request.t)
    : OrderResult.t :=
  if negb connected
  then OrderResult.mk false None (Some NotConnected) None
  else OrderResult.mk true (Some draw) None (Some 10009%Z).

(** placeMarketOrder: the request built and the result.  A missing or
    empty comment is [None]. *)
Definition placeMarketOrder (trading : t) (connected : bool) (draw now : Z)
    (symbol : string) (volume : jsnum) (type : PositionType)
    (stopLoss takeProfit : option Q) (comment : option Comment)
    : Request.t * OrderResult.t :=
  let orderRequest :=
    Request.mk DEAL symbol volume
      (match type with PositionBUY => OrderBUY | PositionSELL => OrderSELL end)
      None stopLoss takeProfit
      (Some (default (MarketMindTime now) comment))
      (magicNumber trading) in
  (orderRequest, sendOrderRequest connected draw orderRequest).

(** closePosition: the request built, if the position is found, and the
    result. *)
Definition closePosition (trading : t) (connected : bool) (draw : Z)
    (positions : list Position.t) (ticket : Z) : option Request.t * OrderResult.t :=
  match List.find (fun p => Z.eqb (Position.ticket p) ticket) positions with
  | None => (None, OrderResult.mk false None (Some PositionNotFound) None)
  | Some position =>
      let closeType :=
        match Position.type position with
        | PositionBUY => OrderSELL
        | PositionSELL => OrderBUY
        end in
      let orderRequest :=
        Request.mk DEAL (Position.symbol position) (Fin (Position.volume position))
          closeType None None None (Some (CloseTicket ticket)) (magicNumber trading) in
      (Some orderRequest, sendOrderRequest connected draw orderRequest)
  end.

(** The positions closeAllPositions works on: [symbol ? filter : all];
    a missing symbol is [None], and the empty string is falsy too. *)
Definition targetPositions (positions : list Position.t) (symbol : option string)
    : list Position.t :=
  match symbol with
  | Some symbol =>
      if String.eqb symbol ""
      then positions
      else List.filter (fun p => String.eqb (Position.symbol p) symbol) positions
  | None => positions
  end.

(** closeAllPositions: one closePosition per target.  [positions] is
    the reply of getPositions, taken to be the same for the call itself
    and for every closePosition of the loop; [draw k] is the ticket drawn
    for the k-th of them. *)
Definition closeAllPositions (trading : t) (connected : bool) (draw : nat -> Z)
    (positions : list Position.t) (symbol : option string)
    : list (option Request.t * OrderResult.t) :=
  imap (fun k position =>
          closePosition trading connected (draw k) positions (Position.ticket position))
       (targetPositions positions symbol).

(** calculatePositionSize of the trading manager. *)
Definition calculatePositionSize (feed : Feed.t) (symbol : string)
    (riskPercent entryPrice stopLoss : Q) : jsnum :=
  match Feed.getAccountInfo feed, Feed.getSymbolInfo feed symbol with
  | Some accountInfo, Some symbolInfo =>
      let riskAmount := (AccountInfo.equity accountInfo * riskPercent) / 100 in
      let pointValue := SymbolInfo.point symbolInfo in
      let pipsRisk := js_div (Fin (Qabs (entryPrice - stopLoss))) (Fin pointValue) in
      let positionSize := js_div (Fin riskAmount) (js_mul pipsRisk (Fin pointValue)) in
      js_max (Fin (SymbolInfo.volumeMin symbolInfo))
        (js_min (Fin (SymbolInfo.volumeMax symbolInfo)) positionSize)
  | _, _ => Fin 0
  end.

End Trading.

(** ** MT5Connection: a connection that is not open *)

(** Every query of MT5Connection starts with [if (!this.isConnected)
    return null] (or [[]]): what the callers get while the connection is
    not open. *)
Definition offline : Feed.t := Feed.mk None [] (fun _ => None) (fun _ => None).

(** ** MarketMindCore: start, stop, execution and learning data *)

Module Orchestrator.

Definition activateAll (strategies : list (string * SMC.t)) : list (string * SMC.t) :=
  map (fun entry => (fst entry, SMC.activate (snd entry))) strategies.

Definition deactivateAll (strategies : list (string * SMC.t)) : list (string * SMC.t) :=
  map (fun entry => (fst entry, SMC.deactivate (snd entry))) strategies.

(** start: [connected] is the answer of [mt5Connection.connect()]. *)
Definition start (c : Core.t) (connected : bool) : Core.t * bool :=
  if negb connected then (c, false)
  else
    ({| Core.strategies := activateAll (Core.strategies c);
        Core.activeSymbols :=
          {[ "AUDUSD"%string ]}
          ∪ ({[ "USDCAD"%string ]}
             ∪ ({[ "GBPUSD"%string ]} ∪ ({[ "EURUSD"%string ]} ∪ Core.activeSymbols c)));
        Core.isRunning := true;
        Core.learningEngine := Core.learningEngine c |},
     true).

Definition stop (c : Core.t) : Core.t :=
  {| Core.strategies := deactivateAll (Core.strategies c);
     Core.activeSymbols := Core.activeSymbols c;
     Core.isRunning := false;
     Core.learningEngine := Core.learningEngine c |}.

(** One symbol of one tick of the analysis interval. *)
Definition analysisTick (c : Core.t) (symbol : string)
    (marketData : option MarketData.t) (ohlc : list OHLC.t) (now : Z)
    : Core.t * list Signal * option Signal :=
  if negb (Core.isRunning c) then (c, [], None)
  else Core.analyzeSymbol c symbol marketData ohlc now.

(** executeSignal: the risk manager afterwards, the requests built for
    the trading gateway and the entry pushed on the signal history. *)
Definition executeSignal (trading : Trading.t) (rm : RiskManager.t) (feed : Feed.t)
    (connected : bool) (draw : nat -> Z) (now : Z) (signal : Signal)
    : RiskManager.t * list Request.t * option (SignalHistory.t Q) :=
  let '(rm, validation) := RiskManager.validateTrade rm feed signal in
  if negb (TradeValidationResult.isValid validation) then (rm, [], None)
  else
    match TradeValidationResult.adjustedSignal validation,
          TradeValidationResult.positionSize validation with
    | Some adjustedSignal, Some positionSize =>
        let place type :=
          let '(request, result) :=
            Trading.placeMarketOrder trading connected (draw 0%nat) now
              (StrategySignal.symbol adjustedSignal) positionSize type
              (Some (StrategySignal.stopLoss adjustedSignal))
              (Some (StrategySignal.takeProfit adjustedSignal))
              (Some (MarketMindStrategy (StrategySignal.strategy adjustedSignal))) in
          (rm, [request],
           if OrderResult.success result
           then Some (SignalHistory.mk adjustedSignal
                        (default 0%Z (OrderResult.ticket result)) now None)
           else None) in
        match StrategySignal.action adjustedSignal with
        | BUY => place PositionBUY
        | SELL => place PositionSELL
        | CLOSE =>
            (rm,
             omap fst
               (Trading.closeAllPositions trading connected draw (Feed.getPositions feed)
                  (Some (StrategySignal.symbol adjustedSignal))),
             None)
        end
    | _, _ => (rm, [], None)
    end.

(** [this.strategies.get(key)] on the performance records, which the
    registry keeps under the keys of the strategies. *)
Definition getPerformance (performances : list (string * StrategyPerformance.t))
    (key : string) : option StrategyPerformance.t :=
  option_map snd (List.find (fun entry => String.eqb (fst entry) key) performances).

Fixpoint setPerformance (performances : list (string * StrategyPerformance.t))
    (key : string) (p : StrategyPerformance.t) : list (string * StrategyPerformance.t) :=
  match performances with
  | [] => []
  | (k, old) :: rest =>
      if String.eqb k key then (k, p) :: rest else (k, old) :: setPerformance rest key p
  end.

(** What updateLearningData reads and writes. *)
Record LearningData : Type := mkLearningData {
  performances : list (string * StrategyPerformance.t);
  engine : LearningEngine.t Q;
  signalHistory : list (SignalHistory.t Q)
}.

Definition isOpen (positions : list Position.t) (ticket : Z) : bool :=
  existsb (fun p => Z.eqb (Position.ticket p) ticket) positions.

Definition isPending (positions : list Position.t) (history : SignalHistory.t Q) : bool :=
  match SignalHistory.outcome history with
  | None => negb (isOpen positions (SignalHistory.ticket history))
  | Some _ => false
  end.

(** The entry of a closed trade with its outcome; [result] and [profit]
    are the two random draws. *)
Definition closed (history : SignalHistory.t Q) (result : TradeResultKind) (profit : Q)
    (now : Z) : SignalHistory.t Q :=
  SignalHistory.mk (SignalHistory.signal history) (SignalHistory.ticket history)
    (SignalHistory.executionTime history)
    (Some (TradeOutcome.mk result profit now)).

Definition tradeResultOf (history : SignalHistory.t Q) (result : TradeResultKind)
    (profit : Q) (now : Z) : TradeResult.t :=
  let signal := SignalHistory.signal history in
  TradeResult.mk (StrategySignal.symbol signal) (StrategySignal.strategy signal)
    (StrategySignal.entry signal)
    (StrategySignal.entry signal + (match result with win => 50 | loss => -25 end))
    profit (now - SignalHistory.executionTime history)%Z
    (SignalHistory.executionTime history).

(** The loop of updateLearningData from the k-th history entry on;
    [draw k] holds the two random draws for that entry. *)
Fixpoint updateEntries (positions : list Position.t) (draw : nat -> TradeResultKind * Q)
    (now : Z) (k : nat) (histories : list (SignalHistory.t Q))
    (records : list (string * StrategyPerformance.t)) (learner : LearningEngine.t Q)
    : LearningData :=
  match histories with
  | [] => mkLearningData records learner []
  | history :: rest =>
      if isPending positions history
      then
        let '(result, profit) := draw k in
        let history' := closed history result profit now in
        let key := StrategySignal.strategy (SignalHistory.signal history) in
        let records' :=
          match getPerformance records key with
          | Some p =>
              setPerformance records key
                (StrategyPerformance.updatePerformance p
                   (tradeResultOf history result profit now))
          | None => records
          end in
        let learner' := LearningEngine.updateFromTrade learner history' in
        let after := updateEntries positions draw now (S k) rest records' learner' in
        mkLearningData (performances after) (engine after) (history' :: signalHistory after)
      else
        let after := updateEntries positions draw now (S k) rest records learner in
        mkLearningData (performances after) (engine after) (history :: signalHistory after)
  end.

Definition updateLearningData (data : LearningData) (positions : list Position.t)
    (draw : nat -> TradeResultKind * Q) (now : Z) : LearningData :=
  updateEntries positions draw now 0 (signalHistory data) (performances data) (engine data).

(** The performance records of a fresh orchestrator: one per registered
    strategy. *)
Definition createPerformances (c : Core.t) : list (string * StrategyPerformance.t) :=
  map (fun entry => (fst entry, StrategyPerformance.create)) (Core.strategies c).

End Orchestrator.

(** ** RiskManager: the status report *)

Module RiskStatus.
Record t : Type := mk {
  dailyPL : Q;
  dailyLossPercent : Q;
  openPositions : nat;
  maxPositions : Q;
  isTradeBlocked : bool;
  totalExposure : Q;
  accountEquity : Q
}.
End RiskStatus.

(** getRiskStatus *)
Definition getRiskStatus (rm : RiskManager.t) (feed : Feed.t) : RiskStatus.t :=
  let accountInfo := Feed.getAccountInfo feed in
  let positions := Feed.getPositions feed in
  RiskStatus.mk
    (RiskManager.dailyPL rm)
    (if Qgtb (RiskManager.dailyStartBalance rm) 0
     then (RiskManager.dailyPL rm / RiskManager.dailyStartBalance rm) * 100
     else 0)
    (length positions)
    (RiskParams.maxOpenPositions (RiskManager.riskParams rm))
    (RiskManager.isTradeBlocked rm)
    (fold_left (fun sum pos => sum + Qabs (Position.profit pos)) positions 0)
    (match accountInfo with
     | Some info => MT5Trading.orElse (AccountInfo.equity info) 0
     | None => 0
     end).

(** The entries of [after] at the places where [before] holds an entry
    that is waiting for its outcome. *)
Definition newlyClosed (positions : list Position.t)
    (before after : list (SignalHistory.t Q)) : list (SignalHistory.t Q) :=
  map snd
    (List.filter (fun pair => Orchestrator.isPending positions (fst pair))
       (combine before after)).

(** ** MT5Auth (the authentication manager of [src/lib/mt5]) *)

Module Credentials.
Record t : Type := mk {
  server : string;
  login : Z;
  password : string
}.
End Credentials.

(** The result of authenticate ([MT5AuthResult]). *)
Module AuthAccount.
Record t : Type := mk {
  login : Z;
  server : string;
  balance : Q;
  equity : Q;
  currency : string;
  leverage : Z;
  company : string
}.
End AuthAccount.

Module AuthResult.
Record t : Type := mk {
  success : bool;
  accountInfo : option AuthAccount.t;
  error : option string
}.
End AuthResult.

(** [localStorage], as far as the class uses it: the item under
    'mt5_credentials', and whether the calls go through.  Where the
    storage cannot be reached (no [localStorage] outside a browser, or
    access to it denied) every call throws; where it cannot be written
    (quota exceeded, or a mode that allows no writes) setItem throws. *)
Module Storage.

(** What authenticate stores under 'mt5_credentials': the server and
    the login.  The item is written by authenticate and removed by
    logout only, so the storage holds either nothing or such a pair. *)
Definition Stored : Type := (string * Z)%type.

Record t : Type := mk {
  item : option Stored;
  reachable : bool;
  writable : bool
}.

(** setItem: [None] when the call throws. *)
Definition setItem (storage : t) (value : Stored) : option t :=
  if reachable storage && writable storage
  then Some (mk (Some value) (reachable storage) (writable storage))
  else None.

(** getItem: [None] when the call throws, else the item or null. *)
Definition getItem (storage : t) : option (option Stored) :=
  if reachable storage then Some (item storage) else None.

(** removeItem: [None] when the call throws. *)
Definition removeItem (storage : t) : option t :=
  if reachable storage
  then Some (mk None (reachable storage) (writable storage))
  else None.

End Storage.

Module Auth.

Record t : Type := mk {
  credentials : option Credentials.t;
  isAuthenticated : bool
}.

(** The field initialisers of the class. *)
Definition create : t := mk None false.

(** The mock validation of simulateAuth. *)
Definition simulateAuth (c : Credentials.t) : AuthResult.t :=
  if (0 <? Credentials.login c)%Z && (4 <=? String.length (Credentials.password c))%nat
  then AuthResult.mk true
         (Some (AuthAccount.mk (Credentials.login c) (Credentials.server c) 10000.00 10000.00
                  "USD" 100 "MetaQuotes Software Corp."))
         None
  else AuthResult.mk false None
         (Some "Invalid credentials. Please check your login and password."%string).

(** authenticate: the object and the storage afterwards, and the result.
    The two fields are assigned before setItem is called, so when
    setItem throws the [catch] returns a failure while the object stays
    logged in. *)
Definition authenticate (auth : t) (storage : Storage.t) (c : Credentials.t)
    : t * Storage.t * AuthResult.t :=
  let response := simulateAuth c in
  if AuthResult.success response
  then let auth' := mk (Some c) true in
       match Storage.setItem storage (Credentials.server c, Credentials.login c) with
       | Some storage' => (auth', storage', response)
       | None =>
           (auth', storage,
            AuthResult.mk false None
              (Some "Authentication failed. Please check your credentials."%string))
       end
  else (auth, storage, response).

Definition isLoggedIn (auth : t) : bool := isAuthenticated auth.

Definition getCredentials (auth : t) : option Credentials.t := credentials auth.

(** logout: the object and the storage afterwards, and whether the call
    returns; the fields are cleared before removeItem is called, and
    what removeItem throws is not caught. *)
Definition logout (auth : t) (storage : Storage.t) : t * Storage.t * bool :=
  match Storage.removeItem storage with
  | Some storage' => (mk None false, storage', true)
  | None => (mk None false, storage, false)
  end.

(** restoreSession: what getItem throws is caught, and false returned. *)
Definition restoreSession (auth : t) (storage : Storage.t) : t * bool :=
  match Storage.getItem storage with
  | Some (Some _) => (mk (credentials auth) true, true)
  | Some None => (auth, false)
  | None => (auth, false)
  end.

End Auth.

(** * Properties *)

(** ** Comparisons on rationals *)

Lemma Qltb_lt (x y : Q) : Qltb x y = true <-> x < y.
Proof.
  unfold Qltb. rewrite negb_true_iff. split.
  - intros Hb. apply Qnot_le_lt. intros Hle.
    apply Qle_bool_iff in Hle. congruence.
  - intros Hlt. destruct (Qle_bool y x) eqn:Hb; [|reflexivity].
    apply Qle_bool_iff in Hb. lra.
Qed.

Lemma Qltb_ge (x y : Q) : Qltb x y = false <-> y <= x.
Proof.
  unfold Qltb. rewrite negb_false_iff. apply Qle_bool_iff.
Qed.

Lemma Qgtb_gt (x y : Q) : Qgtb x y = true <-> y < x.
Proof. apply Qltb_lt. Qed.

Lemma Qgtb_le (x y : Q) : Qgtb x y = false <-> x <= y.
Proof. apply Qltb_ge. Qed.

Lemma Qgeb_ge (x y : Q) : Qgeb x y = true <-> y <= x.
Proof. apply Qle_bool_iff. Qed.

Lemma Qgeb_lt (x y : Q) : Qgeb x y = false <-> x < y.
Proof.
  unfold Qgeb. split.
  - intros Hb. apply Qnot_le_lt. intros Hle.
    apply Qle_bool_iff in Hle. congruence.
  - intros Hlt. destruct (Qle_bool y x) eqn:Hb; [|reflexivity].
    apply Qle_bool_iff in Hb. lra.
Qed.

Lemma Qle_bool_gt (x y : Q) : Qle_bool x y = false <-> y < x.
Proof. apply (Qgeb_lt y x). Qed.

Lemma Qeq_bool_false (x y : Q) : Qeq_bool x y = false <-> ~ x == y.
Proof.
  split.
  - intros Hb Heq. apply Qeq_bool_iff in Heq. congruence.
  - intros Hne. destruct (Qeq_bool x y) eqn:Hb; [|reflexivity].
    apply Qeq_bool_iff in Hb. contradiction.
Qed.

(** Turn the boolean tests of the source into (in)equalities. *)
Ltac qbool :=
  repeat match goal with
    | H : (_ && _) = true |- _ => apply andb_true_iff in H; destruct H
    | H : (_ || _) = false |- _ => apply orb_false_iff in H; destruct H
    | H : negb _ = true |- _ => apply negb_true_iff in H
    | H : negb _ = false |- _ => apply negb_false_iff in H
    | H : Qltb _ _ = true |- _ => apply Qltb_lt in H
    | H : Qltb _ _ = false |- _ => apply Qltb_ge in H
    | H : Qgtb _ _ = true |- _ => apply Qgtb_gt in H
    | H : Qgtb _ _ = false |- _ => apply Qgtb_le in H
    | H : Qgeb _ _ = true |- _ => apply Qgeb_ge in H
    | H : Qgeb _ _ = false |- _ => apply Qgeb_lt in H
    | H : Qle_bool _ _ = true |- _ => apply Qle_bool_iff in H
    | H : Qle_bool _ _ = false |- _ => apply Qle_bool_gt in H
    | H : Qeq_bool _ _ = true |- _ => apply Qeq_bool_iff in H
    | H : Qeq_bool _ _ = false |- _ => apply Qeq_bool_false in H
    end.

(** [Math.min] and [Math.max] return one of their arguments. *)
Lemma Qmin_cases (x y : Q) : (x <= y /\ Qmin x y = x) \/ (y < x /\ Qmin x y = y).
Proof.
  unfold Qmin, GenericMinMax.gmin. destruct (x ?= y) eqn:Hc.
  - left. apply Qeq_alt in Hc. split; [lra | reflexivity].
  - left. apply Qlt_alt in Hc. split; [lra | reflexivity].
  - right. apply Qgt_alt in Hc. split; [lra | reflexivity].
Qed.

Lemma Qmax_cases (x y : Q) : (y <= x /\ Qmax x y = x) \/ (x < y /\ Qmax x y = y).
Proof.
  unfold Qmax, GenericMinMax.gmax. destruct (x ?= y) eqn:Hc.
  - left. apply Qeq_alt in Hc. split; [lra | reflexivity].
  - right. apply Qlt_alt in Hc. split; [lra | reflexivity].
  - left. apply Qgt_alt in Hc. split; [lra | reflexivity].
Qed.

Lemma Qabs_nonneg' (x : Q) : 0 <= Qabs x.
Proof. apply Qabs_nonneg. Qed.

Lemma Qabs_cases (x : Q) : (0 <= x /\ Qabs x == x) \/ (x < 0 /\ Qabs x == - x).
Proof.
  destruct (Qlt_le_dec x 0) as [Hneg | Hpos].
  - right. split; [assumption|]. apply Qabs_neg. lra.
  - left. split; [assumption|]. apply Qabs_pos. assumption.
Qed.

(** ** The clamp of the learning engine *)

Lemma clampWeight_range (w : Q) :
  0.1 <= LearningEngine.clampWeight w /\ LearningEngine.clampWeight w <= 2.0.
Proof.
  unfold LearningEngine.clampWeight. cbn.
  split.
  - apply Q.le_max_l.
  - apply Q.max_lub; [lra | apply Q.le_min_l].
Qed.

Lemma create_weightsInRange : weightsInRange LearningEngine.create.
Proof.
  split.
  - intros strategy w. unfold LearningEngine.create. cbn.
    rewrite !lookup_insert. repeat case_decide; rewrite ?lookup_empty;
      intros Hw; inversion Hw; subst; lra.
  - intros symbol symbolMap strategy w. cbn. rewrite lookup_empty. discriminate.
Qed.

Lemma updateFromTrade_weightsInRange (le : LearningEngine.t Q) (h : SignalHistory.t Q) :
  weightsInRange le -> weightsInRange (LearningEngine.updateFromTrade le h).
Proof.
  intros [Hs Hp]. unfold LearningEngine.updateFromTrade.
  destruct (SignalHistory.outcome h) as [o|]; [|split; assumption].
  split.
  - intros strategy w. cbn. rewrite lookup_insert. case_decide.
    + intros Hw. inversion Hw; subst. apply clampWeight_range.
    + apply Hs.
  - intros symbol symbolMap strategy w. cbn. rewrite lookup_insert. case_decide.
    + intros Hm. inversion Hm; subst. clear Hm.
      rewrite lookup_insert. case_decide.
      * intros Hw. inversion Hw; subst. apply clampWeight_range.
      * destruct (LearningEngine.symbolPerformance le
                    !! StrategySignal.symbol (SignalHistory.signal h)) as [m|] eqn:Hm.
        -- cbn. apply (Hp _ _ _ _ Hm).
        -- cbn. rewrite lookup_empty. discriminate.
    + apply Hp.
Qed.

Lemma updateFromTrades_weightsInRange (histories : list (SignalHistory.t Q)) :
  forall le, weightsInRange le ->
             weightsInRange (LearningEngine.updateFromTrades le histories).
Proof.
  induction histories as [|h rest IH]; intros le Hle; cbn.
  - assumption.
  - apply IH. apply updateFromTrade_weightsInRange. assumption.
Qed.

(** C3.  After any sequence of completed trades, starting from the
    constructor's weights, every stored strategy weight and every stored
    (symbol, strategy) weight lies in [0.1, 2.0]; and a further trade
    with an outcome stores, for its strategy, the weight stored before
    (1.0 if none is stored) plus 0.05 on a win and -0.02 on a loss,
    clamped to [0.1, 2.0], and for its symbol and strategy the weight
    stored before (1.0 if none) plus 0.03 on a win and -0.01 on a loss,
    clamped likewise. *)
Theorem weights_stay_in_range (histories : list (SignalHistory.t Q)) :
  let le := LearningEngine.updateFromTrades LearningEngine.create histories in
  weightsInRange le
  /\ forall (h : SignalHistory.t Q) (o : TradeOutcome.t Q),
      SignalHistory.outcome h = Some o ->
      let strategy := StrategySignal.strategy (SignalHistory.signal h) in
      let symbol := StrategySignal.symbol (SignalHistory.signal h) in
      let le' := LearningEngine.updateFromTrade le h in
      let stored :=
        match LearningEngine.strategyWeights le !! strategy with
        | Some weight => weight
        | None => 1.0
        end in
      let storedForSymbol :=
        match LearningEngine.symbolPerformance le !! symbol with
        | Some symbolMap =>
            match symbolMap !! strategy with
            | Some weight => weight
            | None => 1.0
            end
        | None => 1.0
        end in
      weightsInRange le'
      /\ LearningEngine.strategyWeights le' !! strategy
         = Some (Qmax 0.1 (Qmin 2.0 (stored + strategyAdjustment (TradeOutcome.result o))))
      /\ (exists symbolMap,
             LearningEngine.symbolPerformance le' !! symbol = Some symbolMap
             /\ symbolMap !! strategy
                = Some (Qmax 0.1 (Qmin 2.0 (storedForSymbol
                                            + symbolAdjustment (TradeOutcome.result o))))).
Proof.
  intros le.
  assert (Hle : weightsInRange le)
    by (apply updateFromTrades_weightsInRange, create_weightsInRange).
  split; [exact Hle|].
  intros h o Ho strategy symbol le' stored storedForSymbol.
  split; [apply updateFromTrade_weightsInRange; exact Hle|].
  assert (Hnonzero : forall w : Q, 0.1 <= w -> Qeq_bool w 0 = false).
  { intros w Hw. destruct (Qeq_bool w 0) eqn:Hzero; [|reflexivity].
    apply Qeq_bool_iff in Hzero. lra. }
  destruct Hle as [Hstrategies Hsymbols].
  subst le'. unfold LearningEngine.updateFromTrade. rewrite Ho.
  cbn [LearningEngine.strategyWeights LearningEngine.symbolPerformance].
  fold strategy symbol.
  split.
  - rewrite lookup_insert_eq. subst stored.
    destruct (LearningEngine.strategyWeights le !! strategy) as [w|] eqn:Hw.
    + unfold LearningEngine.orElse. cbn [truthy Q_number].
      pose proof (Hnonzero w (proj1 (Hstrategies _ _ Hw))) as Hz.
      destruct (Qeq_bool w 0); [discriminate Hz|].
      destruct (TradeOutcome.result o); reflexivity.
    + destruct (TradeOutcome.result o); reflexivity.
  - eexists. split; [apply lookup_insert_eq|].
    rewrite lookup_insert_eq. subst storedForSymbol.
    destruct (LearningEngine.symbolPerformance le !! symbol) as [m|] eqn:Hm;
      cbn [default]; unfold id.
    + destruct (m !! strategy) as [w|] eqn:Hw.
      * unfold LearningEngine.orElse. cbn [truthy Q_number].
        pose proof (Hnonzero w (proj1 (Hsymbols _ _ _ _ Hm Hw))) as Hz.
        destruct (Qeq_bool w 0); [discriminate Hz|].
        destruct (TradeOutcome.result o); reflexivity.
      * destruct (TradeOutcome.result o); reflexivity.
    + rewrite lookup_empty. destruct (TradeOutcome.result o); reflexivity.
Qed.

(** ** Arbitration *)

Section SelectBest.
Variables (le : LearningEngine.t Q) (symbol : string) (ohlc : list OHLC.t).

Let score := LearningEngine.totalScore le symbol ohlc.


End SelectBest.




(** In exact arithmetic the scenario of the specification is a tie,
    0.6 * 1.2 = 0.9 * 0.8, and the first candidate is selected. *)
Lemma arbitration_scenario_exact :
  LearningEngine.selectBestSignal (N := Q) Scenario.weightsAB
    [Scenario.candidateA; Scenario.candidateB] "EURUSD" []
  = Some Scenario.candidateA.
Proof. vm_compute. reflexivity. Qed.


(** ** The monitored symbols *)

Lemma upperAscii_idempotent (c : Ascii.ascii) : upperAscii (upperAscii c) = upperAscii c.
Proof. destruct c as [[] [] [] [] [] [] [] []]; reflexivity. Qed.

Lemma toUpperCase_idempotent (s : string) : toUpperCase (toUpperCase s) = toUpperCase s.
Proof.
  induction s as [|c rest IH]; cbn [toUpperCase].
  - reflexivity.
  - rewrite upperAscii_idempotent, IH. reflexivity.
Qed.

Lemma removeSymbol_addSymbol_symbols (c : Core.t) (s s' : string) :
  toUpperCase s = toUpperCase s' ->
  Core.activeSymbols (Core.removeSymbol (Core.addSymbol c s) s')
  = Core.activeSymbols c ∖ {[ toUpperCase s ]}.
Proof.
  intros Heq. cbn. rewrite <- Heq. set_solver.
Qed.

(** C10 (amended).  addSymbol inserts the upper-case form of its
    argument, so two spellings of one symbol give one entry; removeSymbol
    after addSymbol, in any spelling of the same symbol, leaves the set
    without the symbol: the result is the prior set minus the symbol.  It
    is the prior orchestrator exactly when the symbol was not monitored
    before the addSymbol. *)
Theorem symbols_case_normalized (c : Core.t) (s s' : string) :
  Core.activeSymbols (Core.addSymbol c s) = {[ toUpperCase s ]} ∪ Core.activeSymbols c
  /\ toUpperCase "eurusd" = toUpperCase "EURUSD"
  /\ (toUpperCase "eurusd" ∈ ({[ "EURUSD"%string ]} : gset string))
  /\ Core.addSymbol c "eurusd" = Core.addSymbol c "EURUSD"
  /\ toUpperCase (toUpperCase s) = toUpperCase s
  /\ (toUpperCase s = toUpperCase s' ->
      Core.addSymbol c s = Core.addSymbol c s'
      /\ (toUpperCase s ∉ Core.activeSymbols (Core.removeSymbol (Core.addSymbol c s) s'))
      /\ Core.activeSymbols (Core.removeSymbol (Core.addSymbol c s) s')
         = Core.activeSymbols c ∖ {[ toUpperCase s ]}
      /\ (Core.removeSymbol (Core.addSymbol c s) s' = c
          <-> toUpperCase s ∉ Core.activeSymbols c)).
Proof.
  split; [reflexivity|]. split; [reflexivity|].
  split; [cbn; set_solver|]. split; [reflexivity|].
  split; [apply toUpperCase_idempotent|].
  intros Heq.
  pose proof (removeSymbol_addSymbol_symbols c s s' Heq) as Hsymbols.
  split; [unfold Core.addSymbol; rewrite Heq; reflexivity|].
  split; [rewrite Hsymbols; set_solver|].
  split; [exact Hsymbols|].
  split.
  - intros Hback. rewrite Hback in Hsymbols. set_solver.
  - intros Hfresh. destruct c as [strategies symbols running engine].
    unfold Core.removeSymbol, Core.addSymbol. cbn in *. f_equal.
    rewrite <- Heq. set_solver.
Qed.

(** C10 (counterexample).  With EURUSD monitored, as after start,
    addSymbol("eurusd") followed by removeSymbol("EurUsd") does not give
    back the prior set: EURUSD was in it and is gone. *)
Lemma remove_after_add_drops_monitored_symbol :
  let before := Core.addSymbol Core.create "EURUSD" in
  let after := Core.removeSymbol (Core.addSymbol before "eurusd") "EurUsd" in
  ("EURUSD"%string ∈ Core.activeSymbols before)
  /\ ("EURUSD"%string ∉ Core.activeSymbols after)
  /\ after <> before.
Proof.
  cbn zeta.
  assert (Hin : ("EURUSD"%string ∈ Core.activeSymbols (Core.addSymbol Core.create "EURUSD"))).
  { cbn. set_solver. }
  assert (Hout : ("EURUSD"%string ∉ Core.activeSymbols
                    (Core.removeSymbol
                       (Core.addSymbol (Core.addSymbol Core.create "EURUSD") "eurusd")
                       "EurUsd"))).
  { cbn. set_solver. }
  split; [exact Hin|]. split; [exact Hout|].
  intros Heq. rewrite Heq in Hout. contradiction.
Qed.

(** ** The daily loss limit *)

Lemma validateTrade_blocked (rm : RiskManager.t) (feed : Feed.t) (signal : Signal) :
  RiskManager.isTradeBlocked rm = true ->
  RiskManager.validateTrade rm feed signal = (rm, RiskManager.reject TradingBlocked).
Proof.
  intros Hblocked. unfold RiskManager.validateTrade. rewrite Hblocked. reflexivity.
Qed.

Lemma checkDailyLossLimit_blocks (rm : RiskManager.t) (accountInfo : AccountInfo.t) :
  RiskManager.dailyStartBalance rm * RiskParams.maxDailyLoss (RiskManager.riskParams rm) / 100
  <= RiskManager.dailyStartBalance rm - AccountInfo.balance accountInfo ->
  RiskManager.checkDailyLossLimit rm accountInfo
  = (RiskManager.setBlocked rm true,
     ValidationCheck.mk false
       (DailyLossLimitReached
          (RiskManager.dailyStartBalance rm - AccountInfo.balance accountInfo)
          (RiskManager.dailyStartBalance rm
           * RiskParams.maxDailyLoss (RiskManager.riskParams rm) / 100))).
Proof.
  intros Hloss. unfold RiskManager.checkDailyLossLimit.
  apply Qgeb_ge in Hloss. rewrite Hloss. reflexivity.
Qed.

Lemma step_blocked (rm : RiskManager.t) (call : RiskManager.Call) :
  RiskManager.isTradeBlocked rm = true ->
  RiskManager.isReset call = false ->
  RiskManager.isTradeBlocked (fst (RiskManager.step rm call)) = true
  /\ snd (RiskManager.step rm call)
     = if RiskManager.isValidateTrade call
       then Some (RiskManager.reject TradingBlocked) else None.
Proof.
  intros Hblocked Hreset. destruct call as [feed signal|feed|feed|newParams|feed]; cbn.
  - rewrite validateTrade_blocked by assumption. cbn. auto.
  - auto.
  - unfold RiskManager.updateDailyPL. destruct (Feed.getAccountInfo feed); cbn; auto.
  - auto.
  - discriminate.
Qed.

Lemma run_blocked (calls : list RiskManager.Call) :
  forall rm,
    RiskManager.isTradeBlocked rm = true ->
    forallb (fun call => negb (RiskManager.isReset call)) calls = true ->
    RiskManager.isTradeBlocked (fst (RiskManager.run rm calls)) = true
    /\ Forall (fun r => r = RiskManager.reject TradingBlocked) (snd (RiskManager.run rm calls))
    /\ length (snd (RiskManager.run rm calls))
       = length (List.filter RiskManager.isValidateTrade calls).
Proof.
  induction calls as [|call rest IH]; intros rm Hblocked Hcalls; cbn.
  - split; [assumption|]. split; [constructor | reflexivity].
  - cbn in Hcalls. apply andb_true_iff in Hcalls. destruct Hcalls as [Hcall Hrest].
    apply negb_true_iff in Hcall.
    destruct (step_blocked rm call Hblocked Hcall) as [Hb Hr].
    destruct (RiskManager.step rm call) as [rm' result]. cbn in Hb, Hr.
    destruct (IH rm' Hb Hrest) as (Hb' & Hall & Hlen).
    destruct (RiskManager.run rm' rest) as [final results]. cbn in *.
    subst result. destruct (RiskManager.isValidateTrade call); cbn.
    + repeat split; [assumption | constructor; auto | congruence].
    + repeat split; assumption.
Qed.

(** C4.  If the daily loss check of a validateTrade call observes
    dayStartBalance - balance >= dayStartBalance * maxDailyLoss / 100,
    the call is rejected and the manager is blocked; after it, whatever
    calls follow other than resetDailyTracking (validations of any
    signal under any account balance, monitoring, daily P&L updates,
    parameter updates), the manager stays blocked and every validateTrade
    among them returns isValid = false with the reason 'Trading blocked
    due to daily loss limit'; resetDailyTracking clears the flag. *)
Theorem daily_loss_blocks_trading
    (rm : RiskManager.t) (feed : Feed.t) (signal : Signal)
    (accountInfo : AccountInfo.t) (calls : list RiskManager.Call) :
  RiskManager.isTradeBlocked rm = false ->
  Feed.getAccountInfo feed = Some accountInfo ->
  RiskManager.dailyStartBalance rm * RiskParams.maxDailyLoss (RiskManager.riskParams rm) / 100
  <= RiskManager.dailyStartBalance rm - AccountInfo.balance accountInfo ->
  forallb (fun call => negb (RiskManager.isReset call)) calls = true ->
  let first := RiskManager.validateTrade rm feed signal in
  let later := RiskManager.run (fst first) calls in
  RiskManager.isTradeBlocked (fst first) = true
  /\ TradeValidationResult.isValid (snd first) = false
  /\ RiskManager.isTradeBlocked (fst later) = true
  /\ Forall (fun r => r = TradeValidationResult.mk false TradingBlocked None None) (snd later)
  /\ length (snd later) = length (List.filter RiskManager.isValidateTrade calls)
  /\ forall feed', RiskManager.isTradeBlocked (RiskManager.resetDailyTracking (fst later) feed') = false.
Proof.
  intros Hfree Haccount Hloss Hcalls first later.
  assert (Hfirst : RiskManager.isTradeBlocked (fst first) = true
                   /\ TradeValidationResult.isValid (snd first) = false).
  { subst first. unfold RiskManager.validateTrade.
    rewrite Hfree, Haccount, (checkDailyLossLimit_blocks rm accountInfo Hloss).
    cbn. auto. }
  destruct Hfirst as [Hb Hv].
  destruct (run_blocked calls (fst first) Hb Hcalls) as (Hb' & Hall & Hlen).
  repeat split; auto.
Qed.

(** The scenario of the specification: the day starts at 10,000, the
    limit is 6%, the balance is 9,400; afterwards the balance recovers
    to 12,000 and two more signals are validated. *)
Lemma daily_loss_blocks_trading_witness :
  let info := Scenario.eurusdInfo 0.01 5.0 0.01 in
  let calls :=
    [RiskManager.CallValidateTrade (Scenario.feed 12000 info) (Scenario.buySignal 1.12);
     RiskManager.CallUpdateDailyPL (Scenario.feed 12000 info);
     RiskManager.CallValidateTrade (Scenario.feed 12000 info) (Scenario.buySignal 1.105)] in
  let first :=
    RiskManager.validateTrade Scenario.managerAt10000 (Scenario.feed 9400 info)
      (Scenario.buySignal 1.12) in
  let later := RiskManager.run (fst first) calls in
  RiskManager.isTradeBlocked (fst first) = true
  /\ TradeValidationResult.isValid (snd first) = false
  /\ RiskManager.isTradeBlocked (fst later) = true
  /\ Forall (fun r => r = TradeValidationResult.mk false TradingBlocked None None) (snd later)
  /\ length (snd later) = length (List.filter RiskManager.isValidateTrade calls)
  /\ forall feed', RiskManager.isTradeBlocked (RiskManager.resetDailyTracking (fst later) feed') = false.
Proof.
  intros info calls.
  apply (daily_loss_blocks_trading Scenario.managerAt10000 (Scenario.feed 9400 info)
           (Scenario.buySignal 1.12) (Scenario.account 9400) calls).
  - reflexivity.
  - reflexivity.
  - vm_compute. discriminate.
  - reflexivity.
Defined.

(** ** Quotients of distances *)

(** The quotient of two distances is below [m] exactly when the divisor
    is not zero and the inequality holds after multiplying out: with a
    zero divisor the quotient is an infinity or NaN, and not below
    anything. *)
Lemma js_ratio_lt (reward risk m : Q) :
  0 <= reward -> 0 <= risk ->
  js_ltb (js_div (Fin reward) (Fin risk)) (Fin m) = true
  <-> 0 < risk /\ reward < m * risk.
Proof.
  intros Hreward Hrisk. cbn.
  destruct (Qeq_bool risk 0) eqn:Hzero; qbool.
  - split.
    + destruct (Qeq_bool reward 0) eqn:Hr0; [discriminate|].
      destruct (Qltb 0 reward) eqn:Hpos; [discriminate|]. qbool.
      intros _. exfalso. apply Hr0. lra.
    + intros [Hpos _]. lra.
  - cbn. rewrite Qltb_lt.
    assert (Hpos : 0 < risk) by lra.
    assert (Hq : reward == reward / risk * risk) by (field; lra).
    split.
    + intros Hlt. split; [assumption|]. nra.
    + intros [_ Hlt]. apply Qlt_shift_div_r; assumption.
Qed.

Lemma js_ratio_not_lt (reward risk m : Q) :
  0 <= reward -> 0 <= risk ->
  js_ltb (js_div (Fin reward) (Fin risk)) (Fin m) = false
  <-> risk == 0 \/ m * risk <= reward.
Proof.
  intros Hreward Hrisk.
  pose proof (js_ratio_lt reward risk m Hreward Hrisk) as Hlt.
  destruct (js_ltb (js_div (Fin reward) (Fin risk)) (Fin m)).
  - split; [discriminate|]. destruct Hlt as [Hlt _].
    destruct (Hlt eq_refl). intros [Hz | Hle]; lra.
  - split; [|reflexivity]. intros _.
    destruct (Qlt_le_dec 0 risk) as [Hpos | Hnonpos]; [|left; lra].
    destruct (Qlt_le_dec reward (m * risk)) as [Hsmall | Hbig]; [|right; assumption].
    destruct Hlt as [_ Hlt]. discriminate Hlt. auto.
Qed.

(** ** Rounding to the volume step *)

Lemma Qfloor_unique (x : Q) (k : Z) :
  inject_Z k <= x -> x < inject_Z (k + 1) -> Qfloor x = k.
Proof.
  intros Hlow Hhigh.
  pose proof (Qfloor_le x) as Hfl. pose proof (Qlt_floor x) as Hlt.
  assert (H1 : inject_Z (Qfloor x) < inject_Z (k + 1)) by lra.
  assert (H2 : inject_Z k < inject_Z (Qfloor x + 1)) by lra.
  rewrite <- Zlt_Qlt in H1, H2. lia.
Qed.

Lemma Qround_half_up_integer (k : Z) : Qround_half_up (inject_Z k) == inject_Z k.
Proof.
  unfold Qround_half_up.
  rewrite (Qfloor_unique (inject_Z k + (1 # 2)) k); [reflexivity | lra |].
  rewrite inject_Z_plus. change (inject_Z 1) with 1. lra.
Qed.

Lemma Qround_half_up_mono (x y : Q) : x <= y -> Qround_half_up x <= Qround_half_up y.
Proof.
  intros Hle. unfold Qround_half_up. rewrite <- Zle_Qle.
  apply Qfloor_resp_le. lra.
Qed.

Lemma roundToStep_multiple (volumeStep volume : Q) :
  0 < volumeStep -> multipleOfStep volumeStep volume ->
  roundToStep volumeStep volume == volume.
Proof.
  intros Hstep [k Hk]. unfold roundToStep.
  assert (Hq : volume / volumeStep == inject_Z k) by (rewrite Hk; field; lra).
  unfold Qround_half_up. rewrite Hq.
  fold (Qround_half_up (inject_Z k)). rewrite Qround_half_up_integer.
  rewrite Hk. reflexivity.
Qed.

Lemma roundToStep_mono (volumeStep x y : Q) :
  0 < volumeStep -> x <= y -> roundToStep volumeStep x <= roundToStep volumeStep y.
Proof.
  intros Hstep Hle. unfold roundToStep.
  apply Qmult_le_compat_r; [|lra].
  apply Qround_half_up_mono.
  apply Qmult_le_compat_r; [assumption|].
  apply Qlt_le_weak, Qinv_lt_0_compat. assumption.
Qed.

(** Rounding then clamping is clamping then rounding when the bounds are
    whole numbers of steps. *)
Lemma clamp_round_commute (volumeStep volumeMin volumeMax size : Q) :
  0 < volumeStep -> volumeMin <= volumeMax ->
  multipleOfStep volumeStep volumeMin -> multipleOfStep volumeStep volumeMax ->
  clampVolume volumeMin volumeMax (roundToStep volumeStep size)
  == roundToStep volumeStep (clampVolume volumeMin volumeMax size).
Proof.
  intros Hstep Hbounds Hmin Hmax.
  pose proof (roundToStep_multiple _ _ Hstep Hmin) as Rmin.
  pose proof (roundToStep_multiple _ _ Hstep Hmax) as Rmax.
  pose proof (roundToStep_mono volumeStep size volumeMin Hstep) as Mlow.
  pose proof (roundToStep_mono volumeStep volumeMin size Hstep) as Mlow'.
  pose proof (roundToStep_mono volumeStep size volumeMax Hstep) as Mhigh.
  pose proof (roundToStep_mono volumeStep volumeMax size Hstep) as Mhigh'.
  unfold clampVolume.
  repeat match goal with
    | |- context [Qmin ?a ?b] => destruct (Qmin_cases a b) as [[? ->] | [? ->]]
    | |- context [Qmax ?a ?b] => destruct (Qmax_cases a b) as [[? ->] | [? ->]]
    end;
    try specialize (Mlow ltac:(lra)); try specialize (Mlow' ltac:(lra));
    try specialize (Mhigh ltac:(lra)); try specialize (Mhigh' ltac:(lra));
    lra.
Qed.

Lemma roundToStep_wd (volumeStep x y : Q) :
  x == y -> roundToStep volumeStep x == roundToStep volumeStep y.
Proof.
  intros Heq. unfold roundToStep, Qround_half_up.
  assert (Hfloor : Qfloor (x / volumeStep + (1 # 2)) = Qfloor (y / volumeStep + (1 # 2))).
  { apply Qfloor_comp. rewrite Heq. reflexivity. }
  rewrite Hfloor. reflexivity.
Qed.

Lemma clampVolume_wd (volumeMin volumeMax x y : Q) :
  x == y -> clampVolume volumeMin volumeMax x == clampVolume volumeMin volumeMax y.
Proof.
  intros Heq. unfold clampVolume.
  repeat match goal with
    | |- context [Qmin ?a ?b] => destruct (Qmin_cases a b) as [[? ->] | [? ->]]
    | |- context [Qmax ?a ?b] => destruct (Qmax_cases a b) as [[? ->] | [? ->]]
    end; lra.
Qed.

(** ** Validation of a trade *)

(** What a successful validateTrade went through. *)
Lemma validateTrade_valid (rm : RiskManager.t) (feed : Feed.t) (signal : Signal) :
  TradeValidationResult.isValid (snd (RiskManager.validateTrade rm feed signal)) = true ->
  exists accountInfo,
    Feed.getAccountInfo feed = Some accountInfo
    /\ RiskManager.isTradeBlocked rm = false
    /\ js_leb (RiskManager.calculatePositionSize rm feed signal accountInfo) (Fin 0) = false
    /\ RiskManager.validateTrade rm feed signal
       = (rm,
          TradeValidationResult.mk true TradeValidated
            (Some (StrategySignal.mk (StrategySignal.symbol signal)
                     (StrategySignal.action signal)
                     (StrategySignal.confidence signal)
                     (StrategySignal.entry signal)
                     (RiskManager.adjustStopLoss rm signal)
                     (RiskManager.adjustTakeProfit rm signal)
                     (StrategySignal.strategy signal)
                     (StrategySignal.timestamp signal)))
            (Some (RiskManager.calculatePositionSize rm feed signal accountInfo))).
Proof.
  unfold RiskManager.validateTrade.
  destruct (RiskManager.isTradeBlocked rm) eqn:Hblocked; [discriminate|].
  destruct (Feed.getAccountInfo feed) as [accountInfo|]; [|discriminate].
  unfold RiskManager.checkDailyLossLimit.
  destruct (Qgeb _ _); [discriminate|]. cbn [negb ValidationCheck.passed].
  destruct (ValidationCheck.passed (RiskManager.checkMaxPositions rm feed)); [|discriminate].
  cbn [negb].
  destruct (ValidationCheck.passed (RiskManager.checkSpread rm feed _)); [|discriminate].
  cbn [negb].
  destruct (js_leb (RiskManager.calculatePositionSize rm feed signal accountInfo) (Fin 0))
    eqn:Hsize; [discriminate|].
  intros _. exists accountInfo. auto.
Qed.

(** A size that is zero or negative is rejected. *)
Lemma validateTrade_rejects_size (rm : RiskManager.t) (feed : Feed.t) (signal : Signal)
    (accountInfo : AccountInfo.t) :
  Feed.getAccountInfo feed = Some accountInfo ->
  js_leb (RiskManager.calculatePositionSize rm feed signal accountInfo) (Fin 0) = true ->
  TradeValidationResult.isValid (snd (RiskManager.validateTrade rm feed signal)) = false.
Proof.
  intros Haccount Hsize.
  destruct (TradeValidationResult.isValid (snd (RiskManager.validateTrade rm feed signal)))
    eqn:Hvalid; [|reflexivity].
  apply validateTrade_valid in Hvalid.
  destruct Hvalid as (accountInfo' & Haccount' & _ & Hsize' & _).
  congruence.
Qed.

Lemma Qdiv_eq_mul (a b m : Q) : ~ b == 0 -> a == m * b -> a / b == m.
Proof. intros Hb Ha. rewrite Ha. field. assumption. Qed.

Lemma ratio_nonzero (a b : Q) : ~ a == 0 -> ~ b == 0 -> ~ a / b * 1 == 0.
Proof.
  intros Ha Hb Hzero. apply Ha.
  assert (Heq : a == a / b * 1 * b) by (field; assumption).
  rewrite Heq, Hzero. ring.
Qed.

Lemma Qabs_nonzero (x y : Q) : ~ x == y -> ~ Qabs (x - y) == 0.
Proof.
  intros Hne Habs. apply Hne.
  destruct (Qabs_cases (x - y)) as [[_ Heq] | [_ Heq]]; lra.
Qed.

(** The size computed when no division leaves the finite numbers. *)
Lemma calculatePositionSize_finite (rm : RiskManager.t) (feed : Feed.t) (signal : Signal)
    (accountInfo : AccountInfo.t) (info : SymbolInfo.t) :
  Feed.getSymbolInfo feed (StrategySignal.symbol signal) = Some info ->
  ~ SymbolInfo.point info == 0 ->
  ~ StrategySignal.entry signal == StrategySignal.stopLoss signal ->
  ~ SymbolInfo.volumeStep info == 0 ->
  RiskManager.calculatePositionSize rm feed signal accountInfo
  = Fin (Qmax (SymbolInfo.volumeMin info)
           (Qmin (SymbolInfo.volumeMax info)
              (Qround_half_up
                 (AccountInfo.equity accountInfo
                  * RiskParams.maxRiskPerTrade (RiskManager.riskParams rm) / 100
                  / (Qabs (StrategySignal.entry signal - StrategySignal.stopLoss signal)
                     / SymbolInfo.point info * 1)
                  / SymbolInfo.volumeStep info)
               * SymbolInfo.volumeStep info))).
Proof.
  intros Hinfo Hpoint Hstop Hstep.
  unfold RiskManager.calculatePositionSize. rewrite Hinfo.
  apply Qeq_bool_false in Hpoint. apply Qeq_bool_false in Hstep.
  pose proof (ratio_nonzero _ _ (Qabs_nonzero _ _ Hstop)
                (proj1 (Qeq_bool_false _ _) Hpoint)) as Hdist.
  apply Qeq_bool_false in Hdist.
  cbn [js_div js_mul js_round js_min js_max].
  rewrite Hpoint. cbn [js_div js_mul js_round js_min js_max].
  rewrite Hdist. cbn [js_div js_mul js_round js_min js_max].
  rewrite Hstep. reflexivity.
Qed.

(** C6 (amended).  With the symbol known and point, stop distance and
    volume step not zero, the position size is riskAmount divided by the
    stop distance in points, with riskAmount = equity * maxRiskPerTrade
    / 100 and the stop distance |entry - stopLoss| / point; it is first
    rounded to the nearest multiple of the volume step and then clamped
    into [volumeMin, volumeMax].  This is the size clamped and then
    rounded whenever the two bounds are whole numbers of steps.  A size
    that is zero or negative makes validateTrade return isValid =
    false. *)
Theorem position_size_rounded_then_clamped
    (rm : RiskManager.t) (feed : Feed.t) (signal : Signal)
    (accountInfo : AccountInfo.t) (info : SymbolInfo.t) :
  Feed.getSymbolInfo feed (StrategySignal.symbol signal) = Some info ->
  ~ SymbolInfo.point info == 0 ->
  ~ StrategySignal.entry signal == StrategySignal.stopLoss signal ->
  ~ SymbolInfo.volumeStep info == 0 ->
  let riskAmount :=
    AccountInfo.equity accountInfo
    * RiskParams.maxRiskPerTrade (RiskManager.riskParams rm) / 100 in
  let stopDistance :=
    Qabs (StrategySignal.entry signal - StrategySignal.stopLoss signal)
    / SymbolInfo.point info in
  let volumeMin := SymbolInfo.volumeMin info in
  let volumeMax := SymbolInfo.volumeMax info in
  let volumeStep := SymbolInfo.volumeStep info in
  exists size,
    RiskManager.calculatePositionSize rm feed signal accountInfo = Fin size
    /\ size == clampVolume volumeMin volumeMax
                 (roundToStep volumeStep (riskAmount / stopDistance))
    /\ (0 < volumeStep -> volumeMin <= volumeMax ->
        multipleOfStep volumeStep volumeMin -> multipleOfStep volumeStep volumeMax ->
        size == specPositionSize riskAmount stopDistance volumeMin volumeMax volumeStep)
    /\ (Feed.getAccountInfo feed = Some accountInfo -> size <= 0 ->
        TradeValidationResult.isValid (snd (RiskManager.validateTrade rm feed signal)) = false).
Proof.
  intros Hinfo Hpoint Hstop Hstep riskAmount stopDistance volumeMin volumeMax volumeStep.
  pose proof (calculatePositionSize_finite rm feed signal accountInfo info
                Hinfo Hpoint Hstop Hstep) as Hsize.
  eexists. split; [exact Hsize|].
  fold riskAmount volumeMin volumeMax volumeStep.
  assert (Hcode :
           Qmax volumeMin
             (Qmin volumeMax
                (Qround_half_up
                   (riskAmount
                    / (Qabs (StrategySignal.entry signal - StrategySignal.stopLoss signal)
                       / SymbolInfo.point info * 1) / volumeStep) * volumeStep))
           == clampVolume volumeMin volumeMax
                (roundToStep volumeStep (riskAmount / stopDistance))).
  { apply clampVolume_wd. apply roundToStep_wd.
    subst stopDistance. field. split; [assumption|].
    apply Qabs_nonzero. assumption. }
  split; [exact Hcode|]. split.
  - intros Hpos Hbounds Hmin Hmax. rewrite Hcode. unfold specPositionSize.
    apply clamp_round_commute; assumption.
  - intros Haccount Hneg.
    apply (validateTrade_rejects_size rm feed signal accountInfo Haccount).
    rewrite Hsize. cbn. apply Qle_bool_iff. exact Hneg.
Qed.

(** An account of 9,900 at 2% risk, a stop 500 points away, volumes
    from 0.01 to 5.0 in steps of 0.01: the size is 0.40 under either
    order of clamping and rounding. *)
Lemma position_size_rounded_then_clamped_witness :
  exists size,
    RiskManager.calculatePositionSize Scenario.managerAt10000
      (Scenario.feed 9900 (Scenario.eurusdInfo 0.01 5.0 0.01))
      (Scenario.buySignal 1.105) (Scenario.account 9900)
    = Fin size
    /\ size == specPositionSize (9900 * 2.0 / 100) (Qabs (1.1000 - 1.0950) / 0.00001)
                 0.01 5.0 0.01
    /\ size == 0.40.
Proof.
  destruct (position_size_rounded_then_clamped Scenario.managerAt10000
              (Scenario.feed 9900 (Scenario.eurusdInfo 0.01 5.0 0.01))
              (Scenario.buySignal 1.105) (Scenario.account 9900)
              (Scenario.eurusdInfo 0.01 5.0 0.01))
    as (size & Hsize & Hcode & Hspec & Hreject).
  - reflexivity.
  - cbn. lra.
  - cbn. lra.
  - cbn. lra.
  - exists size. split; [exact Hsize|]. split.
    + apply Hspec.
      * cbn. lra.
      * cbn. lra.
      * exists 1%Z. vm_compute. reflexivity.
      * exists 500%Z. vm_compute. reflexivity.
    + vm_compute in Hsize. inversion Hsize. reflexivity.
Defined.

(** C6 (counterexample).  Volumes from 0.25 in steps of 0.1, an account
    of 1,000 at 2% risk and a stop 500 points away: the quotient is 0.04;
    the source rounds it to 0 and clamps to 0.25, which is not a multiple
    of the step, while clamping and then rounding gives 0.3 (and gives 10
    if the stop distance is taken as the price difference 0.005 instead
    of 500 points). *)
Lemma position_size_rounds_before_clamping :
  RiskManager.calculatePositionSize Scenario.managerAt10000
    (Scenario.feed 1000 (Scenario.eurusdInfo 0.25 10 0.1))
    (Scenario.buySignal 1.105) (Scenario.account 1000)
  = Fin 0.25
  /\ specPositionSize (1000 * 2.0 / 100) (Qabs (1.1000 - 1.0950) / 0.00001) 0.25 10 0.1
     == 0.3
  /\ specPositionSize (1000 * 2.0 / 100) (Qabs (1.1000 - 1.0950)) 0.25 10 0.1
     == 10
  /\ ~ 0.25 == 0.3
  /\ ~ 0.25 == 10.
Proof.
  split; [vm_compute; reflexivity|]. split; [vm_compute; reflexivity|].
  split; [vm_compute; reflexivity|].
  split; intros Heq; vm_compute in Heq; discriminate.
Qed.

(** ** The target adjustment *)

(** C7 (amended).  A signal that validateTrade accepts comes back with
    its stop loss, entry and action unchanged, and with the target that
    adjustTakeProfit computes.  In whatever arithmetic it is run, that
    target is entry + risk * minRiskReward for a BUY and entry - risk *
    minRiskReward for a SELL, with risk = |entry - stopLoss|, when the
    quotient |takeProfit - entry| / |entry - stopLoss| tests below
    minRiskReward, and the old target otherwise.  In exact arithmetic the
    moved target lies beyond the old one in the direction of the signal
    and the quotient of the adjusted signal equals minRiskReward; in the
    binary64 arithmetic of the source it equals minRiskReward up to
    rounding only, and can be below it. *)
Theorem take_profit_meets_min_risk_reward
    (rm : RiskManager.t) (feed : Feed.t) (signal : Signal) :
  TradeValidationResult.isValid (snd (RiskManager.validateTrade rm feed signal)) = true ->
  let risk := Qabs (StrategySignal.entry signal - StrategySignal.stopLoss signal) in
  let reward := Qabs (StrategySignal.takeProfit signal - StrategySignal.entry signal) in
  let minRiskReward := RiskParams.minRiskReward (RiskManager.riskParams rm) in
  (exists adjusted,
      TradeValidationResult.adjustedSignal (snd (RiskManager.validateTrade rm feed signal))
      = Some adjusted
      /\ StrategySignal.stopLoss adjusted = StrategySignal.stopLoss signal
      /\ StrategySignal.entry adjusted = StrategySignal.entry signal
      /\ StrategySignal.action adjusted = StrategySignal.action signal
      /\ StrategySignal.takeProfit adjusted = adjustTakeProfitOver minRiskReward signal
      /\ (js_ltb (js_div (Fin reward) (Fin risk)) (Fin minRiskReward) = true ->
          ~ risk == 0
          /\ Qabs (StrategySignal.takeProfit adjusted - StrategySignal.entry adjusted)
             / Qabs (StrategySignal.entry adjusted - StrategySignal.stopLoss adjusted)
             == minRiskReward
          /\ (StrategySignal.action signal = BUY ->
              StrategySignal.takeProfit adjusted
              = StrategySignal.entry signal + risk * minRiskReward
              /\ StrategySignal.takeProfit signal < StrategySignal.takeProfit adjusted)
          /\ (StrategySignal.action signal = SELL ->
              StrategySignal.takeProfit adjusted
              = StrategySignal.entry signal - risk * minRiskReward
              /\ StrategySignal.takeProfit adjusted < StrategySignal.takeProfit signal))
      /\ (js_ltb (js_div (Fin reward) (Fin risk)) (Fin minRiskReward) = false ->
          StrategySignal.takeProfit adjusted = StrategySignal.takeProfit signal))
  /\ forall (N : Type) (number : JSNumber N) (minimum : N) (candidate : StrategySignal.t N),
       let distance :=
         nabs (nsub (StrategySignal.entry candidate) (StrategySignal.stopLoss candidate)) in
       let gain :=
         nabs (nsub (StrategySignal.takeProfit candidate) (StrategySignal.entry candidate)) in
       (nquotient_ltb gain distance minimum = true ->
        adjustTakeProfitOver minimum candidate
        = match StrategySignal.action candidate with
          | BUY => nadd (StrategySignal.entry candidate) (nmul distance minimum)
          | _ => nsub (StrategySignal.entry candidate) (nmul distance minimum)
          end)
       /\ (nquotient_ltb gain distance minimum = false ->
           adjustTakeProfitOver minimum candidate = StrategySignal.takeProfit candidate).
Proof.
  intros Hvalid risk reward minRiskReward.
  split.
  2:{ intros N number minimum candidate distance gain. subst distance gain.
      unfold adjustTakeProfitOver.
      split; intros Htest; rewrite Htest; reflexivity. }
  destruct (validateTrade_valid rm feed signal Hvalid)
    as (accountInfo & _ & _ & _ & Hresult).
  rewrite Hresult. cbn [snd TradeValidationResult.adjustedSignal].
  eexists. split; [reflexivity|].
  cbn [StrategySignal.stopLoss StrategySignal.entry StrategySignal.action
       StrategySignal.takeProfit].
  split; [reflexivity|]. split; [reflexivity|]. split; [reflexivity|].
  split; [reflexivity|].
  unfold RiskManager.adjustTakeProfit, adjustTakeProfitOver, RiskManager.adjustStopLoss.
  cbn [nadd nsub nmul nabs nquotient_ltb Q_number].
  fold risk reward minRiskReward.
  split.
  - intros Hlow. rewrite Hlow.
    apply js_ratio_lt in Hlow; [|apply Qabs_nonneg | apply Qabs_nonneg].
    destruct Hlow as [Hrisk Hlow].
    assert (Hreward : 0 <= reward) by apply Qabs_nonneg.
    assert (Hmin : 0 < risk * minRiskReward) by lra.
    assert (Htp : StrategySignal.takeProfit signal - StrategySignal.entry signal <= reward
                  /\ StrategySignal.entry signal - StrategySignal.takeProfit signal <= reward).
    { subst reward.
      destruct (Qabs_cases (StrategySignal.takeProfit signal - StrategySignal.entry signal))
        as [[? ?] | [? ?]]; lra. }
    split; [lra|]. split.
    + apply Qdiv_eq_mul; [fold risk; lra|]. fold risk.
      destruct (StrategySignal.action signal).
      * rewrite Qabs_pos; lra.
      * rewrite Qabs_neg; lra.
      * rewrite Qabs_neg; lra.
    + split; intros Haction; rewrite Haction; split; try reflexivity; lra.
  - intros Hnot. rewrite Hnot. reflexivity.
Qed.

(** A BUY at 1.1000 with the stop at 1.0950 and the target at 1.1050:
    the quotient is 1, below 1.5; the stop stays and the target moves up
    to 1.1000 + 0.0050 * 1.5. *)
Lemma take_profit_meets_min_risk_reward_witness :
  exists adjusted,
    TradeValidationResult.adjustedSignal
      (snd (RiskManager.validateTrade Scenario.managerAt10000
              (Scenario.feed 9900 (Scenario.eurusdInfo 0.01 5.0 0.01))
              (Scenario.buySignal 1.105)))
    = Some adjusted
    /\ StrategySignal.stopLoss adjusted = 1.0950
    /\ StrategySignal.takeProfit adjusted = 1.1000 + Qabs (1.1000 - 1.0950) * 1.5
    /\ 1.105 < StrategySignal.takeProfit adjusted.
Proof.
  destruct (take_profit_meets_min_risk_reward Scenario.managerAt10000
              (Scenario.feed 9900 (Scenario.eurusdInfo 0.01 5.0 0.01))
              (Scenario.buySignal 1.105))
    as [(adjusted & Hadjusted & Hstop & Hentry & Haction & Htarget & Hlow & Hkeep) _].
  - vm_compute. reflexivity.
  - exists adjusted. split; [exact Hadjusted|]. split; [exact Hstop|].
    destruct Hlow as (Hrisk & Hratio & Hbuy & Hsell); [vm_compute; reflexivity|].
    destruct (Hbuy eq_refl) as [Hmoved Habove]. split; [exact Hmoved | exact Habove].
Defined.

(** C7 (counterexample).  The same lines on binary64.  For the BUY at
    1.1000 with the stop at 1.0950 the moved target is
    1.1075000000000004, not 1.1075, and the quotient of the adjusted
    signal is 1.5000000000000222, not 1.5.  For a BUY at 1 with the stop
    at 0.9985 and the target at 1.0001 the moved target is
    1.0022499999999999 and the quotient of the adjusted signal is
    1.4999999999999629: it tests below minRiskReward again. *)
Lemma adjusted_quotient_inexact_binary64 :
  let minimum : float := lit 1.5 in
  let quotient (signal : StrategySignal.t float) (target : float) : float :=
    PrimFloat.div
      (nabs (nsub target (StrategySignal.entry signal)))
      (nabs (nsub (StrategySignal.entry signal) (StrategySignal.stopLoss signal))) in
  let first : StrategySignal.t float := boughtWith 1.1000 1.0950 1.105 in
  let second : StrategySignal.t float := boughtWith 1 0.9985 1.0001 in
  let movedFirst := adjustTakeProfitOver minimum first in
  let movedSecond := adjustTakeProfitOver minimum second in
  nquotient_ltb (nabs (nsub (StrategySignal.takeProfit first) (StrategySignal.entry first)))
    (nabs (nsub (StrategySignal.entry first) (StrategySignal.stopLoss first))) minimum = true
  /\ PrimFloat.eqb movedFirst (lit 1.1075) = false
  /\ PrimFloat.ltb minimum (quotient first movedFirst) = true
  /\ nquotient_ltb (nabs (nsub (StrategySignal.takeProfit second) (StrategySignal.entry second)))
       (nabs (nsub (StrategySignal.entry second) (StrategySignal.stopLoss second))) minimum
     = true
  /\ PrimFloat.ltb (quotient second movedSecond) minimum = true
  /\ nquotient_ltb
       (nabs (nsub movedSecond (StrategySignal.entry second)))
       (nabs (nsub (StrategySignal.entry second) (StrategySignal.stopLoss second))) minimum
     = true
  /\ adjustTakeProfitOver (N := Q) 1.5 (boughtWith 1 0.9985 1.0001) == 1.00225.
Proof.
  cbn zeta. repeat split; vm_compute; reflexivity.
Qed.

(** ** The break-even move *)

Lemma shouldMoveToBreakEven_spec (position : Position.t) :
  RiskManager.shouldMoveToBreakEven position = true
  <-> Qabs (Position.openPrice position - Position.stopLoss position) * 1.5
      <= Qabs (Position.currentPrice position - Position.openPrice position)
      /\ ~ Position.stopLoss position == Position.openPrice position.
Proof.
  unfold RiskManager.shouldMoveToBreakEven.
  rewrite andb_true_iff, negb_true_iff, Qgeb_ge, Qeq_bool_false. reflexivity.
Qed.

(** C9 (the source at the failing input).  shouldMoveToBreakEven
    compares the absolute price move with 1.5 times the stop distance.
    For the position of the specification (bought at 1.1000, stop 1.0950,
    price 1.1080) it holds, the request built by modifyPosition puts the
    stop at 1.1000, and once the gateway has applied it the test no
    longer holds.  For the same position at 1.0920, 80 pips in loss, the
    test holds as well: the stop of a losing position is moved to the
    entry. *)
Theorem break_even_on_absolute_move :
  (forall position,
      RiskManager.shouldMoveToBreakEven position = true
      <-> Qabs (Position.openPrice position - Position.stopLoss position) * 1.5
          <= Qabs (Position.currentPrice position - Position.openPrice position)
          /\ ~ Position.stopLoss position == Position.openPrice position)
  /\ RiskManager.shouldMoveToBreakEven Scenario.winningPosition = true
  /\ RiskManager.moveToBreakEven Scenario.winningPosition = ModifyPosition 1 1.1000 1.1150
  /\ (exists request,
         MT5Trading.modifyPosition [Scenario.winningPosition] 1 1.1000 1.1150 = Some request
         /\ OrderRequest.stopLoss request = 1.1000
         /\ RiskManager.shouldMoveToBreakEven
              (MT5Trading.applyRequest request Scenario.winningPosition) = false)
  /\ Position.profit Scenario.losingPosition < 0
  /\ Position.currentPrice Scenario.losingPosition < Position.openPrice Scenario.losingPosition
  /\ RiskManager.shouldMoveToBreakEven Scenario.losingPosition = true
  /\ RiskManager.applyPositionRiskManagement Scenario.managerAt10000 Scenario.losingPosition
     = [ModifyPosition 1 1.1000 1.1150].
Proof.
  split; [exact shouldMoveToBreakEven_spec|].
  split; [vm_compute; reflexivity|]. split; [reflexivity|].
  split.
  { eexists. split; [reflexivity|]. split; [reflexivity|]. vm_compute. reflexivity. }
  split; [vm_compute; reflexivity|]. split; [vm_compute; reflexivity|].
  split; vm_compute; reflexivity.
Qed.

(** ** The loops of the signal generator *)

Lemma checkOrderBlockEntry_find (name : string) (blocks : list OrderBlock.t) (price : Q) :
  SMC.checkOrderBlockEntry name blocks price
  = option_map (Match.blockCandidate name price) (List.find (Match.blockMatches price) blocks).
Proof.
  induction blocks as [|b rest IH]; cbn [SMC.checkOrderBlockEntry List.find option_map].
  - reflexivity.
  - unfold Match.blockMatches at 1, Match.blockCandidate at 1.
    destruct b as [type high low index strength tested].
    cbn [OrderBlock.tested OrderBlock.type OrderBlock.high OrderBlock.low
         OrderBlock.strength].
    destruct tested; cbn [negb andb]; [exact IH|].
    destruct (Qgeb price _ && Qle_bool price _); destruct type;
      cbn [option_map]; auto.
Qed.

Lemma liquidityGrab_find (name : string) (zones : list LiquidityZone.t) (price : Q)
    (lastBar : OHLC.t) :
  SMC.liquidityGrab name zones price lastBar
  = option_map (Match.zoneCandidate name price) (List.find (Match.zoneMatches price lastBar) zones).
Proof.
  induction zones as [|z rest IH]; cbn [SMC.liquidityGrab List.find option_map].
  - reflexivity.
  - unfold Match.zoneMatches at 1, Match.zoneCandidate at 1.
    destruct z as [type level strength touches].
    cbn [LiquidityZone.type LiquidityZone.level LiquidityZone.strength].
    destruct type.
    + destruct (Qltb price _ && Qgtb _ _); cbn [option_map]; auto.
    + destruct (Qgtb price _ && Qltb _ _); cbn [option_map]; auto.
Qed.

Lemma checkFairValueGapFill_find (name : string) (gaps : list FairValueGap.t) (price : Q) :
  SMC.checkFairValueGapFill name gaps price
  = option_map (Match.gapCandidate name price) (List.find (Match.gapMatches price) gaps).
Proof.
  induction gaps as [|g rest IH]; cbn [SMC.checkFairValueGapFill List.find option_map].
  - reflexivity.
  - unfold Match.gapMatches at 1, Match.gapCandidate at 1.
    destruct g as [type top bottom index filled].
    cbn [FairValueGap.filled FairValueGap.type FairValueGap.top FairValueGap.bottom].
    destruct filled; cbn [negb andb]; [exact IH|].
    destruct (Qgeb price _ && Qle_bool price _); destruct type;
      cbn [option_map]; auto.
Qed.

(** On a window of 50 bars or more the ten most recent bars are ten, and
    the last of them is the last bar of the window. *)
Lemma checkLiquidityGrabReversal_find (name : string) (zones : list LiquidityZone.t)
    (price : Q) (ohlc : list OHLC.t) :
  (50 <= length ohlc)%nat ->
  SMC.checkLiquidityGrabReversal name zones price ohlc
  = option_map (Match.zoneCandidate name price)
      (List.find (Match.zoneMatches price (SMC.bar ohlc (length ohlc - 1))) zones).
Proof.
  intros Hlen. unfold SMC.checkLiquidityGrabReversal, SMC.recentBars.
  rewrite length_drop.
  replace (length ohlc - (length ohlc - 10))%nat with 10%nat by lia.
  cbn [Nat.ltb Nat.leb]. rewrite liquidityGrab_find.
  unfold SMC.bar at 1. rewrite nth_skipn.
  replace (length ohlc - 10 + (10 - 1))%nat with (length ohlc - 1)%nat by lia.
  reflexivity.
Qed.

Lemma orElse_emitted (found : option Signal) (symbol name : string) (now : Z)
    (rest : option Signal) :
  SMC.orElse found symbol name now rest
  = match Match.emitted found symbol name now with
    | Some signal => Some signal
    | None => rest
    end.
Proof.
  unfold Match.emitted, SMC.orElse. destruct found as [c|]; [|reflexivity].
  destruct (Base.validateSignal _); reflexivity.
Qed.

Lemma emitted_valid (found : option Signal) (symbol name : string) (now : Z) (signal : Signal) :
  Match.emitted found symbol name now = Some signal ->
  exists c, found = Some c /\ signal = SMC.stamp c symbol name now
            /\ Base.validateSignal signal = true.
Proof.
  unfold Match.emitted, SMC.orElse. destruct found as [c|]; [|discriminate].
  destruct (Base.validateSignal (SMC.stamp c symbol name now)) eqn:Hvalid; [|discriminate].
  intros Heq. inversion Heq; subst. exists c. auto.
Qed.

(** analyze on an active strategy and a full window: the categories in
    their order, the first one that emits wins. *)
Lemma analyze_cascade (s : SMC.t) (symbol : string) (ohlc : list OHLC.t)
    (marketData : MarketData.t) (now : Z) :
  SMC.isActive s = true -> (50 <= length ohlc)%nat ->
  let price := MarketData.bid marketData in
  let name := SMC.name s in
  let lastBar := SMC.bar ohlc (length ohlc - 1) in
  let fromBlocks :=
    Match.emitted
      (option_map (Match.blockCandidate name price)
         (List.find (Match.blockMatches price) (SMC.updateOrderBlocks ohlc)))
      symbol name now in
  let fromZones :=
    Match.emitted
      (option_map (Match.zoneCandidate name price)
         (List.find (Match.zoneMatches price lastBar) (SMC.updateLiquidityZones ohlc)))
      symbol name now in
  let fromGaps :=
    Match.emitted
      (option_map (Match.gapCandidate name price)
         (List.find (Match.gapMatches price) (SMC.updateFairValueGaps ohlc)))
      symbol name now in
  SMC.analyze s symbol ohlc marketData now
  = (SMC.updateStructures s ohlc,
     match fromBlocks with
     | Some signal => Some signal
     | None =>
         match fromZones with
         | Some signal => Some signal
         | None => fromGaps
         end
     end).
Proof.
  intros Hactive Hlen price name lastBar fromBlocks fromZones fromGaps.
  unfold SMC.analyze. rewrite Hactive.
  assert (Hlong : (length ohlc <? 50)%nat = false) by (apply Nat.ltb_ge; exact Hlen).
  rewrite Hlong. cbn [negb orb].
  cbn [SMC.name SMC.orderBlocks SMC.liquidityZones SMC.fairValueGaps SMC.updateStructures].
  rewrite !orElse_emitted.
  rewrite checkOrderBlockEntry_find, checkFairValueGapFill_find.
  rewrite (checkLiquidityGrabReversal_find _ _ _ _ Hlen).
  fold price name lastBar. fold fromBlocks fromZones fromGaps.
  destruct fromBlocks; [reflexivity|]. destruct fromZones; [reflexivity|].
  destruct fromGaps; reflexivity.
Qed.

(** ** One signal per strategy and cycle *)

Lemma collectSignals_length (strategies : list (string * SMC.t)) (symbol : string)
    (ohlc : list OHLC.t) (marketData : MarketData.t) (now : Z) :
  (length (snd (Core.collectSignals strategies symbol ohlc marketData now))
   <= length (List.filter (fun entry => SMC.isActive (snd entry)) strategies))%nat.
Proof.
  induction strategies as [|[key strategy] rest IH]; cbn [Core.collectSignals].
  - cbn. lia.
  - destruct (Core.collectSignals rest symbol ohlc marketData now) as [rest' signals].
    cbn [snd] in IH. cbn [List.filter snd].
    destruct (SMC.isActive strategy); cbn [negb].
    + destruct (SMC.analyze strategy symbol ohlc marketData now) as [strategy' [signal|]];
        cbn [snd length]; lia.
    + cbn [snd]. exact IH.
Qed.

(** C5 (amended).  In one cycle an active strategy returns at most one
    signal.  Within a category the first match wins: the first untested
    order block around the price, the first liquidity zone the price has
    broken with the last bar closing back, the first unfilled gap that
    contains the price.  The categories are tried in the order order
    block, liquidity grab, fair-value gap, and the first category whose
    first match passes validateSignal supplies the signal; the
    categories after it are not consulted.  So the orchestrator collects
    at most one candidate per active strategy. *)
Theorem one_signal_per_strategy_and_cycle
    (s : SMC.t) (symbol : string) (ohlc : list OHLC.t)
    (marketData : MarketData.t) (now : Z) :
  SMC.isActive s = true -> (50 <= length ohlc)%nat ->
  let price := MarketData.bid marketData in
  let name := SMC.name s in
  let lastBar := SMC.bar ohlc (length ohlc - 1) in
  let fromBlocks :=
    Match.emitted
      (option_map (Match.blockCandidate name price)
         (List.find (Match.blockMatches price) (SMC.updateOrderBlocks ohlc)))
      symbol name now in
  let fromZones :=
    Match.emitted
      (option_map (Match.zoneCandidate name price)
         (List.find (Match.zoneMatches price lastBar) (SMC.updateLiquidityZones ohlc)))
      symbol name now in
  let fromGaps :=
    Match.emitted
      (option_map (Match.gapCandidate name price)
         (List.find (Match.gapMatches price) (SMC.updateFairValueGaps ohlc)))
      symbol name now in
  snd (SMC.analyze s symbol ohlc marketData now)
  = match fromBlocks with
    | Some signal => Some signal
    | None =>
        match fromZones with
        | Some signal => Some signal
        | None => fromGaps
        end
    end
  /\ forall strategies,
      (length (snd (Core.collectSignals strategies symbol ohlc marketData now))
       <= length (List.filter (fun entry => SMC.isActive (snd entry)) strategies))%nat.
Proof.
  intros Hactive Hlen price name lastBar fromBlocks fromZones fromGaps.
  split.
  - rewrite (analyze_cascade s symbol ohlc marketData now Hactive Hlen). reflexivity.
  - intros strategies. apply collectSignals_length.
Qed.

(** On the window with an order block and a gap, at a price inside
    both, the order block supplies the signal. *)
Lemma one_signal_per_strategy_and_cycle_witness :
  snd (SMC.analyze Scenario.activeStrategy "EURUSD" Scenario.blockAndGap
         (Scenario.tick 102.5) 7)
  = Match.emitted
      (option_map (Match.blockCandidate "SMC (Smart Money)" 102.5)
         (List.find (Match.blockMatches 102.5)
            (SMC.updateOrderBlocks Scenario.blockAndGap)))
      "EURUSD" "SMC (Smart Money)" 7.
Proof.
  destruct (one_signal_per_strategy_and_cycle Scenario.activeStrategy "EURUSD"
              Scenario.blockAndGap (Scenario.tick 102.5) 7) as [Hcascade _].
  - reflexivity.
  - cbn. lia.
  - rewrite Hcascade. vm_compute. reflexivity.
Defined.

(** C5 (counterexample).  On that window, at 102.5, the order-block
    category and the fair-value-gap category each have a first match that
    passes validateSignal; the cycle of the orchestrator, with its one
    strategy active, collects one candidate, the order-block signal. *)
Lemma two_valid_matches_one_candidate :
  let name := "SMC (Smart Money)"%string in
  let fromBlocks :=
    Match.emitted
      (SMC.checkOrderBlockEntry name (SMC.updateOrderBlocks Scenario.blockAndGap) 102.5)
      "EURUSD" name 7 in
  let fromGaps :=
    Match.emitted
      (SMC.checkFairValueGapFill name (SMC.updateFairValueGaps Scenario.blockAndGap) 102.5)
      "EURUSD" name 7 in
  let collected :=
    snd (Core.collectSignals [("SMC"%string, Scenario.activeStrategy)] "EURUSD"
           Scenario.blockAndGap (Scenario.tick 102.5) 7) in
  option_map StrategySignal.action fromBlocks = Some BUY
  /\ option_map StrategySignal.stopLoss fromBlocks = Some 94.8
  /\ option_map StrategySignal.action fromGaps = Some BUY
  /\ option_map StrategySignal.stopLoss fromGaps = Some 101.5
  /\ length collected = 1%nat
  /\ map StrategySignal.stopLoss collected = [94.8].
Proof.
  cbn zeta. repeat split; vm_compute; reflexivity.
Qed.

(** ** The structures of a window *)

Lemma In_take {A : Type} (x : A) (n : nat) (l : list A) : In x (take n l) -> In x l.
Proof.
  intros Hin. rewrite <- (firstn_skipn n l). apply in_or_app. left. exact Hin.
Qed.

Lemma In_insertByStrength (x y : OrderBlock.t) (sorted : list OrderBlock.t) :
  In y (SMC.insertByStrength x sorted) -> y = x \/ In y sorted.
Proof.
  induction sorted as [|z rest IH]; cbn [SMC.insertByStrength].
  - intros [Heq | []]. left. congruence.
  - destruct (Qltb _ _).
    + intros [Heq | Hin].
      * right. left. exact Heq.
      * destruct (IH Hin) as [Hx | Hrest]; [left | right; right]; assumption.
    + intros [Heq | Hin]; [left; congruence | right; exact Hin].
Qed.

Lemma In_sortByStrength (y : OrderBlock.t) (blocks : list OrderBlock.t) :
  In y (SMC.sortByStrength blocks) -> In y blocks.
Proof.
  induction blocks as [|x rest IH]; cbn [SMC.sortByStrength fold_right].
  - intros [].
  - intros Hin. apply In_insertByStrength in Hin.
    destruct Hin as [Heq | Hin]; [left; congruence | right; apply IH; exact Hin].
Qed.


Lemma isBullishOrderBlock_body (ohlc : list OHLC.t) (i : nat) :
  SMC.isBullishOrderBlock ohlc i = true ->
  OHLC.open (SMC.bar ohlc i) < OHLC.close (SMC.bar ohlc i).
Proof.
  unfold SMC.isBullishOrderBlock.
  destruct (Qltb _ _ || Qle_bool _ _) eqn:Htest; [discriminate|].
  intros _. qbool. assumption.
Qed.

Lemma isBearishOrderBlock_body (ohlc : list OHLC.t) (i : nat) :
  SMC.isBearishOrderBlock ohlc i = true ->
  OHLC.close (SMC.bar ohlc i) < OHLC.open (SMC.bar ohlc i).
Proof.
  unfold SMC.isBearishOrderBlock.
  destruct (Qltb _ _ || Qgeb _ _) eqn:Htest; [discriminate|].
  intros _. qbool. assumption.
Qed.


Lemma zonesOf_In (kind : ZoneKind) (ohlc : list OHLC.t) (pivots : list Q)
    (z : LiquidityZone.t) :
  In z (SMC.zonesOf kind ohlc pivots) -> 0 < LiquidityZone.level z.
Proof.
  unfold SMC.zonesOf. intros Hin. apply in_flat_map in Hin.
  destruct Hin as (i & _ & Hin).
  destruct (Qgtb (Base.at_ pivots i) 0) eqn:Hpos; [|destruct Hin].
  destruct Hin as [Heq | []]. subst z. cbn. qbool. assumption.
Qed.

(** The level of a liquidity zone is positive. *)
Lemma updateLiquidityZones_In (ohlc : list OHLC.t) (z : LiquidityZone.t) :
  In z (SMC.updateLiquidityZones ohlc) -> 0 < LiquidityZone.level z.
Proof.
  unfold SMC.updateLiquidityZones. intros Hin. apply in_app_or in Hin.
  destruct Hin as [Hin | Hin]; apply zonesOf_In in Hin; exact Hin.
Qed.

(** A recomputed gap is unfilled and has a width. *)
Lemma updateFairValueGaps_In (ohlc : list OHLC.t) (g : FairValueGap.t) :
  In g (SMC.updateFairValueGaps ohlc) ->
  FairValueGap.filled g = false /\ FairValueGap.bottom g < FairValueGap.top g.
Proof.
  unfold SMC.updateFairValueGaps. intros Hin. apply in_flat_map in Hin.
  destruct Hin as (i & _ & Hin). unfold SMC.fairValueGapsAt in Hin.
  apply in_app_or in Hin. destruct Hin as [Hin | Hin].
  - destruct (Qltb _ _ && Qgtb _ _) eqn:Htest; [|destruct Hin].
    destruct Hin as [Heq | []]. subst g. cbn. qbool. auto.
  - destruct (Qgtb _ _ && Qltb _ _) eqn:Htest; [|destruct Hin].
    destruct Hin as [Heq | []]. subst g. cbn. qbool. auto.
Qed.

(** ** Filled gaps *)

Lemma checkFairValueGapFill_skips_filled (name : string) (gaps : list FairValueGap.t)
    (price : Q) :
  SMC.checkFairValueGapFill name gaps price
  = SMC.checkFairValueGapFill name
      (List.filter (fun g => negb (FairValueGap.filled g)) gaps) price.
Proof.
  induction gaps as [|g rest IH]; cbn [SMC.checkFairValueGapFill List.filter].
  - reflexivity.
  - destruct (FairValueGap.filled g) eqn:Hfilled; cbn [negb].
    + exact IH.
    + cbn [SMC.checkFairValueGapFill]. rewrite Hfilled, IH. reflexivity.
Qed.

Lemma checkFairValueGapFill_all_filled (name : string) (gaps : list FairValueGap.t)
    (price : Q) :
  Forall (fun g => FairValueGap.filled g = true) gaps ->
  SMC.checkFairValueGapFill name gaps price = None.
Proof.
  induction 1 as [|g rest Hg _ IH]; cbn [SMC.checkFairValueGapFill].
  - reflexivity.
  - rewrite Hg. exact IH.
Qed.

Lemma step_gaps_unfilled (s : SMC.t) (cycle : Cycle.t) :
  Forall (fun g => FairValueGap.filled g = false) (SMC.fairValueGaps s) ->
  Forall (fun g => FairValueGap.filled g = false) (SMC.fairValueGaps (Cycle.step s cycle)).
Proof.
  intros Hgaps. destruct cycle as [| |symbol ohlc marketData now]; cbn; try exact Hgaps.
  unfold SMC.analyze.
  destruct (negb (SMC.isActive s) || (length ohlc <? 50)%nat); cbn; [exact Hgaps|].
  apply List.Forall_forall. intros g Hin. apply updateFairValueGaps_In in Hin. tauto.
Qed.

Lemma run_gaps_unfilled (cycles : list Cycle.t) :
  forall s,
    Forall (fun g => FairValueGap.filled g = false) (SMC.fairValueGaps s) ->
    Forall (fun g => FairValueGap.filled g = false) (SMC.fairValueGaps (Cycle.run s cycles)).
Proof.
  induction cycles as [|cycle rest IH]; intros s Hgaps; cbn.
  - exact Hgaps.
  - apply IH, step_gaps_unfilled, Hgaps.
Qed.

(** C1 (amended).  checkFairValueGapFill skips every gap whose filled
    flag is true: it sees only the unfilled gaps, and none when all are
    filled.  updateFairValueGaps rebuilds the gap set from the bar window
    alone, every gap unfilled, whatever the strategy held before; nothing
    sets the flag, so after any sequence of cycles from a new strategy no
    stored gap is filled.  A filled status is not carried from one cycle
    to the next: the signal a cycle returns is the same whatever gaps and
    flags the strategy held before it. *)
Theorem filled_flag_not_carried_over :
  (forall name gaps price,
      SMC.checkFairValueGapFill name gaps price
      = SMC.checkFairValueGapFill name
          (List.filter (fun g => negb (FairValueGap.filled g)) gaps) price)
  /\ (forall name gaps price,
         Forall (fun g => FairValueGap.filled g = true) gaps ->
         SMC.checkFairValueGapFill name gaps price = None)
  /\ (forall ohlc g, In g (SMC.updateFairValueGaps ohlc) -> FairValueGap.filled g = false)
  /\ (forall s s0 ohlc,
         SMC.fairValueGaps (SMC.updateStructures s ohlc)
         = SMC.fairValueGaps (SMC.updateStructures s0 ohlc))
  /\ (forall cycles g,
         In g (SMC.fairValueGaps (Cycle.run SMC.create cycles)) ->
         FairValueGap.filled g = false)
  /\ (forall s s0 symbol ohlc marketData now,
         SMC.name s = SMC.name s0 ->
         SMC.isActive s = SMC.isActive s0 ->
         snd (SMC.analyze s symbol ohlc marketData now)
         = snd (SMC.analyze s0 symbol ohlc marketData now)).
Proof.
  split; [exact checkFairValueGapFill_skips_filled|].
  split; [exact checkFairValueGapFill_all_filled|].
  split; [intros ohlc g Hin; apply (updateFairValueGaps_In ohlc g Hin)|].
  split; [reflexivity|].
  split.
  - intros cycles g Hin.
    pose proof (run_gaps_unfilled cycles SMC.create (List.Forall_nil _)) as Hall.
    rewrite List.Forall_forall in Hall. apply Hall. exact Hin.
  - intros s s0 symbol ohlc marketData now Hname Hactive.
    unfold SMC.analyze. rewrite Hactive.
    destruct (negb (SMC.isActive s0) || (length ohlc <? 50)%nat); [reflexivity|].
    cbn [snd SMC.updateStructures SMC.name SMC.orderBlocks SMC.liquidityZones
         SMC.fairValueGaps].
    rewrite Hname. reflexivity.
Qed.

(** C1 (counterexample).  A strategy holds the gap of the window with
    its flag set; the next cycle on the same window stores that gap
    unfilled and emits a BUY from it.  And two successive cycles of a new
    strategy, with the price inside the gap both times, emit the same
    signal twice. *)
Lemma filled_gap_reappears_unfilled :
  let before := Scenario.strategyWithFilledGap in
  let cycle := SMC.analyze before "EURUSD" Scenario.gapOnly (Scenario.tick 101) 7 in
  let expected :=
    StrategySignal.mk "EURUSD" BUY 0.75 101 98.5 107 "SMC (Smart Money)" 7%Z in
  let first := SMC.analyze Scenario.activeStrategy "EURUSD" Scenario.gapOnly (Scenario.tick 101) 7 in
  let second := SMC.analyze (fst first) "EURUSD" Scenario.gapOnly (Scenario.tick 101) 7 in
  SMC.fairValueGaps before = [FairValueGap.mk bullish 103 100 20 true]
  /\ SMC.fairValueGaps (fst cycle) = [FairValueGap.mk bullish 103 100 20 false]
  /\ snd cycle = Some expected
  /\ snd first = Some expected
  /\ snd second = Some expected.
Proof.
  cbn zeta. repeat split; vm_compute; reflexivity.
Qed.

(** ** Emitted signals *)










(** What analyze returns has passed validateSignal. *)
Lemma analyze_validated (s : SMC.t) (symbol : string) (ohlc : list OHLC.t)
    (marketData : MarketData.t) (now : Z) (signal : Signal) :
  snd (SMC.analyze s symbol ohlc marketData now) = Some signal ->
  Base.validateSignal signal = true.
Proof.
  unfold SMC.analyze.
  destruct (negb (SMC.isActive s) || (length ohlc <? 50)%nat); [discriminate|].
  cbn [snd]. rewrite !orElse_emitted.
  repeat match goal with
    | |- match ?e with _ => _ end = _ -> _ =>
        let H := fresh "Hemit" in
        destruct e eqn:H;
        [intros Heq; inversion Heq; subst; apply emitted_valid in H;
         destruct H as (? & _ & _ & ?); assumption|]
    end.
  discriminate.
Qed.




(** * Further properties of the code *)

(** ** The retained order blocks *)

Lemma insertByStrength_sorted (x : OrderBlock.t) (sorted : list OrderBlock.t) :
  StronglySorted strongerOrEqual sorted ->
  StronglySorted strongerOrEqual (SMC.insertByStrength x sorted).
Proof.
  induction 1 as [|y rest Hrest IH Hy]; cbn [SMC.insertByStrength].
  - repeat constructor.
  - destruct (Qltb (OrderBlock.strength x) (OrderBlock.strength y)) eqn:Hlt; qbool.
    + constructor; [exact IH|].
      apply List.Forall_forall. intros z Hz.
      apply In_insertByStrength in Hz. destruct Hz as [Hz | Hz].
      * subst z. unfold strongerOrEqual. lra.
      * rewrite List.Forall_forall in Hy. apply Hy. exact Hz.
    + constructor; [constructor; assumption|].
      constructor; [exact Hlt|].
      rewrite List.Forall_forall in Hy. apply List.Forall_forall. intros z Hz.
      specialize (Hy z Hz). unfold strongerOrEqual in *. lra.
Qed.

Lemma sortByStrength_sorted (blocks : list OrderBlock.t) :
  StronglySorted strongerOrEqual (SMC.sortByStrength blocks).
Proof.
  induction blocks as [|x rest IH]; cbn [SMC.sortByStrength fold_right].
  - constructor.
  - apply insertByStrength_sorted. exact IH.
Qed.

Lemma insertByStrength_permutation (x : OrderBlock.t) (sorted : list OrderBlock.t) :
  Permutation (SMC.insertByStrength x sorted) (x :: sorted).
Proof.
  induction sorted as [|y rest IH]; cbn [SMC.insertByStrength].
  - reflexivity.
  - destruct (Qltb _ _); [|reflexivity].
    rewrite IH. apply perm_swap.
Qed.

Lemma sortByStrength_permutation (blocks : list OrderBlock.t) :
  Permutation (SMC.sortByStrength blocks) blocks.
Proof.
  induction blocks as [|x rest IH]; cbn [SMC.sortByStrength fold_right].
  - reflexivity.
  - rewrite insertByStrength_permutation. apply perm_skip. exact IH.
Qed.

Lemma StronglySorted_app_inv (l1 l2 : list OrderBlock.t) :
  StronglySorted strongerOrEqual (l1 ++ l2) ->
  StronglySorted strongerOrEqual l1
  /\ forall a b, In a l1 -> In b l2 -> strongerOrEqual a b.
Proof.
  induction l1 as [|x rest IH]; cbn; intros Hsorted.
  - split; [constructor|]. intros a b [].
  - inversion Hsorted as [|? ? Hrest Hx]; subst.
    destruct (IH Hrest) as [Hs Hcross]. split.
    + constructor; [exact Hs|].
      rewrite List.Forall_forall in Hx. apply List.Forall_forall.
      intros z Hz. apply Hx. apply in_or_app. left. exact Hz.
    + intros a b [Ha | Ha] Hb.
      * subst a. rewrite List.Forall_forall in Hx. apply Hx.
        apply in_or_app. right. exact Hb.
      * apply Hcross; assumption.
Qed.

(** X1.  updateOrderBlocks keeps at most ten order blocks, strongest
    first, and they are the strongest of the blocks the loop found: the
    retained and the dropped blocks together are the found ones, and no
    dropped block is stronger than a retained one.  With ten blocks or
    fewer nothing is dropped. *)
Theorem order_blocks_ten_strongest (ohlc : list OHLC.t) :
  let found := flat_map (SMC.orderBlocksAt ohlc) (seq 10 (length ohlc - 5 - 10)) in
  let retained := SMC.updateOrderBlocks ohlc in
  (length retained <= 10)%nat
  /\ StronglySorted strongerOrEqual retained
  /\ exists dropped,
      Permutation (retained ++ dropped) found
      /\ (forall r d, In r retained -> In d dropped ->
                      OrderBlock.strength d <= OrderBlock.strength r)
      /\ ((length found <= 10)%nat -> dropped = []).
Proof.
  intros found retained. subst retained. unfold SMC.updateOrderBlocks. fold found.
  pose proof (sortByStrength_sorted found) as Hsorted.
  pose proof (sortByStrength_permutation found) as Hperm.
  rewrite <- (firstn_skipn 10 (SMC.sortByStrength found)) in Hsorted, Hperm.
  destruct (StronglySorted_app_inv _ _ Hsorted) as [Hfirst Hcross].
  split; [rewrite length_take; lia|]. split; [exact Hfirst|].
  exists (drop 10 (SMC.sortByStrength found)).
  split; [exact Hperm|]. split; [intros r d Hr Hd; apply (Hcross r d Hr Hd)|].
  intros Hfew. apply drop_ge.
  rewrite (Permutation_length (sortByStrength_permutation found)). exact Hfew.
Qed.

(** Every retained order block, with the index it came from. *)
Lemma updateOrderBlocks_origin (ohlc : list OHLC.t) (b : OrderBlock.t) :
  In b (SMC.updateOrderBlocks ohlc) ->
  exists i,
    (10 <= i)%nat /\ (i + 5 < length ohlc)%nat
    /\ OrderBlock.index b = i
    /\ OrderBlock.tested b = false
    /\ ((OrderBlock.type b = bullish /\ SMC.isBullishOrderBlock ohlc i = true)
        \/ (OrderBlock.type b = bearish /\ SMC.isBearishOrderBlock ohlc i = true))
    /\ OrderBlock.strength b = SMC.calculateOrderBlockStrength ohlc i (OrderBlock.type b).
Proof.
  unfold SMC.updateOrderBlocks. intros Hin.
  apply In_take, In_sortByStrength, in_flat_map in Hin.
  destruct Hin as (i & Hi & Hin). apply in_seq in Hi.
  exists i. split; [lia|]. split; [lia|].
  unfold SMC.orderBlocksAt in Hin. apply in_app_or in Hin.
  destruct Hin as [Hin | Hin].
  - destruct (SMC.isBullishOrderBlock ohlc i) eqn:Hbull; [|destruct Hin].
    destruct Hin as [Heq | []]. subst b. cbn. auto 10.
  - destruct (SMC.isBearishOrderBlock ohlc i) eqn:Hbear; [|destruct Hin].
    destruct Hin as [Heq | []]. subst b. cbn. auto 10.
Qed.

Lemma recency_positive (n i : nat) :
  (i < n)%nat -> 0 < inject_Z (Z.of_nat (n - i)) / inject_Z (Z.of_nat n).
Proof.
  intros Hlt. apply Qlt_shift_div_l.
  - change 0 with (inject_Z 0). rewrite <- Zlt_Qlt. lia.
  - rewrite Qmult_0_l. change 0 with (inject_Z 0). rewrite <- Zlt_Qlt. lia.
Qed.

Lemma strength_above_25 (volumePart wick body recency : Q) :
  10 <= volumePart -> 0 < body -> body * 0.5 <= wick -> 0 < recency ->
  25 < Qmin (0 + volumePart + wick / body * 30 + recency * 20) 100.
Proof.
  intros Hvolume Hbody Hwick Hrecency.
  assert (Hratio : 0.5 <= wick / body) by (apply Qle_shift_div_l; lra).
  destruct (Qmin_cases (0 + volumePart + wick / body * 30 + recency * 20) 100)
    as [[_ ->] | [_ ->]]; lra.
Qed.

(** X2.  Every order block that updateOrderBlocks retains is untested,
    comes from an index between 10 and length - 6, and has a strength
    above 25 and at most 100: so the confidence of an order-block
    candidate lies in (0.25, 1]. *)
Theorem order_block_strength_bounds (ohlc : list OHLC.t) (b : OrderBlock.t) :
  In b (SMC.updateOrderBlocks ohlc) ->
  25 < OrderBlock.strength b /\ OrderBlock.strength b <= 100
  /\ OrderBlock.tested b = false
  /\ (10 <= OrderBlock.index b)%nat /\ (OrderBlock.index b + 5 < length ohlc)%nat.
Proof.
  intros Hin.
  destruct (updateOrderBlocks_origin ohlc b Hin)
    as (i & Hlow & Hhigh & Hindex & Htested & Hkind & Hstrength).
  rewrite Hindex. repeat split; try assumption.
  - rewrite Hstrength. unfold SMC.calculateOrderBlockStrength.
    destruct Hkind as [[-> Hbull] | [-> Hbear]].
    + pose proof (isBullishOrderBlock_body ohlc i Hbull) as Hbody.
      unfold SMC.isBullishOrderBlock in Hbull.
      destruct (Qltb _ _ || Qle_bool _ _) eqn:Htest; [discriminate|]. qbool.
      apply strength_above_25.
      * destruct (Qgtb _ _); lra.
      * rewrite Qabs_pos; lra.
      * assumption.
      * apply recency_positive. lia.
    + pose proof (isBearishOrderBlock_body ohlc i Hbear) as Hbody.
      unfold SMC.isBearishOrderBlock in Hbear.
      destruct (Qltb _ _ || Qgeb _ _) eqn:Htest; [discriminate|]. qbool.
      apply strength_above_25.
      * destruct (Qgtb _ _); lra.
      * rewrite Qabs_neg; lra.
      * assumption.
      * apply recency_positive. lia.
  - rewrite Hstrength. unfold SMC.calculateOrderBlockStrength. apply Q.le_min_r.
Qed.

(** The order block of the scenario window: strength 82 at index 20. *)
Lemma order_block_strength_bounds_witness :
  let b := OrderBlock.mk bullish 102 96 20 82.00 false in
  In b (SMC.updateOrderBlocks Scenario.blockAndGap)
  /\ 25 < OrderBlock.strength b /\ OrderBlock.strength b <= 100.
Proof.
  intros b.
  assert (Hin : In b (SMC.updateOrderBlocks Scenario.blockAndGap))
    by (vm_compute; left; reflexivity).
  destruct (order_block_strength_bounds Scenario.blockAndGap b Hin) as (H1 & H2 & _).
  auto.
Defined.

(** ** When a first match is emitted *)

(** Read the fields of a candidate. *)
Ltac candidate_fields :=
  unfold SMC.candidate;
  cbn [StrategySignal.symbol StrategySignal.action StrategySignal.confidence
       StrategySignal.entry StrategySignal.stopLoss StrategySignal.takeProfit
       StrategySignal.strategy StrategySignal.timestamp].

Lemma validateSignal_stamp (c : Signal) (symbol name : string) (now : Z) :
  Base.validateSignal (SMC.stamp c symbol name now) = true
  <-> symbol <> ""%string
      /\ 0.5 <= StrategySignal.confidence c
      /\ (Qabs (StrategySignal.entry c - StrategySignal.stopLoss c) == 0
          \/ 1.5 * Qabs (StrategySignal.entry c - StrategySignal.stopLoss c)
             <= Qabs (StrategySignal.takeProfit c - StrategySignal.entry c)).
Proof.
  unfold Base.validateSignal, Base.riskReward, SMC.stamp.
  cbn [StrategySignal.symbol StrategySignal.confidence StrategySignal.entry
       StrategySignal.stopLoss StrategySignal.takeProfit].
  pose proof (js_ratio_not_lt
                (Qabs (StrategySignal.takeProfit c - StrategySignal.entry c))
                (Qabs (StrategySignal.entry c - StrategySignal.stopLoss c)) 1.5
                (Qabs_nonneg _) (Qabs_nonneg _)) as Hratio.
  destruct (String.eqb symbol "") eqn:Hsymbol.
  - apply String.eqb_eq in Hsymbol. cbn [orb]. split; [discriminate|].
    intros [Hne _]. contradiction.
  - apply String.eqb_neq in Hsymbol. cbn [orb].
    destruct (Qltb (StrategySignal.confidence c) 0.5) eqn:Hconf; qbool.
    + split; [discriminate|]. intros (_ & Hc & _). lra.
    + destruct (js_ltb _ _).
      * split; [discriminate|]. intros (_ & _ & Hr).
        apply Hratio in Hr. discriminate.
      * split; [|reflexivity]. intros _. repeat split; try assumption.
        apply Hratio. reflexivity.
Qed.

(** A zone comes from one positive entry of the pivot array. *)
Lemma zonesOf_pivot (kind : ZoneKind) (ohlc : list OHLC.t) (pivots : list Q)
    (z : LiquidityZone.t) :
  In z (SMC.zonesOf kind ohlc pivots) ->
  exists i : nat,
    (i < length pivots)%nat
    /\ 0 < Base.at_ pivots i
    /\ LiquidityZone.type z = kind
    /\ LiquidityZone.level z = Base.at_ pivots i
    /\ LiquidityZone.strength z
       = SMC.calculateLiquidityStrength ohlc (i + 3) (LiquidityZone.level z).
Proof.
  unfold SMC.zonesOf. intros Hin. apply in_flat_map in Hin.
  destruct Hin as (i & Hi & Hin). apply in_seq in Hi.
  destruct (Qgtb (Base.at_ pivots i) 0) eqn:Hpos; [|destruct Hin].
  destruct Hin as [Heq | []]. subst z. cbn. qbool.
  exists i. repeat split; [lia | assumption].
Qed.

Lemma nth_map_inside {A : Type} (f : A -> Q) (l : list A) (i : nat) (d : A) :
  (i < length l)%nat -> nth i (map f l) 0 = f (nth i l d).
Proof.
  intros Hi. rewrite (nth_indep _ 0 (f d)) by (rewrite length_map; exact Hi).
  apply map_nth.
Qed.

Lemma at_map_seq (f : nat -> Q) (start len i : nat) :
  (i < len)%nat -> Base.at_ (map f (seq start len)) i = f (start + i)%nat.
Proof.
  intros Hi. unfold Base.at_.
  rewrite (nth_map_inside _ _ i 0%nat) by (rewrite length_seq; exact Hi).
  rewrite seq_nth by exact Hi. reflexivity.
Qed.

Lemma findPivotHighs_entry (highs : list Q) (i : nat) :
  (i < length (Base.findPivotHighs highs 3 3))%nat ->
  0 < Base.at_ (Base.findPivotHighs highs 3 3) i ->
  (i + 3 + 3 < length highs)%nat
  /\ Base.at_ (Base.findPivotHighs highs 3 3) i = Base.at_ highs (i + 3).
Proof.
  unfold Base.findPivotHighs. rewrite length_map, length_seq. intros Hi.
  rewrite at_map_seq by exact Hi. cbv beta zeta.
  replace (3 + i)%nat with (i + 3)%nat by lia.
  intros Hpos. split; [lia|].
  destruct (_ && _); [reflexivity | lra].
Qed.

Lemma findPivotLows_entry (lows : list Q) (i : nat) :
  (i < length (Base.findPivotLows lows 3 3))%nat ->
  0 < Base.at_ (Base.findPivotLows lows 3 3) i ->
  (i + 3 + 3 < length lows)%nat
  /\ Base.at_ (Base.findPivotLows lows 3 3) i = Base.at_ lows (i + 3).
Proof.
  unfold Base.findPivotLows. rewrite length_map, length_seq. intros Hi.
  rewrite at_map_seq by exact Hi. cbv beta zeta.
  replace (3 + i)%nat with (i + 3)%nat by lia.
  intros Hpos. split; [lia|].
  destruct (_ && _); [reflexivity | lra].
Qed.

Lemma at_field (field : OHLC.t -> Q) (ohlc : list OHLC.t) (k : nat) :
  (k < length ohlc)%nat ->
  Base.at_ (map field ohlc) k = field (SMC.bar ohlc k).
Proof.
  intros Hk. unfold Base.at_, SMC.bar. apply nth_map_inside. exact Hk.
Qed.

(** A zone of the window sits on the high (resistance) or the low
    (support) of a bar with three bars on either side, and its strength
    counts the later bars that touch its level. *)
Lemma updateLiquidityZones_pivot (ohlc : list OHLC.t) (z : LiquidityZone.t) :
  In z (SMC.updateLiquidityZones ohlc) ->
  exists k : nat,
    (3 <= k)%nat /\ (k + 3 < length ohlc)%nat
    /\ LiquidityZone.level z
       = match LiquidityZone.type z with
         | resistance => OHLC.high (SMC.bar ohlc k)
         | support => OHLC.low (SMC.bar ohlc k)
         end
    /\ LiquidityZone.strength z
       = SMC.calculateLiquidityStrength ohlc k (LiquidityZone.level z).
Proof.
  unfold SMC.updateLiquidityZones. intros Hin. apply in_app_or in Hin.
  destruct Hin as [Hin | Hin]; apply zonesOf_pivot in Hin;
    destruct Hin as (i & Hi & Hpos & Hkind & Hlevel & Hstrength);
    exists (i + 3)%nat; rewrite Hkind.
  - destruct (findPivotHighs_entry _ i Hi Hpos) as (Hlen & Hat).
    rewrite length_map in Hlen.
    repeat split; [lia | lia | | exact Hstrength].
    rewrite Hlevel, Hat. apply at_field. lia.
  - destruct (findPivotLows_entry _ i Hi Hpos) as (Hlen & Hat).
    rewrite length_map in Hlen.
    repeat split; [lia | lia | | exact Hstrength].
    rewrite Hlevel, Hat. apply at_field. lia.
Qed.

(** X3.  A liquidity-grab candidate always has reward >= 1.5 * risk, so
    whether it is emitted depends on the zone alone: for a zone of the
    window that the price has broken, and a non-empty symbol, the
    candidate passes validateSignal exactly when the strength of the zone
    is at least 50.  The zone is the high (resistance) or the low
    (support) of a bar k with three bars before and after it, and its
    strength is 25 for each bar after bar k whose high or low is less
    than a thousandth of the level away from it, capped at 100: the
    candidate is emitted exactly when two or more of those bars touch the
    level. *)
Theorem liquidity_grab_emitted_iff_two_touches
    (ohlc : list OHLC.t) (z : LiquidityZone.t) (price : Q) (lastBar : OHLC.t)
    (symbol name : string) (now : Z) :
  In z (SMC.updateLiquidityZones ohlc) ->
  Match.zoneMatches price lastBar z = true ->
  symbol <> ""%string ->
  let c := Match.zoneCandidate name price z in
  let level := LiquidityZone.level z in
  1.5 * Qabs (StrategySignal.entry c - StrategySignal.stopLoss c)
  <= Qabs (StrategySignal.takeProfit c - StrategySignal.entry c)
  /\ (Base.validateSignal (SMC.stamp c symbol name now) = true
      <-> 50 <= LiquidityZone.strength z)
  /\ exists k : nat,
      (3 <= k)%nat /\ (k + 3 < length ohlc)%nat
      /\ level = match LiquidityZone.type z with
                 | resistance => OHLC.high (SMC.bar ohlc k)
                 | support => OHLC.low (SMC.bar ohlc k)
                 end
      /\ let touches :=
           length (filter (fun j =>
                             Qltb (Qabs (OHLC.high (SMC.bar ohlc j) - level)) (level * 0.001)
                             || Qltb (Qabs (OHLC.low (SMC.bar ohlc j) - level)) (level * 0.001)
                             = true)
                          (seq (k + 1) (length ohlc - (k + 1)))) in
         LiquidityZone.strength z = Qmin (inject_Z (Z.of_nat touches) * 25) 100
         /\ (50 <= LiquidityZone.strength z <-> (2 <= touches)%nat)
         /\ (Base.validateSignal (SMC.stamp c symbol name now) = true
             <-> (2 <= touches)%nat).
Proof.
  intros Hin Hmatch Hsymbol c level.
  pose proof (updateLiquidityZones_In ohlc z Hin) as Hlevel.
  assert (Hratio : 1.5 * Qabs (StrategySignal.entry c - StrategySignal.stopLoss c)
                   <= Qabs (StrategySignal.takeProfit c - StrategySignal.entry c)).
  { subst c. unfold Match.zoneMatches in Hmatch. unfold Match.zoneCandidate.
    destruct (LiquidityZone.type z); qbool; candidate_fields;
      match goal with
      | |- _ * Qabs ?a <= Qabs ?b =>
          destruct (Qabs_cases a) as [[? ->] | [? ->]];
          destruct (Qabs_cases b) as [[? ->] | [? ->]]; lra
      end. }
  assert (Hemitted : Base.validateSignal (SMC.stamp c symbol name now) = true
                     <-> 50 <= LiquidityZone.strength z).
  { rewrite validateSignal_stamp. subst c.
    assert (Hconf : StrategySignal.confidence (Match.zoneCandidate name price z)
                    = LiquidityZone.strength z / 100).
    { unfold Match.zoneCandidate. destruct (LiquidityZone.type z); reflexivity. }
    rewrite Hconf. split.
    + intros (_ & Hc & _).
      assert (H : LiquidityZone.strength z == LiquidityZone.strength z / 100 * 100)
        by (field). lra.
    + intros Hs. repeat split; [assumption | | right; exact Hratio].
      apply Qle_shift_div_l; lra. }
  split; [exact Hratio|]. split; [exact Hemitted|].
  destruct (updateLiquidityZones_pivot ohlc z Hin) as (k & Hleft & Hright & Hbar & Hs).
  exists k. split; [exact Hleft|]. split; [exact Hright|]. split; [exact Hbar|].
  unfold SMC.calculateLiquidityStrength in Hs. cbv zeta in Hs. fold level in Hs.
  cbv zeta.
  set (touches := length (filter _ (seq (k + 1) (length ohlc - (k + 1))))) in *.
  assert (Htouches : 50 <= LiquidityZone.strength z <-> (2 <= touches)%nat).
  { rewrite Hs.
    destruct (Qmin_cases (inject_Z (Z.of_nat touches) * 25) 100) as [[Hc ->] | [Hc ->]].
    + split.
      * intros H50. assert (Ht : inject_Z 1 < inject_Z (Z.of_nat touches))
          by (change (inject_Z 1) with 1; lra).
        rewrite <- Zlt_Qlt in Ht. lia.
      * intros Ht. assert (Hq : inject_Z 2 <= inject_Z (Z.of_nat touches))
          by (rewrite <- Zle_Qle; lia).
        change (inject_Z 2) with 2 in Hq. lra.
    + split.
      * intros _. assert (Ht : inject_Z 1 < inject_Z (Z.of_nat touches))
          by (change (inject_Z 1) with 1; lra).
        rewrite <- Zlt_Qlt in Ht. lia.
      * intros _. lra. }
  split; [exact Hs|]. split; [exact Htouches|].
  rewrite Hemitted. exact Htouches.
Qed.

(** X4.  A fair-value-gap candidate is emitted only from the part of the
    gap next to its stop: for a gap of the window that contains the
    price, and a non-empty symbol, the candidate passes validateSignal
    exactly when the price is within five sixths of the gap width from
    the bottom (bullish gap) or from the top (bearish gap). *)
Theorem gap_emitted_iff_price_in_five_sixths
    (ohlc : list OHLC.t) (g : FairValueGap.t) (price : Q)
    (symbol name : string) (now : Z) :
  In g (SMC.updateFairValueGaps ohlc) ->
  Match.gapMatches price g = true ->
  symbol <> ""%string ->
  let width := FairValueGap.top g - FairValueGap.bottom g in
  Base.validateSignal (SMC.stamp (Match.gapCandidate name price g) symbol name now) = true
  <-> match FairValueGap.type g with
      | bullish => price - FairValueGap.bottom g <= (5 # 6) * width
      | bearish => FairValueGap.top g - price <= (5 # 6) * width
      end.
Proof.
  intros Hin Hmatch Hsymbol width.
  destruct (updateFairValueGaps_In ohlc g Hin) as [_ Hwidth].
  unfold Match.gapMatches in Hmatch. qbool.
  rewrite validateSignal_stamp. subst width.
  unfold Match.gapCandidate.
  destruct (FairValueGap.type g); candidate_fields;
    match goal with
    | |- _ /\ _ /\ (Qabs ?a == 0 \/ _ * Qabs ?a <= Qabs ?b) <-> _ =>
        destruct (Qabs_cases a) as [[? ->] | [? ->]];
        destruct (Qabs_cases b) as [[? ->] | [? ->]]
    end;
    (split; [intros (_ & _ & [Hz | Hr]); lra
            | intros Hp; repeat split; [assumption | lra | right; lra]]).
Qed.

(** The gap of the scenario window, between 100 and 103: at 101 the
    signal is emitted, at 102.9 it is not. *)
Lemma gap_emitted_iff_price_in_five_sixths_witness :
  let g := FairValueGap.mk bullish 103 100 20 false in
  Base.validateSignal
    (SMC.stamp (Match.gapCandidate "SMC" 101 g) "EURUSD" "SMC" 0) = true
  /\ Base.validateSignal
       (SMC.stamp (Match.gapCandidate "SMC" 102.9 g) "EURUSD" "SMC" 0) = false.
Proof.
  intros g.
  assert (Hin : In g (SMC.updateFairValueGaps Scenario.gapOnly))
    by (vm_compute; left; reflexivity).
  split.
  - apply (gap_emitted_iff_price_in_five_sixths Scenario.gapOnly g 101 "EURUSD" "SMC" 0 Hin).
    + reflexivity.
    + discriminate.
    + cbn. lra.
  - destruct (Base.validateSignal _) eqn:Hvalid; [|reflexivity].
    apply (gap_emitted_iff_price_in_five_sixths Scenario.gapOnly g 102.9 "EURUSD" "SMC" 0 Hin)
      in Hvalid.
    + cbn in Hvalid. lra.
    + reflexivity.
    + discriminate.
Defined.

(** The support zone of the scenario window, at 96 with no touch: a
    break below it with a bullish last bar gives a candidate that is not
    emitted. *)
Lemma liquidity_grab_emitted_iff_two_touches_witness :
  let z := LiquidityZone.mk support 96 0 1 in
  let lastBar := OHLC.mk 0 94 95 94 95 0 in
  let c := Match.zoneCandidate "SMC" 95 z in
  1.5 * Qabs (StrategySignal.entry c - StrategySignal.stopLoss c)
  <= Qabs (StrategySignal.takeProfit c - StrategySignal.entry c)
  /\ Base.validateSignal (SMC.stamp c "EURUSD" "SMC" 0) = false.
Proof.
  intros z lastBar c.
  assert (Hin : In z (SMC.updateLiquidityZones Scenario.blockAndGap))
    by (vm_compute; left; reflexivity).
  destruct (liquidity_grab_emitted_iff_two_touches Scenario.blockAndGap z 95 lastBar
              "EURUSD" "SMC" 0 Hin) as (Hratio & Hiff & _).
  - reflexivity.
  - discriminate.
  - split; [exact Hratio|].
    destruct (Base.validateSignal _); [|reflexivity].
    destruct Hiff as [Hstrong _]. specialize (Hstrong eq_refl).
    cbn in Hstrong. lra.
Defined.

(** X5.  An order-block candidate passes validateSignal exactly when the
    strength of the block is at least 50 and the price is far enough
    from the block edge its target is measured from: for a bullish block
    of range r, at least 0.6 r above the low, or at least (3/35) r below
    it; for a bearish block the same from the high.  In the second case
    the price is beyond the edge and the target lies on the wrong side of
    the entry: below it for a BUY, above it for a SELL. *)
Theorem order_block_emitted_iff
    (b : OrderBlock.t) (price : Q) (symbol name : string) (now : Z) :
  OrderBlock.low b < OrderBlock.high b ->
  Match.blockMatches price b = true ->
  symbol <> ""%string ->
  let range := OrderBlock.high b - OrderBlock.low b in
  let c := Match.blockCandidate name price b in
  (Base.validateSignal (SMC.stamp c symbol name now) = true
   <-> 50 <= OrderBlock.strength b
       /\ match OrderBlock.type b with
          | bullish =>
              0.6 * range <= price - OrderBlock.low b
              \/ (3 # 35) * range <= OrderBlock.low b - price
          | bearish =>
              0.6 * range <= OrderBlock.high b - price
              \/ (3 # 35) * range <= price - OrderBlock.high b
          end)
  /\ match OrderBlock.type b with
     | bullish =>
         StrategySignal.action c = BUY
         /\ StrategySignal.stopLoss c < StrategySignal.entry c
         /\ (price < OrderBlock.low b ->
             StrategySignal.takeProfit c < StrategySignal.entry c)
     | bearish =>
         StrategySignal.action c = SELL
         /\ StrategySignal.entry c < StrategySignal.stopLoss c
         /\ (OrderBlock.high b < price ->
             StrategySignal.entry c < StrategySignal.takeProfit c)
     end.
Proof.
  intros Hrange Hmatch Hsymbol range c.
  unfold Match.blockMatches in Hmatch. qbool.
  assert (Hconf : StrategySignal.confidence c = OrderBlock.strength b / 100).
  { subst c. unfold Match.blockCandidate. destruct (OrderBlock.type b); reflexivity. }
  assert (Hstrength : 0.5 <= OrderBlock.strength b / 100 <-> 50 <= OrderBlock.strength b).
  { assert (Hq : OrderBlock.strength b == OrderBlock.strength b / 100 * 100) by field.
    split; intros; lra. }
  split.
  - rewrite validateSignal_stamp, Hconf, Hstrength. subst c range.
    unfold Match.blockCandidate.
    destruct (OrderBlock.type b); candidate_fields;
      match goal with
      | |- _ /\ _ /\ (Qabs ?x == 0 \/ _ * Qabs ?x <= Qabs ?y) <-> _ =>
          destruct (Qabs_cases x) as [[? ->] | [? ->]];
          destruct (Qabs_cases y) as [[? ->] | [? ->]]
      end;
      (split;
       [intros (_ & Hs & [Hz | Hr]); (split; [exact Hs|]); first [left; lra | right; lra]
       | intros (Hs & [Hp | Hp]); repeat split;
         first [assumption | right; lra | left; lra]]).
  - subst c. unfold Match.blockCandidate.
    destruct (OrderBlock.type b); candidate_fields; repeat split; intros; lra.
Qed.

(** The order block of the scenario window (low 96, high 102, strength
    82): at 95.45, below the low, a BUY is emitted whose target 94.35
    lies below its entry. *)
Lemma order_block_emitted_iff_witness :
  let b := OrderBlock.mk bullish 102 96 20 82 false in
  let c := Match.blockCandidate "SMC" 95.45 b in
  Base.validateSignal (SMC.stamp c "EURUSD" "SMC" 0) = true
  /\ StrategySignal.action c = BUY
  /\ StrategySignal.takeProfit c < StrategySignal.entry c.
Proof.
  intros b c.
  destruct (order_block_emitted_iff b 95.45 "EURUSD" "SMC" 0) as [Hiff Hside].
  - cbn. lra.
  - reflexivity.
  - discriminate.
  - cbn [OrderBlock.type b] in Hside. destruct Hside as (Haction & _ & Htarget).
    split; [|split; [exact Haction | apply Htarget; cbn; lra]].
    apply Hiff. cbn. split; [lra | right; lra].
Defined.

(** ** Pivots *)

Lemma findPivotHighs_with (highs : list Q) (leftBars rightBars : nat) :
  Base.findPivotHighs highs leftBars rightBars = pivotsWith Qgeb highs leftBars rightBars.
Proof. reflexivity. Qed.

Lemma findPivotLows_with (lows : list Q) (leftBars rightBars : nat) :
  Base.findPivotLows lows leftBars rightBars = pivotsWith Qle_bool lows leftBars rightBars.
Proof. reflexivity. Qed.

Section Pivots.
Variables (blocks : Q -> Q -> bool) (data : list Q) (leftBars rightBars : nat).

Let pivots := pivotsWith blocks data leftBars rightBars.

Lemma pivotsWith_length : length pivots = (length data - rightBars - leftBars)%nat.
Proof. subst pivots. unfold pivotsWith. rewrite length_map, length_seq. reflexivity. Qed.

(** A positive entry is the value of a pivot: no bar of its left or
    right window ends it. *)
Lemma pivotsWith_positive (k : nat) :
  (k < length pivots)%nat -> 0 < nth k pivots 0 ->
  nth k pivots 0 = Base.at_ data (leftBars + k)
  /\ forall j,
      ((leftBars + k - leftBars <= j < leftBars + k)%nat
       \/ (leftBars + k < j <= leftBars + k + rightBars)%nat) ->
      blocks (Base.at_ data j) (Base.at_ data (leftBars + k)) = false.
Proof.
  intros Hk. rewrite pivotsWith_length in Hk. subst pivots. unfold pivotsWith.
  set (f := fun i : nat => _).
  rewrite (nth_indep _ 0 (f 0%nat)) by (rewrite length_map, length_seq; exact Hk).
  rewrite map_nth, seq_nth by exact Hk. subst f. cbv beta zeta.
  destruct (forallb _ _ && forallb _ _) eqn:Hpivot; [|intros H0; lra].
  intros _. split; [reflexivity|].
  apply andb_true_iff in Hpivot. destruct Hpivot as [Hleft Hright].
  rewrite forallb_forall in Hleft, Hright.
  intros j [Hj | Hj].
  - apply negb_true_iff. apply Hleft. apply in_seq. lia.
  - apply negb_true_iff. apply Hright. apply in_seq. lia.
Qed.
End Pivots.

(** X6.  findPivotHighs and findPivotLows return one entry per index
    from leftBars to length - rightBars - 1 (none on a window of
    leftBars + rightBars values or fewer).  A positive entry is the value
    at its index, strictly above (highs) or strictly below (lows) every
    value of the leftBars values before and the rightBars values after
    it; and of two entries no further apart than leftBars and rightBars,
    at most one is positive. *)
Theorem pivots_strict_and_isolated (data : list Q) (leftBars rightBars : nat) :
  let highs := Base.findPivotHighs data leftBars rightBars in
  let lows := Base.findPivotLows data leftBars rightBars in
  length highs = (length data - rightBars - leftBars)%nat
  /\ length lows = (length data - rightBars - leftBars)%nat
  /\ (forall k j,
         (k < length highs)%nat -> 0 < nth k highs 0 ->
         ((k <= j < leftBars + k)%nat
          \/ (leftBars + k < j <= leftBars + k + rightBars)%nat) ->
         nth k highs 0 = Base.at_ data (leftBars + k)
         /\ Base.at_ data j < Base.at_ data (leftBars + k))
  /\ (forall k j,
         (k < length lows)%nat -> 0 < nth k lows 0 ->
         ((k <= j < leftBars + k)%nat
          \/ (leftBars + k < j <= leftBars + k + rightBars)%nat) ->
         nth k lows 0 = Base.at_ data (leftBars + k)
         /\ Base.at_ data (leftBars + k) < Base.at_ data j)
  /\ (forall k1 k2,
         (k1 < k2 < length highs)%nat ->
         (k2 - k1 <= leftBars)%nat -> (k2 - k1 <= rightBars)%nat ->
         0 < nth k1 highs 0 -> nth k2 highs 0 <= 0)
  /\ (forall k1 k2,
         (k1 < k2 < length lows)%nat ->
         (k2 - k1 <= leftBars)%nat -> (k2 - k1 <= rightBars)%nat ->
         0 < nth k1 lows 0 -> nth k2 lows 0 <= 0).
Proof.
  intros highs lows. subst highs lows.
  rewrite findPivotHighs_with, findPivotLows_with.
  split; [apply pivotsWith_length|]. split; [apply pivotsWith_length|].
  split; [|split; [|split]].
  - intros k j Hk Hpos Hj.
    destruct (pivotsWith_positive Qgeb data leftBars rightBars k Hk Hpos) as [Hv Hw].
    split; [exact Hv|]. apply Qgeb_lt. apply Hw. lia.
  - intros k j Hk Hpos Hj.
    destruct (pivotsWith_positive Qle_bool data leftBars rightBars k Hk Hpos) as [Hv Hw].
    split; [exact Hv|]. apply Qle_bool_gt. apply Hw. lia.
  - intros k1 k2 Hk Hl Hr Hpos1.
    destruct (Qlt_le_dec 0 (nth k2 (pivotsWith Qgeb data leftBars rightBars) 0))
      as [Hpos2 | Hle]; [exfalso | exact Hle].
    destruct (pivotsWith_positive Qgeb data leftBars rightBars k1 ltac:(lia) Hpos1)
      as [_ H1].
    destruct (pivotsWith_positive Qgeb data leftBars rightBars k2 ltac:(lia) Hpos2)
      as [_ H2].
    specialize (H1 (leftBars + k2)%nat ltac:(lia)).
    specialize (H2 (leftBars + k1)%nat ltac:(lia)).
    qbool. lra.
  - intros k1 k2 Hk Hl Hr Hpos1.
    destruct (Qlt_le_dec 0 (nth k2 (pivotsWith Qle_bool data leftBars rightBars) 0))
      as [Hpos2 | Hle]; [exfalso | exact Hle].
    destruct (pivotsWith_positive Qle_bool data leftBars rightBars k1 ltac:(lia) Hpos1)
      as [_ H1].
    destruct (pivotsWith_positive Qle_bool data leftBars rightBars k2 ltac:(lia) Hpos2)
      as [_ H2].
    specialize (H1 (leftBars + k2)%nat ltac:(lia)).
    specialize (H2 (leftBars + k1)%nat ltac:(lia)).
    qbool. lra.
Qed.

(** ** What validateTrade does to the manager, and when it accepts *)

(** X7.  validateTrade accepts a signal exactly when the manager is not
    blocked, the account is known, the day's loss is below the limit,
    fewer than maxOpenPositions positions are open, the tick of the
    symbol is known with a spread of at most maxSpread, and the computed
    size is not zero or negative.  It never changes the parameters, the
    day's start balance or the daily P&L: the manager it leaves is the
    one it found, except when the loss limit is reached, where it is that
    manager with the block set and the call is rejected. *)
Theorem validateTrade_accepts_iff (rm : RiskManager.t) (feed : Feed.t) (signal : Signal) :
  let result := RiskManager.validateTrade rm feed signal in
  (TradeValidationResult.isValid (snd result) = true
   <-> RiskManager.isTradeBlocked rm = false
       /\ exists accountInfo marketData,
           Feed.getAccountInfo feed = Some accountInfo
           /\ RiskManager.dailyStartBalance rm - AccountInfo.balance accountInfo
              < RiskManager.dailyStartBalance rm
                * RiskParams.maxDailyLoss (RiskManager.riskParams rm) / 100
           /\ inject_Z (Z.of_nat (length (Feed.getPositions feed)))
              < RiskParams.maxOpenPositions (RiskManager.riskParams rm)
           /\ Feed.getMarketData feed (StrategySignal.symbol signal) = Some marketData
           /\ MarketData.spread marketData <= RiskParams.maxSpread (RiskManager.riskParams rm)
           /\ js_leb (RiskManager.calculatePositionSize rm feed signal accountInfo) (Fin 0)
              = false)
  /\ (fst result = rm
      \/ (fst result = RiskManager.setBlocked rm true
          /\ RiskManager.isTradeBlocked rm = false
          /\ exists currentDailyLoss maxDailyLoss,
              snd result
              = RiskManager.reject (DailyLossLimitReached currentDailyLoss maxDailyLoss)
              /\ maxDailyLoss <= currentDailyLoss)).
Proof.
  intros result. subst result. unfold RiskManager.validateTrade.
  destruct (RiskManager.isTradeBlocked rm) eqn:Hblocked.
  { cbn. split; [|left; reflexivity]. split; [discriminate|]. intros [H _]. discriminate. }
  destruct (Feed.getAccountInfo feed) as [accountInfo|] eqn:Haccount.
  2:{ cbn. split; [|left; reflexivity]. split; [discriminate|].
      intros (_ & a & m & Ha & _). discriminate. }
  unfold RiskManager.checkDailyLossLimit.
  destruct (Qgeb _ _) eqn:Hloss; cbn [negb ValidationCheck.passed ValidationCheck.reason];
    qbool.
  { cbn [fst snd]. split.
    - split; [discriminate|]. intros (_ & a & m & Ha & Hl & _).
      inversion Ha; subst a. lra.
    - right. repeat split. eexists _, _. split; [reflexivity | exact Hloss]. }
  unfold RiskManager.checkMaxPositions.
  destruct (Qgeb (inject_Z _) _) eqn:Hcount;
    cbn [negb ValidationCheck.passed ValidationCheck.reason]; qbool.
  { cbn [fst snd]. split; [|left; reflexivity]. split; [discriminate|].
    intros (_ & a & m & _ & _ & Hc & _). lra. }
  unfold RiskManager.checkSpread.
  destruct (Feed.getMarketData feed (StrategySignal.symbol signal)) as [marketData|]
    eqn:Hmarket.
  2:{ cbn. split; [|left; reflexivity]. split; [discriminate|].
      intros (_ & a & m & _ & _ & _ & Hm & _). discriminate. }
  destruct (Qgtb (MarketData.spread marketData) _) eqn:Hspread;
    cbn [negb ValidationCheck.passed ValidationCheck.reason]; qbool.
  { cbn [fst snd]. split; [|left; reflexivity]. split; [discriminate|].
    intros (_ & a & m & _ & _ & _ & Hm & Hs & _). inversion Hm; subst m. lra. }
  destruct (js_leb (RiskManager.calculatePositionSize rm feed signal accountInfo) (Fin 0))
    eqn:Hsize.
  { cbn [fst snd]. split; [|left; reflexivity]. split; [discriminate|].
    intros (_ & a & m & Ha & _ & _ & _ & _ & Hz). inversion Ha; subst a. congruence. }
  cbn [fst snd TradeValidationResult.isValid]. split; [|left; reflexivity].
  split; [|reflexivity]. intros _. split; [reflexivity|].
  exists accountInfo, marketData. repeat split; assumption.
Qed.

(** ** The size of a position *)

(** Split on every [Math.min] and [Math.max] of the goal. *)
Ltac minmax_cases :=
  repeat match goal with
    | |- context [Qmin ?a ?b] => destruct (Qmin_cases a b) as [[? ->] | [? ->]]
    | |- context [Qmax ?a ?b] => destruct (Qmax_cases a b) as [[? ->] | [? ->]]
    end.

(** X8.  Without symbol information the size is 0 and the trade is
    rejected.  With symbol information, a size that is a finite number
    lies between volumeMin and the larger of volumeMin and volumeMax; and
    when volumeMin is positive, the size is never zero or negative, so
    the size check of validateTrade rejects nothing. *)
Theorem position_size_within_volume_limits
    (rm : RiskManager.t) (feed : Feed.t) (signal : Signal) (accountInfo : AccountInfo.t) :
  let size := RiskManager.calculatePositionSize rm feed signal accountInfo in
  (Feed.getSymbolInfo feed (StrategySignal.symbol signal) = None ->
   size = Fin 0
   /\ (Feed.getAccountInfo feed = Some accountInfo ->
       TradeValidationResult.isValid (snd (RiskManager.validateTrade rm feed signal)) = false))
  /\ (forall info,
         Feed.getSymbolInfo feed (StrategySignal.symbol signal) = Some info ->
         (forall q, size = Fin q ->
                    SymbolInfo.volumeMin info <= q
                    /\ q <= Qmax (SymbolInfo.volumeMin info) (SymbolInfo.volumeMax info))
         /\ (0 < SymbolInfo.volumeMin info -> js_leb size (Fin 0) = false)).
Proof.
  intros size. split.
  - intros Hnone.
    assert (Hsize : size = Fin 0)
      by (subst size; unfold RiskManager.calculatePositionSize; rewrite Hnone; reflexivity).
    split; [exact Hsize|]. intros Haccount.
    apply (validateTrade_rejects_size rm feed signal accountInfo Haccount).
    fold size. rewrite Hsize. reflexivity.
  - intros info Hinfo. subst size. unfold RiskManager.calculatePositionSize.
    rewrite Hinfo.
    destruct (js_mul (js_round _) (Fin (SymbolInfo.volumeStep info))) as [y| | |];
      cbn [js_min js_max js_leb]; split;
      try (intros q Hq; inversion Hq; subst q);
      try (intros Hmin; first [reflexivity | apply Qle_bool_gt]);
      minmax_cases; try discriminate; lra.
Qed.

(** X9.  A signal whose entry equals its stop loss is sized at the
    largest volume: with a positive risk amount, a positive point and
    volume step, and 0 < volumeMin <= volumeMax, the quotient by the zero
    stop distance is plus infinity and the clamp returns volumeMax; the
    trade passes the size check. *)
Theorem zero_stop_distance_sized_at_volume_max
    (rm : RiskManager.t) (feed : Feed.t) (signal : Signal)
    (accountInfo : AccountInfo.t) (info : SymbolInfo.t) :
  Feed.getSymbolInfo feed (StrategySignal.symbol signal) = Some info ->
  StrategySignal.entry signal == StrategySignal.stopLoss signal ->
  0 < AccountInfo.equity accountInfo * RiskParams.maxRiskPerTrade (RiskManager.riskParams rm) ->
  0 < SymbolInfo.point info ->
  0 < SymbolInfo.volumeStep info ->
  0 < SymbolInfo.volumeMin info ->
  SymbolInfo.volumeMin info <= SymbolInfo.volumeMax info ->
  exists size,
    RiskManager.calculatePositionSize rm feed signal accountInfo = Fin size
    /\ size == SymbolInfo.volumeMax info
    /\ js_leb (Fin size) (Fin 0) = false.
Proof.
  intros Hinfo Hstop Hrisk Hpoint Hstep Hmin Hbounds.
  unfold RiskManager.calculatePositionSize. rewrite Hinfo.
  assert (Hdist : Qabs (StrategySignal.entry signal - StrategySignal.stopLoss signal) == 0).
  { destruct (Qabs_cases (StrategySignal.entry signal - StrategySignal.stopLoss signal))
      as [[_ ->] | [_ ->]]; lra. }
  assert (Hp : Qeq_bool (SymbolInfo.point info) 0 = false)
    by (apply Qeq_bool_false; lra).
  assert (Hzero : Qeq_bool
                    (Qabs (StrategySignal.entry signal - StrategySignal.stopLoss signal)
                     / SymbolInfo.point info * 1) 0 = true).
  { apply Qeq_bool_iff. rewrite Hdist. field. lra. }
  assert (Hamount : 0 < AccountInfo.equity accountInfo
                        * RiskParams.maxRiskPerTrade (RiskManager.riskParams rm) / 100)
    by (apply Qlt_shift_div_l; lra).
  assert (Hr0 : Qeq_bool (AccountInfo.equity accountInfo
                          * RiskParams.maxRiskPerTrade (RiskManager.riskParams rm) / 100) 0
                = false) by (apply Qeq_bool_false; lra).
  assert (Hrpos : Qltb 0 (AccountInfo.equity accountInfo
                          * RiskParams.maxRiskPerTrade (RiskManager.riskParams rm) / 100)
                  = true) by (apply Qltb_lt; lra).
  assert (Hs : Qle_bool 0 (SymbolInfo.volumeStep info) = true)
    by (apply Qle_bool_iff; lra).
  assert (Hs0 : Qeq_bool (SymbolInfo.volumeStep info) 0 = false)
    by (apply Qeq_bool_false; lra).
  assert (Hspos : Qltb 0 (SymbolInfo.volumeStep info) = true) by (apply Qltb_lt; lra).
  cbn [js_div js_mul]. rewrite Hp. cbn [js_mul js_div]. rewrite Hzero, Hr0, Hrpos.
  cbn [js_div js_round js_mul]. rewrite Hs. cbn [js_round js_mul]. rewrite Hs0, Hspos.
  cbn [js_min js_max]. eexists. split; [reflexivity|].
  cbn [js_leb]. rewrite Qle_bool_gt. minmax_cases; split; lra.
Qed.

(** Entry and stop both at 1.1000 on an account of 9,900: the size is
    the largest volume, 5.0. *)
Lemma zero_stop_distance_sized_at_volume_max_witness :
  exists size,
    RiskManager.calculatePositionSize Scenario.managerAt10000
      (Scenario.feed 9900 (Scenario.eurusdInfo 0.01 5.0 0.01))
      (StrategySignal.mk "EURUSD" SELL 0.75 1.1000 1.1000 1.0900 "SMC (Smart Money)" 0%Z)
      (Scenario.account 9900)
    = Fin size
    /\ size == 5.0.
Proof.
  destruct (zero_stop_distance_sized_at_volume_max Scenario.managerAt10000
              (Scenario.feed 9900 (Scenario.eurusdInfo 0.01 5.0 0.01))
              (StrategySignal.mk "EURUSD" SELL 0.75 1.1000 1.1000 1.0900
                 "SMC (Smart Money)" 0%Z)
              (Scenario.account 9900) (Scenario.eurusdInfo 0.01 5.0 0.01))
    as (size & Hsize & Hmax & _).
  - reflexivity.
  - cbn. lra.
  - cbn. lra.
  - cbn. lra.
  - cbn. lra.
  - cbn. lra.
  - cbn. lra.
  - exists size. split; [exact Hsize | exact Hmax].
Defined.


(** ** The position monitor *)

Lemma monitorPositions_length (rm : RiskManager.t) (feed : Feed.t) :
  (length (RiskManager.monitorPositions rm feed) <= 2 * length (Feed.getPositions feed))%nat.
Proof.
  unfold RiskManager.monitorPositions.
  induction (Feed.getPositions feed) as [|position rest IH]; cbn [flat_map length].
  - lia.
  - rewrite length_app. unfold RiskManager.applyPositionRiskManagement at 1.
    rewrite length_app.
    destruct (RiskManager.shouldMoveToBreakEven position);
      destruct (RiskManager.shouldEmergencyClose rm position); cbn [length]; lia.
Qed.

(** X10.  Every call monitorPositions makes on the trading gateway is
    for an open position: either a modification that puts the stop at
    the open price and keeps the target, for a position that passes
    shouldMoveToBreakEven, or a close, for a position with a negative
    profit of at least 2 * maxRiskPerTrade percent of the day's start
    balance.  A position without loss is never closed; and while the
    day's start balance is 0 (the value the constructor leaves until the
    account reply arrives) every losing position is closed. *)
Theorem monitor_calls (rm : RiskManager.t) (feed : Feed.t) :
  let calls := RiskManager.monitorPositions rm feed in
  let budget :=
    RiskManager.dailyStartBalance rm
    * RiskParams.maxRiskPerTrade (RiskManager.riskParams rm) * 2 / 100 in
  (forall call, In call calls ->
     exists position,
       In position (Feed.getPositions feed)
       /\ ((call = ModifyPosition (Position.ticket position) (Position.openPrice position)
                     (Position.takeProfit position)
            /\ RiskManager.shouldMoveToBreakEven position = true)
           \/ (call = ClosePosition (Position.ticket position)
               /\ Position.profit position < 0
               /\ budget <= - Position.profit position)))
  /\ (forall position,
         In position (Feed.getPositions feed) ->
         Position.profit position < 0 -> budget <= - Position.profit position ->
         In (ClosePosition (Position.ticket position)) calls)
  /\ (RiskManager.dailyStartBalance rm == 0 ->
      forall position,
        In position (Feed.getPositions feed) -> Position.profit position < 0 ->
        In (ClosePosition (Position.ticket position)) calls)
  /\ (length calls <= 2 * length (Feed.getPositions feed))%nat.
Proof.
  intros calls budget.
  assert (Hclose : forall position,
             RiskManager.shouldEmergencyClose rm position = true
             <-> Position.profit position < 0 /\ budget <= - Position.profit position).
  { intros position. unfold RiskManager.shouldEmergencyClose. fold budget.
    rewrite andb_true_iff, Qgeb_ge, Qltb_lt.
    destruct (Qabs_cases (Position.profit position)) as [[Hs Ha] | [Hs Ha]];
      rewrite Ha; split; intros [H1 H2]; split; lra. }
  assert (Hclosed : forall position,
             In position (Feed.getPositions feed) ->
             Position.profit position < 0 -> budget <= - Position.profit position ->
             In (ClosePosition (Position.ticket position)) calls).
  { intros position Hin Hloss Hbudget. subst calls. unfold RiskManager.monitorPositions.
    apply in_flat_map. exists position. split; [exact Hin|].
    unfold RiskManager.applyPositionRiskManagement. apply in_or_app. right.
    rewrite (proj2 (Hclose position) (conj Hloss Hbudget)). left. reflexivity. }
  split; [|split; [exact Hclosed|split]].
  - intros call Hin. subst calls. unfold RiskManager.monitorPositions in Hin.
    apply in_flat_map in Hin. destruct Hin as (position & Hpos & Hin).
    exists position. split; [exact Hpos|].
    unfold RiskManager.applyPositionRiskManagement in Hin. apply in_app_or in Hin.
    destruct Hin as [Hin | Hin].
    + destruct (RiskManager.shouldMoveToBreakEven position) eqn:Hmove; [|destruct Hin].
      destruct Hin as [Heq | []]. left. split; [symmetry; exact Heq | reflexivity].
    + destruct (RiskManager.shouldEmergencyClose rm position) eqn:Hemergency;
        [|destruct Hin].
      destruct Hin as [Heq | []]. right. apply Hclose in Hemergency.
      split; [symmetry; exact Heq | exact Hemergency].
  - intros Hzero position Hin Hloss. apply Hclosed; try assumption.
    subst budget. rewrite Hzero.
    assert (H0 : 0 * RiskParams.maxRiskPerTrade (RiskManager.riskParams rm) * 2 / 100 == 0)
      by field. lra.
  - apply monitorPositions_length.
Qed.

(** ** The daily reset *)

Lemma validateTrade_blocks_iff (rm : RiskManager.t) (feed : Feed.t) (signal : Signal)
    (accountInfo : AccountInfo.t) :
  RiskManager.isTradeBlocked rm = false ->
  Feed.getAccountInfo feed = Some accountInfo ->
  RiskManager.isTradeBlocked (fst (RiskManager.validateTrade rm feed signal)) = true
  <-> RiskManager.dailyStartBalance rm
      * RiskParams.maxDailyLoss (RiskManager.riskParams rm) / 100
      <= RiskManager.dailyStartBalance rm - AccountInfo.balance accountInfo.
Proof.
  intros Hfree Haccount.
  split.
  - unfold RiskManager.validateTrade.
    rewrite Hfree, Haccount. unfold RiskManager.checkDailyLossLimit.
    destruct (Qgeb _ _) eqn:Hloss; qbool; [intros _; exact Hloss|].
    cbn [negb ValidationCheck.passed].
    repeat match goal with
      | |- context [if ?c then _ else _] => destruct c
      end; cbn [fst]; congruence.
  - intros Hloss. unfold RiskManager.validateTrade.
    rewrite Hfree, Haccount, (checkDailyLossLimit_blocks rm accountInfo Hloss).
    reflexivity.
Qed.

(** X11.  resetDailyTracking clears the block.  When the account reply
    is available it also takes the balance as the new start of the day
    and zeroes the daily P&L, and the next validateTrade leaves the
    manager unblocked as long as the balance has lost less than
    maxDailyLoss percent of that new start.  When the reply is missing
    the old start balance is kept: if the balance is still at or below
    the limit measured from it, the next validateTrade blocks again. *)
Theorem reset_rebases_the_day (rm : RiskManager.t) (feed next : Feed.t) (signal : Signal)
    (later : AccountInfo.t) :
  Feed.getAccountInfo next = Some later ->
  let reset := RiskManager.resetDailyTracking rm feed in
  RiskManager.isTradeBlocked reset = false
  /\ RiskManager.riskParams reset = RiskManager.riskParams rm
  /\ (forall accountInfo,
         Feed.getAccountInfo feed = Some accountInfo ->
         RiskManager.dailyStartBalance reset = AccountInfo.balance accountInfo
         /\ RiskManager.dailyPL reset = 0
         /\ (AccountInfo.balance accountInfo - AccountInfo.balance later
             < AccountInfo.balance accountInfo
               * RiskParams.maxDailyLoss (RiskManager.riskParams rm) / 100 ->
             RiskManager.isTradeBlocked (fst (RiskManager.validateTrade reset next signal))
             = false))
  /\ (Feed.getAccountInfo feed = None ->
      RiskManager.dailyStartBalance reset = RiskManager.dailyStartBalance rm
      /\ RiskManager.dailyPL reset = RiskManager.dailyPL rm
      /\ (RiskManager.dailyStartBalance rm
          * RiskParams.maxDailyLoss (RiskManager.riskParams rm) / 100
          <= RiskManager.dailyStartBalance rm - AccountInfo.balance later ->
          RiskManager.isTradeBlocked (fst (RiskManager.validateTrade reset next signal))
          = true)).
Proof.
  intros Hlater reset. subst reset.
  unfold RiskManager.resetDailyTracking, RiskManager.initializeDailyTracking.
  destruct (Feed.getAccountInfo feed) as [accountInfo|].
  - split; [reflexivity|]. split; [reflexivity|]. split; [|discriminate].
    intros a Ha. inversion Ha; subst a. split; [reflexivity|]. split; [reflexivity|].
    intros Hsmall.
    match goal with
    | |- RiskManager.isTradeBlocked (fst (RiskManager.validateTrade ?m next signal)) = false =>
        destruct (RiskManager.isTradeBlocked (fst (RiskManager.validateTrade m next signal)))
          eqn:Hblocked; [|reflexivity];
        apply (validateTrade_blocks_iff m next signal later eq_refl Hlater) in Hblocked
    end.
    cbn [RiskManager.setBlocked RiskManager.isTradeBlocked RiskManager.riskParams
         RiskManager.dailyStartBalance RiskManager.dailyPL] in Hblocked. lra.
  - split; [reflexivity|]. split; [reflexivity|]. split; [intros a Ha; discriminate|].
    intros _. split; [reflexivity|]. split; [reflexivity|].
    intros Hloss.
    match goal with
    | |- RiskManager.isTradeBlocked (fst (RiskManager.validateTrade ?m next signal)) = true =>
        apply (validateTrade_blocks_iff m next signal later eq_refl Hlater)
    end.
    exact Hloss.
Qed.

(** The blocked manager of the daily-loss scenario, reset at a balance of
    9,400: a trade at 9,400 is not blocked any more. *)
Lemma reset_rebases_the_day_witness :
  let info := Scenario.eurusdInfo 0.01 5.0 0.01 in
  let blocked := RiskManager.setBlocked Scenario.managerAt10000 true in
  let reset := RiskManager.resetDailyTracking blocked (Scenario.feed 9400 info) in
  RiskManager.isTradeBlocked reset = false
  /\ RiskManager.dailyStartBalance reset = 9400
  /\ RiskManager.isTradeBlocked
       (fst (RiskManager.validateTrade reset (Scenario.feed 9400 info)
               (Scenario.buySignal 1.12))) = false.
Proof.
  intros info blocked reset.
  destruct (reset_rebases_the_day blocked (Scenario.feed 9400 info) (Scenario.feed 9400 info)
              (Scenario.buySignal 1.12) (Scenario.account 9400) eq_refl)
    as (Hfree & _ & Hknown & _).
  destruct (Hknown (Scenario.account 9400) eq_refl) as (Hstart & _ & Hnext).
  split; [exact Hfree|]. split; [exact Hstart|].
  apply Hnext. vm_compute. reflexivity.
Defined.

(** ** The learning engine: what one outcome changes *)

Section LearningFrame.
Context {N : Type} `{JSNumber N}.

Lemma getSymbolWeight_other_strategy (le : LearningEngine.t N) (history : SignalHistory.t N)
    (other symbol : string) :
  other <> StrategySignal.strategy (SignalHistory.signal history) ->
  LearningEngine.getSymbolWeight (LearningEngine.updateFromTrade le history) other symbol
  = LearningEngine.getSymbolWeight le other symbol.
Proof.
  intros Hother. unfold LearningEngine.updateFromTrade, LearningEngine.getSymbolWeight.
  destruct (SignalHistory.outcome history) as [outcome|]; [|reflexivity].
  cbn [LearningEngine.symbolPerformance].
  destruct (decide (StrategySignal.symbol (SignalHistory.signal history) = symbol))
    as [Hsame | Hdiff].
  - subst symbol. rewrite lookup_insert_eq.
    rewrite lookup_insert_ne by congruence.
    destruct (LearningEngine.symbolPerformance le
                !! StrategySignal.symbol (SignalHistory.signal history)); reflexivity.
  - rewrite lookup_insert_ne by exact Hdiff. reflexivity.
Qed.

Lemma getSymbolWeight_other_symbol (le : LearningEngine.t N) (history : SignalHistory.t N)
    (strategy symbol : string) :
  symbol <> StrategySignal.symbol (SignalHistory.signal history) ->
  LearningEngine.getSymbolWeight (LearningEngine.updateFromTrade le history) strategy symbol
  = LearningEngine.getSymbolWeight le strategy symbol.
Proof.
  intros Hother. unfold LearningEngine.updateFromTrade, LearningEngine.getSymbolWeight.
  destruct (SignalHistory.outcome history) as [outcome|]; [|reflexivity].
  cbn [LearningEngine.symbolPerformance].
  rewrite lookup_insert_ne by congruence. reflexivity.
Qed.

(** X12.  The outcome of a trade changes the weight of the strategy that
    gave the signal and the weight of that strategy on the symbol of the
    signal, nothing else: the weight of any other strategy, its weight on
    every symbol and the score of each of its signals are what they were,
    and so is the weight of every strategy on any other symbol.  A
    history entry without outcome changes nothing at all. *)
Theorem outcome_changes_one_strategy (le : LearningEngine.t N) (history : SignalHistory.t N)
    (other : string) :
  other <> StrategySignal.strategy (SignalHistory.signal history) ->
  let le' := LearningEngine.updateFromTrade le history in
  LearningEngine.getStrategyWeight le' other = LearningEngine.getStrategyWeight le other
  /\ (forall symbol,
         LearningEngine.getSymbolWeight le' other symbol
         = LearningEngine.getSymbolWeight le other symbol)
  /\ (forall symbol ohlc signal,
         StrategySignal.strategy signal = other ->
         LearningEngine.totalScore le' symbol ohlc signal
         = LearningEngine.totalScore le symbol ohlc signal)
  /\ (forall strategy symbol,
         symbol <> StrategySignal.symbol (SignalHistory.signal history) ->
         LearningEngine.getSymbolWeight le' strategy symbol
         = LearningEngine.getSymbolWeight le strategy symbol)
  /\ (SignalHistory.outcome history = None -> le' = le).
Proof.
  intros Hother le'.
  assert (Hweight : LearningEngine.getStrategyWeight le' other
                    = LearningEngine.getStrategyWeight le other).
  { subst le'. unfold LearningEngine.updateFromTrade, LearningEngine.getStrategyWeight.
    destruct (SignalHistory.outcome history) as [outcome|]; [|reflexivity].
    cbn [LearningEngine.strategyWeights].
    rewrite lookup_insert_ne by congruence. reflexivity. }
  split; [exact Hweight|].
  split; [intros symbol; apply getSymbolWeight_other_strategy; exact Hother|].
  split.
  - intros symbol ohlc signal Hsignal. unfold LearningEngine.totalScore.
    rewrite Hsignal, Hweight.
    subst le'. rewrite (getSymbolWeight_other_strategy le history other symbol Hother).
    reflexivity.
  - split.
    + intros strategy symbol Hsymbol. apply getSymbolWeight_other_symbol. exact Hsymbol.
    + intros Hnone. subst le'. unfold LearningEngine.updateFromTrade.
      rewrite Hnone. reflexivity.
Qed.
End LearningFrame.

(** A win of strategy A leaves the weight of B at 0.8. *)
Lemma outcome_changes_one_strategy_witness :
  let history :=
    SignalHistory.mk (Scenario.candidateA (N := Q)) 1 0 (Some (TradeOutcome.mk win 50 0)) in
  LearningEngine.getStrategyWeight
    (LearningEngine.updateFromTrade Scenario.weightsAB history) "B"
  = LearningEngine.getStrategyWeight (Scenario.weightsAB (N := Q)) "B".
Proof.
  intros history.
  destruct (outcome_changes_one_strategy (N := Q) Scenario.weightsAB history "B")
    as [Hweight _]; [discriminate | exact Hweight].
Defined.

(** ** The learning engine: runs of equal outcomes *)

Lemma getStrategyWeight_range (le : LearningEngine.t Q) (strategy : string) :
  weightsInRange le ->
  0.1 <= LearningEngine.getStrategyWeight le strategy
  /\ LearningEngine.getStrategyWeight le strategy <= 2.0.
Proof.
  intros [Hstrategy _]. unfold LearningEngine.getStrategyWeight, LearningEngine.orElse.
  destruct (LearningEngine.strategyWeights le !! strategy) as [w|] eqn:Hw.
  - destruct (truthy w); [exact (Hstrategy _ _ Hw) | cbn; lra].
  - cbn. lra.
Qed.

Lemma getSymbolWeight_range (le : LearningEngine.t Q) (strategy symbol : string) :
  weightsInRange le ->
  0.1 <= LearningEngine.getSymbolWeight le strategy symbol
  /\ LearningEngine.getSymbolWeight le strategy symbol <= 2.0.
Proof.
  intros [_ Hsymbol]. unfold LearningEngine.getSymbolWeight, LearningEngine.orElse.
  destruct (LearningEngine.symbolPerformance le !! symbol) as [symbolMap|] eqn:Hmap;
    [|cbn; lra].
  destruct (symbolMap !! strategy) as [w|] eqn:Hw; [|cbn; lra].
  destruct (truthy w); [exact (Hsymbol _ _ _ _ Hmap Hw) | cbn; lra].
Qed.

Lemma orElse_clampWeight (w fallback : Q) :
  LearningEngine.orElse (Some (LearningEngine.clampWeight w)) fallback
  = LearningEngine.clampWeight w.
Proof.
  unfold LearningEngine.orElse. cbn [truthy Q_number].
  destruct (Qeq_bool (LearningEngine.clampWeight w) 0) eqn:Hzero; [|reflexivity].
  apply Qeq_bool_iff in Hzero. pose proof (clampWeight_range w) as [Hlow _]. lra.
Qed.

(** The two weights updateFromTrade stores, read back. *)
Lemma updateFromTrade_weights (le : LearningEngine.t Q) (history : SignalHistory.t Q)
    (outcome : TradeOutcome.t Q) :
  SignalHistory.outcome history = Some outcome ->
  let strategy := StrategySignal.strategy (SignalHistory.signal history) in
  let symbol := StrategySignal.symbol (SignalHistory.signal history) in
  let le' := LearningEngine.updateFromTrade le history in
  LearningEngine.getStrategyWeight le' strategy
  = LearningEngine.clampWeight
      (LearningEngine.getStrategyWeight le strategy
       + strategyAdjustment (TradeOutcome.result outcome))
  /\ LearningEngine.getSymbolWeight le' strategy symbol
     = LearningEngine.clampWeight
         (LearningEngine.getSymbolWeight le strategy symbol
          + symbolAdjustment (TradeOutcome.result outcome)).
Proof.
  intros Houtcome strategy symbol le'. subst le' strategy symbol.
  unfold LearningEngine.updateFromTrade. rewrite Houtcome.
  unfold LearningEngine.getStrategyWeight, LearningEngine.getSymbolWeight.
  cbn [LearningEngine.strategyWeights LearningEngine.symbolPerformance].
  rewrite !lookup_insert_eq.
  split.
  - rewrite orElse_clampWeight. unfold strategyAdjustment.
    destruct (TradeOutcome.result outcome); reflexivity.
  - rewrite orElse_clampWeight. unfold symbolAdjustment.
    destruct (LearningEngine.symbolPerformance le
                !! StrategySignal.symbol (SignalHistory.signal history));
      destruct (TradeOutcome.result outcome); reflexivity.
Qed.

Lemma count_succ (n : nat) : inject_Z (Z.of_nat (S n)) == inject_Z (Z.of_nat n) + 1.
Proof.
  rewrite Nat2Z.inj_succ, <- Z.add_1_r, inject_Z_plus. reflexivity.
Qed.

Lemma count_nonneg (n : nat) : 0 <= inject_Z (Z.of_nat n).
Proof.
  change 0 with (inject_Z 0). rewrite <- Zle_Qle. lia.
Qed.

(** One step of a run of wins, and of a run of losses, on a weight in
    range. *)
Lemma clamp_run_up (a w k k' x : Q) :
  0 < a -> 0.1 <= w -> w <= 2.0 -> 0 <= k -> k' == k + 1 ->
  x == Qmin 2.0 (LearningEngine.clampWeight (w + a) + a * k) ->
  x == Qmin 2.0 (w + a * k').
Proof.
  intros Ha Hlow Hhigh Hk Hnext Hx.
  assert (Hak : 0 <= a * k) by (apply Qmult_le_0_compat; lra).
  assert (Hdistr : a * k' == a * k + a) by (rewrite Hnext; ring).
  unfold LearningEngine.clampWeight in Hx. cbn [nmax nmin lit Q_number] in Hx.
  rewrite Hx.
  destruct (Qmin_cases 2.0 (w + a)) as [[? Hinner] | [? Hinner]]; rewrite Hinner;
    (destruct (Qmax_cases 0.1 (Qmin 2.0 (w + a))) as [[? Houter] | [? Houter]]);
    rewrite Hinner in *; rewrite Houter;
    (destruct (Qmin_cases 2.0 (w + a * k')) as [[? Hright] | [? Hright]]);
    rewrite Hright;
    match goal with
    | |- Qmin ?p ?q == _ =>
        destruct (Qmin_cases p q) as [[? Hleft] | [? Hleft]]; rewrite Hleft
    end; lra.
Qed.

Lemma clamp_run_down (a w k k' x : Q) :
  a < 0 -> 0.1 <= w -> w <= 2.0 -> 0 <= k -> k' == k + 1 ->
  x == Qmax 0.1 (LearningEngine.clampWeight (w + a) + a * k) ->
  x == Qmax 0.1 (w + a * k').
Proof.
  intros Ha Hlow Hhigh Hk Hnext Hx.
  assert (Hak : a * k <= 0).
  { assert (H0 : 0 <= (- a) * k) by (apply Qmult_le_0_compat; lra).
    assert (Hneg : (- a) * k == - (a * k)) by ring. lra. }
  assert (Hdistr : a * k' == a * k + a) by (rewrite Hnext; ring).
  unfold LearningEngine.clampWeight in Hx. cbn [nmax nmin lit Q_number] in Hx.
  rewrite Hx.
  destruct (Qmin_cases 2.0 (w + a)) as [[? Hinner] | [? Hinner]]; rewrite Hinner;
    (destruct (Qmax_cases 0.1 (Qmin 2.0 (w + a))) as [[? Houter] | [? Houter]]);
    rewrite Hinner in *; rewrite Houter;
    (destruct (Qmax_cases 0.1 (w + a * k')) as [[? Hright] | [? Hright]]);
    rewrite Hright;
    match goal with
    | |- Qmax ?p ?q == _ =>
        destruct (Qmax_cases p q) as [[? Hleft] | [? Hleft]]; rewrite Hleft
    end; lra.
Qed.

(** X13.  A run of n outcomes of one kind for one strategy on one
    symbol, on an engine whose weights are in range, moves the two
    weights by n times the adjustment and stops at the bound: after n
    wins the strategy weight is min(2.0, w + 0.05 n) and the symbol
    weight min(2.0, v + 0.03 n); after n losses they are
    max(0.1, w - 0.02 n) and max(0.1, v - 0.01 n), where w and v are the
    weights read before the run (1.0 for a key without entry). *)
Theorem run_of_equal_outcomes (le : LearningEngine.t Q) (histories : list (SignalHistory.t Q))
    (strategy symbol : string) (result : TradeResultKind) :
  weightsInRange le ->
  List.Forall
    (fun history =>
       StrategySignal.strategy (SignalHistory.signal history) = strategy
       /\ StrategySignal.symbol (SignalHistory.signal history) = symbol
       /\ exists outcome,
            SignalHistory.outcome history = Some outcome
            /\ TradeOutcome.result outcome = result)
    histories ->
  let n := inject_Z (Z.of_nat (length histories)) in
  let le' := LearningEngine.updateFromTrades le histories in
  let bound := match result with win => Qmin 2.0 | loss => Qmax 0.1 end in
  LearningEngine.getStrategyWeight le' strategy
  == bound (LearningEngine.getStrategyWeight le strategy + strategyAdjustment result * n)
  /\ LearningEngine.getSymbolWeight le' strategy symbol
     == bound (LearningEngine.getSymbolWeight le strategy symbol
               + symbolAdjustment result * n).
Proof.
  intros Hrange Hrun. revert le Hrange.
  induction Hrun as [|history rest (Hstrategy & Hsymbol & outcome & Houtcome & Hresult) _ IH];
    intros le Hrange n le' bound.
  - subst n le' bound. cbn [length Z.of_nat LearningEngine.updateFromTrades fold_left].
    pose proof (getStrategyWeight_range le strategy Hrange) as [? ?].
    pose proof (getSymbolWeight_range le strategy symbol Hrange) as [? ?].
    change (inject_Z (Z.of_nat 0)) with 0.
    destruct result; unfold strategyAdjustment, symbolAdjustment;
      split;
      match goal with
      | |- _ == Qmin ?p ?q => destruct (Qmin_cases p q) as [[? Hm] | [? Hm]]; rewrite Hm
      | |- _ == Qmax ?p ?q => destruct (Qmax_cases p q) as [[? Hm] | [? Hm]]; rewrite Hm
      end; lra.
  - subst n le' bound.
    specialize (IH (LearningEngine.updateFromTrade le history)
                   (updateFromTrade_weightsInRange le history Hrange)).
    cbn zeta in IH. destruct IH as [IHstrategy IHsymbol].
    destruct (updateFromTrade_weights le history outcome Houtcome) as [Hw Hv].
    rewrite Hstrategy, Hresult in Hw. rewrite Hstrategy, Hsymbol, Hresult in Hv.
    rewrite Hw in IHstrategy. rewrite Hv in IHsymbol.
    pose proof (getStrategyWeight_range le strategy Hrange) as [? ?].
    pose proof (getSymbolWeight_range le strategy symbol Hrange) as [? ?].
    pose proof (count_nonneg (length rest)) as Hk.
    change (LearningEngine.updateFromTrades le (history :: rest))
      with (LearningEngine.updateFromTrades (LearningEngine.updateFromTrade le history) rest).
    cbn [length]. pose proof (count_succ (length rest)) as Hnext.
    destruct result; unfold strategyAdjustment, symbolAdjustment in *.
    + split; apply (clamp_run_up _ _ (inject_Z (Z.of_nat (length rest))));
        (lra || assumption).
    + split; apply (clamp_run_down _ _ (inject_Z (Z.of_nat (length rest))));
        (lra || assumption).
Qed.

(** Thirty wins of the SMC strategy on EURUSD, from the weights of the
    constructor: both weights have gone from 1.0 to 2.0 and 1.9. *)
Lemma run_of_equal_outcomes_witness :
  let history :=
    SignalHistory.mk (Scenario.buySignal 1.12) 1 0 (Some (TradeOutcome.mk win 50 0)) in
  let le := LearningEngine.updateFromTrades LearningEngine.create (replicate 30 history) in
  LearningEngine.getStrategyWeight le "SMC (Smart Money)" == 2.0
  /\ LearningEngine.getSymbolWeight le "SMC (Smart Money)" "EURUSD" == 1.9.
Proof.
  intros history le.
  destruct (run_of_equal_outcomes LearningEngine.create (replicate 30 history)
              "SMC (Smart Money)" "EURUSD" win create_weightsInRange)
    as [Hstrategy Hsymbol].
  - vm_compute replicate. repeat econstructor.
  - subst le. split.
    + rewrite Hstrategy. vm_compute. reflexivity.
    + rewrite Hsymbol. vm_compute. reflexivity.
Defined.

(** ** The performance record of a strategy *)

Lemma count_S (n : nat) : count (S n) == count n + 1.
Proof. apply count_succ. Qed.

Lemma count_pos (n : nat) : 0 <= count n.
Proof. apply count_nonneg. Qed.

Lemma sum_snoc (data : list Q) (x : Q) : sum (data ++ [x]) = sum data + x.
Proof.
  unfold sum. rewrite fold_left_app. reflexivity.
Qed.

Lemma performanceOf_create : performanceOf [] StrategyPerformance.create.
Proof.
  unfold performanceOf. cbn.
  repeat split; try reflexivity; try lra; try (intros; lra).
Qed.


Lemma Qdiv_cancel (x y : Q) : 0 < y -> x / y * y == x.
Proof. intros Hy. field. lra. Qed.

Lemma Qabs_of_loss (x : Q) : x <= 0 -> Qabs x == - x.
Proof. intros Hx. apply Qabs_neg. exact Hx. Qed.

Lemma performanceOf_step (profits : list Q) (p : StrategyPerformance.t)
    (trade : TradeResult.t) :
  performanceOf profits p ->
  performanceOf (profits ++ [TradeResult.profit trade])
    (StrategyPerformance.updatePerformance p trade).
Proof.
  unfold performanceOf. cbn zeta.
  intros (Htotal & Hwins & Hlosses & Hprofit & HavgWin & HavgLoss & Hnonneg & Hnone
          & Hrate & Hfactor & Hstale & Hdrawdown & Hbound & Hattained).
  set (profit := TradeResult.profit trade).
  rewrite !List.filter_app, !List.length_app.
  unfold StrategyPerformance.updatePerformance. fold profit.
  cbn [StrategyPerformance.totalTrades StrategyPerformance.winningTrades
       StrategyPerformance.losingTrades StrategyPerformance.totalProfit
       StrategyPerformance.winRate StrategyPerformance.avgWin StrategyPerformance.avgLoss
       StrategyPerformance.profitFactor StrategyPerformance.maxDrawdown].
  cbn [List.filter].
  pose proof (count_S (length (List.filter (fun x => Qgtb x 0) profits))) as HcW.
  pose proof (count_pos (length (List.filter (fun x => Qgtb x 0) profits))) as HpW.
  pose proof (count_S (length (List.filter (fun x => negb (Qgtb x 0)) profits))) as HcL.
  pose proof (count_pos (length (List.filter (fun x => negb (Qgtb x 0)) profits))) as HpL.
  pose proof (count_S (length profits)) as HcT.
  pose proof (count_pos (length profits)) as HpT.
  rewrite Htotal, Hwins, Hlosses.
  destruct (Qgtb profit 0) eqn:Hwin; cbn [negb length]; rewrite ?Nat.add_0_r, ?Nat.add_1_r;
    rewrite ?sum_snoc, ?app_nil_r; qbool.
  - (* a winning trade *)
    set (cW := count (length (List.filter (fun x => Qgtb x 0) profits))) in *.
    set (cW' := count (S (length (List.filter (fun x => Qgtb x 0) profits)))) in *.
    set (cT := count (length profits)) in *.
    set (cT' := count (S (length profits))) in *.
    assert (Hmean : StrategyPerformance.avgWin p * (cW' - 1)
                    == StrategyPerformance.avgWin p * cW) by (rewrite HcW; ring).
    split; [reflexivity|]. split; [reflexivity|]. split; [reflexivity|].
    split; [rewrite Hprofit; reflexivity|].
    split; [rewrite Qdiv_cancel by lra; rewrite Hmean, HavgWin; reflexivity|].
    split; [exact HavgLoss|]. split; [exact Hnonneg|]. split; [exact Hnone|].
    split; [field; lra|].
    split; [intros Hpos; destruct (Qgtb (StrategyPerformance.avgLoss p) 0) eqn:Hgt;
            qbool; [reflexivity | lra]|].
    split; [intros Hzero; destruct (Qgtb (StrategyPerformance.avgLoss p) 0) eqn:Hgt;
            qbool; [lra | apply Hstale; exact Hzero]|].
    assert (Hnot : Qltb profit 0 = false) by (apply Qltb_ge; lra).
    rewrite Hnot. cbn [andb].
    split; [exact Hdrawdown|].
    split.
    + intros x Hin. apply List.in_app_iff in Hin. destruct Hin as [Hin | [Hx | []]].
      * apply Hbound. exact Hin.
      * subst x. lra.
    + intros Hpos. destruct (Hattained Hpos) as (x & Hin & Hneg & Hmax).
      exists x. split; [apply List.in_app_iff; left; exact Hin|]. split; assumption.
  - (* a losing trade *)
    set (cL := count (length (List.filter (fun x => negb (Qgtb x 0)) profits))) in *.
    set (cL' := count (S (length (List.filter (fun x => negb (Qgtb x 0)) profits)))) in *.
    set (cT := count (length profits)) in *.
    set (cT' := count (S (length profits))) in *.
    set (L := StrategyPerformance.avgLoss p) in *.
    pose proof (Qabs_of_loss profit Hwin) as Habs.
    assert (Hmean : L * (cL' - 1) == L * cL) by (rewrite HcL; ring).
    assert (Hprod : 0 <= L * cL) by (apply Qmult_le_0_compat; assumption).
    set (L' := (L * (cL' - 1) + Qabs profit) / cL') in *.
    assert (HL' : L' * cL' == L * cL + Qabs profit).
    { unfold L'. rewrite Qdiv_cancel by lra. rewrite Hmean. reflexivity. }
    assert (HL'nonneg : 0 <= L').
    { unfold L'. apply Qle_shift_div_l; lra. }
    split; [reflexivity|]. split; [reflexivity|]. split; [reflexivity|].
    split; [rewrite Hprofit; reflexivity|].
    split; [exact HavgWin|].
    split; [rewrite HL', HavgLoss, Habs; ring|].
    split; [exact HL'nonneg|].
    split; [intros Hnever; discriminate Hnever|].
    split; [field; lra|].
    split; [intros Hpos; destruct (Qgtb L' 0) eqn:Hgt; qbool; [reflexivity | lra]|].
    split.
    { intros Hzero. destruct (Qgtb L' 0) eqn:Hgt; qbool; [lra|].
      apply Hstale. fold L.
      assert (HL0 : L * cL == 0).
      { assert (Hz : L' * cL' == 0) by (assert (E : L' == 0) by lra; rewrite E; ring).
        pose proof (Qabs_nonneg profit). lra. }
      destruct (length (List.filter (fun x => negb (Qgtb x 0)) profits)) as [|m] eqn:Hlen.
      - rewrite (Hnone eq_refl). lra.
      - apply Qmult_integral in HL0. destruct HL0 as [HL0 | HL0]; [lra|].
        subst cL. pose proof (count_S m) as Hm. pose proof (count_pos m). lra. }
    pose proof (Qabs_nonneg profit) as Habs0.
    assert (Hnew : StrategyPerformance.maxDrawdown p
                   <= (if Qltb profit 0 && Qgtb (Qabs profit) (StrategyPerformance.maxDrawdown p)
                       then Qabs profit else StrategyPerformance.maxDrawdown p)).
    { destruct (Qltb profit 0 && Qgtb (Qabs profit) (StrategyPerformance.maxDrawdown p))
        eqn:Hdeeper; qbool; lra. }
    split; [lra|].
    split.
    + intros x Hin. apply List.in_app_iff in Hin. destruct Hin as [Hin | [Hx | []]].
      * specialize (Hbound x Hin). lra.
      * subst x.
        destruct (Qltb profit 0) eqn:Hneg; cbn [andb]; qbool.
        -- destruct (Qgtb (Qabs profit) (StrategyPerformance.maxDrawdown p)) eqn:Hdeeper;
             qbool; lra.
        -- lra.
    + destruct (Qltb profit 0 && Qgtb (Qabs profit) (StrategyPerformance.maxDrawdown p))
        eqn:Hdeeper; qbool.
      * intros _. exists profit. split; [apply List.in_app_iff; right; left; reflexivity|].
        split; [assumption | reflexivity].
      * intros Hpos. destruct (Hattained Hpos) as (x & Hin & Hneg & Hmax).
        exists x. split; [apply List.in_app_iff; left; exact Hin|]. split; assumption.
Qed.

Lemma performanceOf_updatePerformances (trades : list TradeResult.t) :
  forall (profits : list Q) (p : StrategyPerformance.t),
    performanceOf profits p ->
    performanceOf (profits ++ map TradeResult.profit trades)
      (StrategyPerformance.updatePerformances p trades).
Proof.
  induction trades as [|trade rest IH]; intros profits p Hp.
  - cbn. rewrite app_nil_r. exact Hp.
  - cbn [map]. change (profits ++ TradeResult.profit trade :: map TradeResult.profit rest)
      with (profits ++ [TradeResult.profit trade] ++ map TradeResult.profit rest).
    rewrite app_assoc. apply IH. apply performanceOf_step. exact Hp.
Qed.

Lemma sum_from (data : list Q) : forall a, fold_left Qplus data a == a + sum data.
Proof.
  unfold sum. induction data as [|x rest IH]; intros a; cbn [fold_left].
  - lra.
  - rewrite (IH (a + x)), (IH (0 + x)). lra.
Qed.

Lemma sum_cons (x : Q) (data : list Q) : sum (x :: data) == x + sum data.
Proof.
  unfold sum at 1. cbn [fold_left]. rewrite sum_from. lra.
Qed.

Lemma sum_partition (test : Q -> bool) (data : list Q) :
  sum data == sum (List.filter test data) + sum (List.filter (fun x => negb (test x)) data).
Proof.
  induction data as [|x rest IH]; [reflexivity|].
  cbn [List.filter]. destruct (test x); cbn [negb]; rewrite ?sum_cons, IH; lra.
Qed.

Lemma length_partition {A : Type} (test : A -> bool) (data : list A) :
  (length (List.filter test data) + length (List.filter (fun x => negb (test x)) data)
   = length data)%nat.
Proof.
  induction data as [|x rest IH]; [reflexivity|].
  cbn [List.filter]. destruct (test x); cbn [negb length]; lia.
Qed.

Lemma count_le (n m : nat) : (n <= m)%nat -> count n <= count m.
Proof.
  intros Hle. unfold count. rewrite <- Zle_Qle. lia.
Qed.

(** X14.  After any sequence of closed trades, starting from the record
    of the constructor (which is also the record of resetPerformance):
    totalTrades is the number of trades, winningTrades the number with a
    profit above 0 and losingTrades the number with a profit of 0 or
    less (a trade that breaks even counts as a loss), so wins and losses
    add up to the total; totalProfit is the sum of the profits and equals
    avgWin * wins - avgLoss * losses; winRate is 100 * wins / total and
    lies between 0 and 100; maxDrawdown is the largest loss of a single
    trade (0 without a losing trade); profitFactor is avgWin / avgLoss as
    soon as a trade has lost money and stays 0 until then, however many
    trades have won. *)
Theorem performance_after_trades (trades : list TradeResult.t) :
  let p := StrategyPerformance.updatePerformances StrategyPerformance.create trades in
  let profits := map TradeResult.profit trades in
  let wins := List.filter (fun x => Qgtb x 0) profits in
  let losses := List.filter (fun x => negb (Qgtb x 0)) profits in
  StrategyPerformance.totalTrades p = length trades
  /\ StrategyPerformance.winningTrades p = length wins
  /\ StrategyPerformance.losingTrades p = length losses
  /\ (StrategyPerformance.winningTrades p + StrategyPerformance.losingTrades p
      = StrategyPerformance.totalTrades p)%nat
  /\ StrategyPerformance.totalProfit p == sum profits
  /\ StrategyPerformance.totalProfit p
     == StrategyPerformance.avgWin p * count (StrategyPerformance.winningTrades p)
        - StrategyPerformance.avgLoss p * count (StrategyPerformance.losingTrades p)
  /\ StrategyPerformance.winRate p * count (length trades) == 100 * count (length wins)
  /\ 0 <= StrategyPerformance.winRate p
  /\ StrategyPerformance.winRate p <= 100
  /\ (forall x, In x profits -> - x <= StrategyPerformance.maxDrawdown p)
  /\ (StrategyPerformance.maxDrawdown p == 0
      \/ exists x, In x profits /\ x < 0 /\ StrategyPerformance.maxDrawdown p = Qabs x)
  /\ ((exists x, In x profits /\ x < 0) ->
      StrategyPerformance.profitFactor p
      = StrategyPerformance.avgWin p / StrategyPerformance.avgLoss p)
  /\ ((forall x, In x profits -> 0 <= x) -> StrategyPerformance.profitFactor p = 0).
Proof.
  intros p profits wins losses.
  pose proof (performanceOf_updatePerformances trades [] StrategyPerformance.create
                performanceOf_create) as Hp.
  cbn [app] in Hp. fold p profits in Hp. unfold performanceOf in Hp. cbn zeta in Hp.
  fold wins losses in Hp.
  destruct Hp as (Htotal & Hwins & Hlosses & Hprofit & HavgWin & HavgLoss & Hnonneg & Hnone
                  & Hrate & Hfactor & Hstale & Hdrawdown & Hbound & Hattained).
  assert (Hlength : length profits = length trades) by (subst profits; apply length_map).
  pose proof (length_partition (fun x => Qgtb x 0) profits) as Hsplit.
  change (length wins + length losses = length profits)%nat in Hsplit.
  pose proof (sum_partition (fun x => Qgtb x 0) profits) as Hsums.
  change (sum profits == sum wins + sum losses) in Hsums.
  rewrite Hlength in *.
  split; [exact Htotal|]. split; [exact Hwins|]. split; [exact Hlosses|].
  split; [rewrite Hwins, Hlosses, Htotal; exact Hsplit|]. split; [exact Hprofit|].
  split; [rewrite Hwins, Hlosses; lra|].
  split; [exact Hrate|].
  assert (Hwinrate : 0 <= StrategyPerformance.winRate p
                     /\ StrategyPerformance.winRate p <= 100).
  { destruct trades as [|trade rest] eqn:Htrades.
    - subst p. cbn. lra.
    - pose proof (count_S (length rest)) as Hc. pose proof (count_pos (length rest)).
      pose proof (count_pos (length wins)).
      assert (Hle : count (length wins) <= count (length (trade :: rest)))
        by (apply count_le; lia).
      cbn [length] in *.
      set (r := StrategyPerformance.winRate p) in *.
      set (c := count (S (length rest))) in *.
      set (w := count (length wins)) in *.
      split; nra. }
  split; [apply Hwinrate|]. split; [apply Hwinrate|].
  split; [exact Hbound|].
  split.
  { destruct (Qlt_le_dec 0 (StrategyPerformance.maxDrawdown p)) as [Hpos | Hzero].
    - right. apply Hattained. exact Hpos.
    - left. lra. }
  split.
  - intros (x & Hin & Hneg). apply Hfactor.
    assert (Hloss : In x losses).
    { subst losses. apply List.filter_In. split; [exact Hin|].
      apply negb_true_iff. apply Qgtb_le. lra. }
    destruct (Qlt_le_dec 0 (StrategyPerformance.avgLoss p)) as [Hpos | Hzero]; [exact Hpos|].
    exfalso.
    assert (Hsum : forall data, (forall y, In y data -> y <= 0) -> In x data -> sum data < 0).
    { induction data as [|y rest IH]; intros Hall Hx; [destruct Hx|].
      rewrite sum_cons.
      assert (Hrest : sum rest <= 0).
      { clear IH Hx. induction rest as [|z rest' IH']; [cbn; lra|].
        rewrite sum_cons.
        assert (z <= 0) by (apply Hall; right; left; reflexivity).
        assert (sum rest' <= 0).
        { apply IH'. intros y' Hy'. apply Hall. destruct Hy' as [Hy' | Hy'].
          - left. exact Hy'.
          - right. right. exact Hy'. }
        lra. }
      destruct Hx as [Hx | Hx].
      - subst y. lra.
      - assert (y <= 0) by (apply Hall; left; reflexivity).
        assert (sum rest < 0) by (apply IH; [intros y' Hy'; apply Hall; right; exact Hy' | exact Hx]).
        lra. }
    assert (Hnegative : sum losses < 0).
    { apply Hsum; [|exact Hloss]. intros y Hy. subst losses.
      apply List.filter_In in Hy. destruct Hy as [_ Hy].
      apply negb_true_iff in Hy. apply Qgtb_le in Hy. exact Hy. }
    assert (Hz : StrategyPerformance.avgLoss p == 0) by lra.
    rewrite Hz in HavgLoss. lra.
  - intros Hall. apply Hstale.
    destruct (length losses) as [|m] eqn:Hlen.
    + rewrite (Hnone eq_refl). lra.
    + assert (Hzero : sum losses == 0).
      { assert (Hzeros : forall data, (forall y, In y data -> y == 0) -> sum data == 0).
        { induction data as [|y rest IH]; intros Hy; [reflexivity|].
          rewrite sum_cons, IH, (Hy y) by (try (left; reflexivity); intros; apply Hy; right; assumption).
          lra. }
        apply Hzeros. intros y Hy. subst losses. apply List.filter_In in Hy.
        destruct Hy as [Hin Hy]. apply negb_true_iff in Hy. apply Qgtb_le in Hy.
        specialize (Hall y Hin). lra. }
      rewrite Hzero in HavgLoss.
      assert (Hprod : StrategyPerformance.avgLoss p * count (S m) == 0) by lra.
      apply Qmult_integral in Hprod. destruct Hprod as [Hprod | Hprod]; [lra|].
      pose proof (count_S m). pose proof (count_pos m). lra.
Qed.

(** ** The indicators of BaseStrategy *)

Lemma In_slice (data : list Q) (start finish : nat) (x : Q) :
  In x (Indicators.slice data start finish) -> In x data.
Proof.
  unfold Indicators.slice. intros Hin.
  apply In_take in Hin. revert start Hin.
  induction data as [|y rest IH]; intros [|start] Hin; cbn in Hin; try assumption.
  right. apply (IH start). exact Hin.
Qed.

Lemma length_slice (data : list Q) (start finish : nat) :
  (finish <= length data)%nat ->
  length (Indicators.slice data start finish) = (finish - start)%nat.
Proof.
  intros Hfinish. unfold Indicators.slice.
  rewrite List.length_firstn, List.length_skipn. lia.
Qed.

Lemma sum_bounds (lo hi : Q) (data : list Q) :
  (forall x, In x data -> lo <= x /\ x <= hi) ->
  count (length data) * lo <= sum data /\ sum data <= count (length data) * hi.
Proof.
  induction data as [|x rest IH]; intros Hall.
  - change (count (length [])) with 0. change (sum []) with 0. lra.
  - cbn [length]. rewrite sum_cons.
    assert (Hlo : count (S (length rest)) * lo == count (length rest) * lo + lo)
      by (rewrite count_S; ring).
    assert (Hhi : count (S (length rest)) * hi == count (length rest) * hi + hi)
      by (rewrite count_S; ring).
    destruct (Hall x (or_introl eq_refl)).
    destruct IH as [? ?]; [intros y Hy; apply Hall; right; exact Hy|].
    lra.
Qed.

(** X15.  For a period of one bar or more, calculateSMA returns one
    value per window of period consecutive values, length + 1 - period
    in all (none when the data is shorter than the period); the value at
    position j is the mean of the values j .. j + period - 1, and lies
    between any two bounds of the data. *)
Theorem sma_is_window_mean (data : list Q) (period : nat) (lo hi : Q) :
  (1 <= period)%nat ->
  (forall x, In x data -> lo <= x /\ x <= hi) ->
  length (Indicators.calculateSMA data period) = (length data + 1 - period)%nat
  /\ forall j, (j < length data + 1 - period)%nat ->
       exists v,
         nth j (Indicators.calculateSMA data period) NaN = Fin v
         /\ v * count period == sum (Indicators.slice data j (j + period))
         /\ lo <= v /\ v <= hi.
Proof.
  intros Hperiod Hbounds.
  destruct period as [|period']; [lia|].
  assert (Hc : 0 < count (S period')).
  { pose proof (count_S period'). pose proof (count_pos period'). lra. }
  unfold Indicators.calculateSMA.
  remember (S period') as period eqn:Hp.
  split; [rewrite length_map, length_seq; lia|].
  intros j Hj.
  set (average := fun i => js_div _ _).
  rewrite (List.nth_indep _ NaN (average 0%nat)) by (rewrite length_map, length_seq; lia).
  rewrite List.map_nth, List.seq_nth by lia.
  subst average. cbn beta.
  replace (period - 1 + j + 1 - period)%nat with j by lia.
  replace (period - 1 + j + 1)%nat with (j + period)%nat by lia.
  unfold js_div.
  destruct (Qeq_bool (count period) 0) eqn:Hzero; qbool; [lra|].
  eexists. split; [reflexivity|].
  split; [apply Qdiv_cancel; exact Hc|].
  destruct (sum_bounds lo hi (Indicators.slice data j (j + period))) as [Hlow Hhigh].
  { intros x Hx. apply Hbounds. apply (In_slice _ _ _ _ Hx). }
  rewrite length_slice in Hlow, Hhigh by lia.
  replace (j + period - j)%nat with period in Hlow, Hhigh by lia.
  split.
  - apply Qle_shift_div_l; [exact Hc | lra].
  - apply Qle_shift_div_r; [exact Hc | lra].
Qed.

(** The two-bar average of 1, 2, 3, 4 is 1.5, 2.5, 3.5. *)
Lemma sma_is_window_mean_witness :
  length (Indicators.calculateSMA [1; 2; 3; 4] 2) = 3%nat
  /\ exists v, nth 1 (Indicators.calculateSMA [1; 2; 3; 4] 2) NaN = Fin v
               /\ 1 <= v /\ v <= 4.
Proof.
  destruct (sma_is_window_mean [1; 2; 3; 4] 2 1 4) as [Hlength Hvalues].
  - lia.
  - intros x Hin. cbn in Hin.
    repeat (destruct Hin as [Hin | Hin]; [subst x; split; discriminate|]).
    destruct Hin.
  - split; [exact Hlength|].
    destruct (Hvalues 1%nat) as (v & Hv & _ & Hlow & Hhigh); [cbn; lia|].
    exists v. split; [exact Hv|]. split; assumption.
Defined.

Lemma emaFrom_length (k : Q) (rest : list Q) :
  forall previous, length (Indicators.emaFrom k previous rest) = length rest.
Proof.
  induction rest as [|x rest' IH]; intros previous; cbn; [reflexivity|].
  rewrite IH. reflexivity.
Qed.

Lemma emaFrom_bounds (k lo hi : Q) (rest : list Q) :
  0 <= k -> k <= 1 ->
  (forall x, In x rest -> lo <= x /\ x <= hi) ->
  forall previous, lo <= previous /\ previous <= hi ->
    forall v, In v (Indicators.emaFrom k previous rest) -> lo <= v /\ v <= hi.
Proof.
  intros Hk0 Hk1. induction rest as [|x rest' IH]; intros Hall previous Hprevious v Hin.
  - destruct Hin.
  - cbn [Indicators.emaFrom] in Hin.
    assert (Hcurrent : lo <= x * k + previous * (1 - k) /\ x * k + previous * (1 - k) <= hi).
    { destruct (Hall x (or_introl eq_refl)) as [Hxlo Hxhi]. destruct Hprevious as [Hplo Hphi].
      assert (lo * k <= x * k) by (apply Qmult_le_compat_r; assumption).
      assert (x * k <= hi * k) by (apply Qmult_le_compat_r; assumption).
      assert (lo * (1 - k) <= previous * (1 - k)) by (apply Qmult_le_compat_r; lra).
      assert (previous * (1 - k) <= hi * (1 - k)) by (apply Qmult_le_compat_r; lra).
      assert (lo * k + lo * (1 - k) == lo) by ring.
      assert (hi * k + hi * (1 - k) == hi) by ring.
      lra. }
    destruct Hin as [Hv | Hin].
    + subst v. exact Hcurrent.
    + apply (IH (fun y Hy => Hall y (or_intror Hy)) _ Hcurrent v Hin).
Qed.

(** X16.  calculateEMA returns one value per input value, the first one
    being the first input value; for a period of one bar or more every
    value lies between any two bounds of the data (the smoothing factor
    2 / (period + 1) is then between 0 and 1).  On an empty series the
    result is not empty: it holds one undefined entry. *)
Theorem ema_within_data (data : list Q) (period : nat) (lo hi : Q) :
  (1 <= period)%nat ->
  (forall x, In x data -> lo <= x /\ x <= hi) ->
  length (Indicators.calculateEMA data period) = Nat.max 1 (length data)
  /\ (data = [] -> Indicators.calculateEMA data period = [None])
  /\ (forall first rest,
         data = first :: rest -> nth 0 (Indicators.calculateEMA data period) None = Some first)
  /\ (data <> [] ->
      forall e, In e (Indicators.calculateEMA data period) ->
                exists v, e = Some v /\ lo <= v /\ v <= hi).
Proof.
  intros Hperiod Hbounds.
  assert (Hk : 0 <= 2 / (count period + 1) /\ 2 / (count period + 1) <= 1).
  { assert (Hc : 1 <= count period).
    { change 1 with (count 1). apply count_le. exact Hperiod. }
    split.
    - apply Qle_shift_div_l; lra.
    - apply Qle_shift_div_r; lra. }
  unfold Indicators.calculateEMA.
  destruct data as [|first rest].
  - split; [reflexivity|]. split; [reflexivity|]. split; [discriminate|].
    intros Hempty. congruence.
  - split.
    + cbn [map length]. rewrite length_map, emaFrom_length. lia.
    + split; [discriminate|].
      split; [intros first' rest' Hdata; inversion Hdata; reflexivity|].
      intros _ e Hin. apply List.in_map_iff in Hin. destruct Hin as (v & He & Hv).
      exists v. split; [symmetry; exact He|].
      destruct Hv as [Hv | Hv].
      * subst v. apply Hbounds. left. reflexivity.
      * destruct Hk as [Hk0 Hk1].
        apply (emaFrom_bounds _ lo hi rest Hk0 Hk1
                 (fun y Hy => Hbounds y (or_intror Hy)) first
                 (Hbounds first (or_introl eq_refl)) v Hv).
Qed.

(** The three-bar average of 1, 4, 2 stays between 1 and 4 and starts
    at 1. *)
Lemma ema_within_data_witness :
  length (Indicators.calculateEMA [1; 4; 2] 3) = 3%nat
  /\ nth 0 (Indicators.calculateEMA [1; 4; 2] 3) None = Some 1.
Proof.
  destruct (ema_within_data [1; 4; 2] 3 1 4) as (Hlength & _ & Hfirst & _).
  - lia.
  - intros x Hin. cbn in Hin.
    repeat (destruct Hin as [Hin | Hin]; [subst x; split; discriminate|]).
    destruct Hin.
  - split; [exact Hlength | apply (Hfirst 1 [4; 2]); reflexivity].
Defined.

Lemma slice_map_seq (f : nat -> Q) (m start finish : nat) :
  (finish <= m)%nat ->
  Indicators.slice (map f (seq 0 m)) start finish = map f (seq start (finish - start)).
Proof.
  intros Hfinish. unfold Indicators.slice.
  rewrite List.skipn_map, List.skipn_seq, List.firstn_map, take_seq.
  cbn [Nat.add]. f_equal. f_equal. lia.
Qed.

Lemma changes_length (data : list Q) :
  length (Indicators.changes data) = (length data - 1)%nat.
Proof.
  unfold Indicators.changes. rewrite length_map, length_seq. reflexivity.
Qed.

(** A window that ends before the last change reads the series without
    its last value. *)
Lemma window_without_last (data : list Q) (x : Q) (start finish : nat) :
  (finish < length data)%nat ->
  Indicators.slice (Indicators.changes (data ++ [x])) start finish
  = map (fun i => Base.at_ data (S i) - Base.at_ data i) (seq start (finish - start)).
Proof.
  intros Hfinish. unfold Indicators.changes.
  rewrite slice_map_seq by (rewrite List.length_app; cbn; lia).
  apply List.map_ext_in. intros i Hi. apply List.in_seq in Hi.
  unfold Base.at_. rewrite !List.app_nth1 by lia. reflexivity.
Qed.

(** X17.  calculateRSI never reads the last value of the series: the
    window of the entry for index i is changes[i - period .. i - 1], and
    i stops one short of the last change.  Two series that differ in
    their last value only have the same RSI, and a series of
    period + 1 values, which holds exactly period changes, has none. *)
Theorem rsi_ignores_last_value (data : list Q) (x y : Q) (period : nat) :
  Indicators.calculateRSI (data ++ [x]) period = Indicators.calculateRSI (data ++ [y]) period
  /\ length (Indicators.calculateRSI (data ++ [x]) period) = (length data - period)%nat.
Proof.
  unfold Indicators.calculateRSI.
  rewrite !changes_length, !List.length_app. cbn [length].
  replace (length data + 1 - 1)%nat with (length data) by lia.
  split; [|rewrite length_map, length_seq; reflexivity].
  apply List.map_ext_in. intros i Hi. apply List.in_seq in Hi.
  rewrite !window_without_last by lia. reflexivity.
Qed.

Lemma sum_nonneg (data : list Q) : (forall x, In x data -> 0 <= x) -> 0 <= sum data.
Proof.
  induction data as [|x rest IH]; intros Hall.
  - change (sum []) with 0. lra.
  - rewrite sum_cons.
    assert (0 <= x) by (apply Hall; left; reflexivity).
    assert (0 <= sum rest) by (apply IH; intros y Hy; apply Hall; right; exact Hy).
    lra.
Qed.

(** The value computed from an average gain and an average loss. *)
Lemma rsi_value (gain loss : Q) :
  0 <= gain -> 0 <= loss ->
  let value :=
    js_sub (Fin 100) (js_div (Fin 100) (js_add (Fin 1) (js_div (Fin gain) (Fin loss)))) in
  (value = NaN /\ gain == 0 /\ loss == 0)
  \/ exists v, value = Fin v /\ 0 <= v /\ v <= 100
                /\ (loss == 0 -> v == 100) /\ (gain == 0 -> v == 0).
Proof.
  intros Hgain Hloss value. subst value.
  destruct (Qeq_bool loss 0) eqn:Hflat.
  - destruct (Qeq_bool gain 0) eqn:Hnone.
    + assert (Hrs : js_div (Fin gain) (Fin loss) = NaN)
        by (unfold js_div; rewrite Hflat, Hnone; reflexivity).
      rewrite Hrs. qbool. left. split; [reflexivity|]. split; assumption.
    + assert (Hrs : js_div (Fin gain) (Fin loss) = PInf).
      { unfold js_div. rewrite Hflat, Hnone. qbool.
        assert (Hup : Qltb 0 gain = true) by (apply Qltb_lt; lra).
        rewrite Hup. reflexivity. }
      rewrite Hrs. qbool. right. cbn.
      eexists. split; [reflexivity|]. repeat split; try lra; intros; lra.
  - assert (Hrs : js_div (Fin gain) (Fin loss) = Fin (gain / loss))
      by (unfold js_div; rewrite Hflat; reflexivity).
    rewrite Hrs. qbool. right.
    assert (Hratio : 0 <= gain / loss) by (apply Qle_shift_div_l; lra).
    cbn [js_add].
    assert (Hquot : js_div (Fin 100) (Fin (1 + gain / loss)) = Fin (100 / (1 + gain / loss))).
    { unfold js_div.
      destruct (Qeq_bool (1 + gain / loss) 0) eqn:Hzero; qbool; [lra | reflexivity]. }
    rewrite Hquot. cbn [js_sub js_opp js_add].
    eexists. split; [reflexivity|].
    assert (Hquotient : 0 <= 100 / (1 + gain / loss)) by (apply Qle_shift_div_l; lra).
    assert (Hfull : 100 / (1 + gain / loss) <= 100) by (apply Qle_shift_div_r; lra).
    split; [lra|]. split; [lra|]. split; [intros Hnone; lra|].
    intros Hnone.
    assert (Hr : gain / loss == 0) by (rewrite Hnone; field; lra).
    assert (Hhundred : 100 / (1 + gain / loss) == 100) by (rewrite Hr; field).
    lra.
Qed.

Lemma filter_none {A : Type} (test : A -> bool) (data : list A) :
  (forall x, In x data -> test x = false) -> List.filter test data = [].
Proof.
  induction data as [|x rest IH]; intros Hall; [reflexivity|].
  cbn [List.filter]. rewrite (Hall x (or_introl eq_refl)).
  apply IH. intros y Hy. apply Hall. right. exact Hy.
Qed.

Lemma sum_positive (data : list Q) :
  (forall x, In x data -> 0 < x) -> sum data == 0 -> data = [].
Proof.
  destruct data as [|x rest]; intros Hall Hzero; [reflexivity|].
  exfalso. rewrite sum_cons in Hzero.
  assert (0 < x) by (apply Hall; left; reflexivity).
  assert (0 <= sum rest).
  { apply sum_nonneg. intros y Hy. apply Qlt_le_weak. apply Hall. right. exact Hy. }
  lra.
Qed.

Lemma filter_nil_test {A : Type} (test : A -> bool) (data : list A) (x : A) :
  List.filter test data = [] -> In x data -> test x = false.
Proof.
  intros Hnil Hin. destruct (test x) eqn:Htest; [|reflexivity].
  assert (Hx : In x (List.filter test data)) by (apply List.filter_In; split; assumption).
  rewrite Hnil in Hx. destruct Hx.
Qed.

(** X18.  For a period of one bar or more every entry of calculateRSI is
    either NaN, on a window without any change, or a number between 0
    and 100: 100 on a window without a falling change, 0 on a window
    without a rising one.  It is never an infinity, although the
    quotient of the average gain by the average loss is one on a window
    that only rises. *)
Theorem rsi_range (data : list Q) (period : nat) (entry : jsnum) :
  (1 <= period)%nat ->
  In entry (Indicators.calculateRSI data period) ->
  exists i,
    let window := Indicators.slice (Indicators.changes data) (i - period) i in
    (period <= i < length data - 1)%nat
    /\ ((entry = NaN /\ forall change, In change window -> change == 0)
        \/ exists v, entry = Fin v /\ 0 <= v /\ v <= 100
                      /\ ((forall change, In change window -> 0 <= change) -> v == 100)
                      /\ ((forall change, In change window -> change <= 0) -> v == 0)).
Proof.
  intros Hperiod Hin. unfold Indicators.calculateRSI in Hin.
  apply List.in_map_iff in Hin. destruct Hin as (i & Hentry & Hi).
  apply List.in_seq in Hi. rewrite changes_length in Hi.
  exists i. intros window. split; [lia|].
  fold window in Hentry.
  set (gains := List.filter (fun change => Qgtb change 0) window) in *.
  set (losses := map Qabs (List.filter (fun change => Qltb change 0) window)) in *.
  assert (Hc : 0 < count period).
  { assert (count 1 <= count period) by (apply count_le; exact Hperiod).
    change (count 1) with 1 in *. lra. }
  assert (Hgains : 0 <= sum gains).
  { apply sum_nonneg. intros x Hx. subst gains. apply List.filter_In in Hx.
    destruct Hx as [_ Hx]. apply Qgtb_gt in Hx. lra. }
  assert (Hlosses : 0 <= sum losses).
  { apply sum_nonneg. intros x Hx. subst losses. apply List.in_map_iff in Hx.
    destruct Hx as (z & Hz & _). subst x. apply Qabs_nonneg. }
  assert (Hdiv : forall total, js_div (Fin total) (Fin (count period))
                               = Fin (total / count period)).
  { intros total. unfold js_div.
    destruct (Qeq_bool (count period) 0) eqn:Hzero; qbool; [lra | reflexivity]. }
  rewrite !Hdiv in Hentry.
  assert (HavgGain : 0 <= sum gains / count period) by (apply Qle_shift_div_l; lra).
  assert (HavgLoss : 0 <= sum losses / count period) by (apply Qle_shift_div_l; lra).
  destruct (rsi_value _ _ HavgGain HavgLoss) as [(Hnan & Hg & Hl) | (v & Hv & Hlow & Hhigh & Hup & Hdown)];
    cbn zeta in *.
  - left. split; [congruence|].
    assert (Hg0 : sum gains == 0).
    { rewrite <- (Qdiv_cancel (sum gains) (count period) Hc), Hg. ring. }
    assert (Hl0 : sum losses == 0).
    { rewrite <- (Qdiv_cancel (sum losses) (count period) Hc), Hl. ring. }
    apply sum_positive in Hg0.
    2:{ intros x Hx. subst gains. apply List.filter_In in Hx.
        destruct Hx as [_ Hx]. apply Qgtb_gt in Hx. exact Hx. }
    apply sum_positive in Hl0.
    2:{ intros x Hx. subst losses. apply List.in_map_iff in Hx.
        destruct Hx as (z & Hz & Hzin). subst x. apply List.filter_In in Hzin.
        destruct Hzin as [_ Hzin]. apply Qltb_lt in Hzin.
        rewrite (Qabs_of_loss z) by lra. lra. }
    intros change Hchange.
    pose proof (filter_nil_test _ _ change Hg0 Hchange) as Hnotup.
    apply map_eq_nil in Hl0.
    pose proof (filter_nil_test _ _ change Hl0 Hchange) as Hnotdown.
    cbn beta in Hnotup, Hnotdown. qbool. lra.
  - right. exists v. split; [congruence|]. split; [exact Hlow|]. split; [exact Hhigh|].
    split.
    + intros Hrising. apply Hup.
      assert (Hnone : losses = []).
      { subst losses. rewrite filter_none; [reflexivity|].
        intros x Hx. apply Qltb_ge. apply Hrising. exact Hx. }
      rewrite Hnone. change (sum []) with 0. field. lra.
    + intros Hfalling. apply Hdown.
      assert (Hnone : gains = []).
      { subst gains. rewrite filter_none; [reflexivity|].
        intros x Hx. apply Qgtb_le. apply Hfalling. exact Hx. }
      rewrite Hnone. change (sum []) with 0. field. lra.
Qed.

(** The two-bar RSI of 1, 2, 3, 2, 4: the windows are (1, 1) and
    (1, -1), the values 100 and 50. *)
Lemma rsi_range_witness :
  exists v, nth 1 (Indicators.calculateRSI [1; 2; 3; 2; 4] 2) NaN = Fin v
            /\ 0 <= v /\ v <= 100.
Proof.
  destruct (rsi_range [1; 2; 3; 2; 4] 2
              (nth 1 (Indicators.calculateRSI [1; 2; 3; 2; 4] 2) NaN))
    as (i & _ & [[Hnan _] | (v & Hv & Hlow & Hhigh & _)]).
  - lia.
  - vm_compute. right. left. reflexivity.
  - vm_compute in Hnan. discriminate Hnan.
  - exists v. split; [exact Hv|]. split; assumption.
Defined.

(** ** The sizing function of the trading manager *)

(** X19.  calculatePositionSize of the trading manager divides the stop
    distance by the point and multiplies by it again: with a point and a
    stop distance that are not zero, its size is the risk amount divided
    by the stop distance in price units, clamped into the volume limits
    without any rounding, whatever the point of the symbol.  The risk
    manager sizes the same trade from the stop distance in points: with
    the same percentage and a volume step that is not zero, its size is
    that quotient multiplied by the point, rounded to the step, then
    clamped. *)
Theorem trading_size_ignores_point (feed : Feed.t) (symbol : string)
    (riskPercent entryPrice stopLoss : Q) (accountInfo : AccountInfo.t)
    (info : SymbolInfo.t) :
  Feed.getAccountInfo feed = Some accountInfo ->
  Feed.getSymbolInfo feed symbol = Some info ->
  ~ SymbolInfo.point info == 0 ->
  ~ entryPrice == stopLoss ->
  let quotient :=
    AccountInfo.equity accountInfo * riskPercent / 100 / Qabs (entryPrice - stopLoss) in
  (exists size,
      Trading.calculatePositionSize feed symbol riskPercent entryPrice stopLoss = Fin size
      /\ size == clampVolume (SymbolInfo.volumeMin info) (SymbolInfo.volumeMax info) quotient)
  /\ forall (rm : RiskManager.t) (signal : Signal),
       RiskParams.maxRiskPerTrade (RiskManager.riskParams rm) = riskPercent ->
       StrategySignal.symbol signal = symbol ->
       StrategySignal.entry signal = entryPrice ->
       StrategySignal.stopLoss signal = stopLoss ->
       ~ SymbolInfo.volumeStep info == 0 ->
       exists size,
         RiskManager.calculatePositionSize rm feed signal accountInfo = Fin size
         /\ size == clampVolume (SymbolInfo.volumeMin info) (SymbolInfo.volumeMax info)
                      (roundToStep (SymbolInfo.volumeStep info)
                         (quotient * SymbolInfo.point info)).
Proof.
  intros Haccount Hinfo Hpoint Hstop quotient.
  pose proof (Qabs_nonzero _ _ Hstop) as Hdistance.
  split.
  - unfold Trading.calculatePositionSize. rewrite Haccount, Hinfo.
    assert (Hp : Qeq_bool (SymbolInfo.point info) 0 = false)
      by (apply Qeq_bool_false; exact Hpoint).
    cbn [js_div]. rewrite Hp. cbn [js_mul js_div].
    assert (Hback : Qabs (entryPrice - stopLoss) / SymbolInfo.point info
                    * SymbolInfo.point info == Qabs (entryPrice - stopLoss))
      by (field; exact Hpoint).
    assert (Hd : Qeq_bool (Qabs (entryPrice - stopLoss) / SymbolInfo.point info
                           * SymbolInfo.point info) 0 = false).
    { apply Qeq_bool_false. rewrite Hback. exact Hdistance. }
    rewrite Hd. cbn [js_min js_max].
    eexists. split; [reflexivity|].
    apply clampVolume_wd. subst quotient. rewrite Hback. reflexivity.
  - intros rm signal Hrisk Hsymbol Hentry Hstoploss Hstep.
    rewrite (calculatePositionSize_finite rm feed signal accountInfo info);
      rewrite ?Hsymbol, ?Hentry, ?Hstoploss; try assumption.
    eexists. split; [reflexivity|].
    rewrite Hrisk. apply clampVolume_wd. apply roundToStep_wd.
    subst quotient. field. split; assumption.
Qed.

(** 2 percent of 10,000 on a stop 50 pips away: 40,000 before the
    clamp, 5 lots after it, on a symbol quoted to five digits. *)
Lemma trading_size_ignores_point_witness :
  exists size,
    Trading.calculatePositionSize
      (Scenario.feed 10000 (Scenario.eurusdInfo 0.01 5.0 0.01)) "EURUSD" 2 1.1000 1.0950
    = Fin size
    /\ size == 5.
Proof.
  destruct (trading_size_ignores_point
              (Scenario.feed 10000 (Scenario.eurusdInfo 0.01 5.0 0.01)) "EURUSD"
              2 1.1000 1.0950 (Scenario.account 10000) (Scenario.eurusdInfo 0.01 5.0 0.01)
              eq_refl eq_refl)
    as [(size & Hsize & Hvalue) _].
  - vm_compute. discriminate.
  - vm_compute. discriminate.
  - exists size. split; [exact Hsize|]. rewrite Hvalue. vm_compute. reflexivity.
Defined.

(** ** Closing positions *)

Lemma find_by_ticket (positions : list Position.t) (position : Position.t) :
  NoDup (map Position.ticket positions) ->
  In position positions ->
  List.find (fun p => Z.eqb (Position.ticket p) (Position.ticket position)) positions
  = Some position.
Proof.
  induction positions as [|first rest IH]; intros Hunique Hin; [destruct Hin|].
  cbn [map] in Hunique. apply NoDup_cons in Hunique. destruct Hunique as [Hfresh Hunique].
  cbn [List.find]. destruct Hin as [Hfirst | Hin].
  - subst first. rewrite Z.eqb_refl. reflexivity.
  - destruct (Z.eqb (Position.ticket first) (Position.ticket position)) eqn:Hticket.
    + exfalso. apply Z.eqb_eq in Hticket. apply Hfresh. rewrite Hticket.
      apply list_elem_of_In. apply List.in_map. exact Hin.
    + apply IH; assumption.
Qed.

Lemma targetPositions_In (positions : list Position.t) (symbol : option string)
    (position : Position.t) :
  In position (Trading.targetPositions positions symbol) -> In position positions.
Proof.
  unfold Trading.targetPositions. destruct symbol as [symbol|]; [|auto].
  destruct (String.eqb symbol ""); [auto|].
  intros Hin. apply List.filter_In in Hin. apply Hin.
Qed.

(** X20.  On positions with distinct tickets, closeAllPositions builds
    one request per target position, in the order of the positions: a
    deal on the symbol of the position, for its whole volume, in the
    opposite direction, without price, stop or target; every result
    succeeds exactly when the connection is active.  The targets are the
    positions of the given symbol; without a symbol, and with the empty
    string, they are all the positions. *)
Theorem close_all_positions (trading : Trading.t) (connected : bool) (draw : nat -> Z)
    (positions : list Position.t) (symbol : option string) :
  NoDup (map Position.ticket positions) ->
  let targets := Trading.targetPositions positions symbol in
  Forall2
    (fun position outcome =>
       fst outcome
       = Some (Request.mk DEAL (Position.symbol position) (Fin (Position.volume position))
                 (match Position.type position with
                  | PositionBUY => OrderSELL
                  | PositionSELL => OrderBUY
                  end)
                 None None None (Some (CloseTicket (Position.ticket position)))
                 (Trading.magicNumber trading))
       /\ OrderResult.success (snd outcome) = connected)
    targets (Trading.closeAllPositions trading connected draw positions symbol)
  /\ (symbol = None \/ symbol = Some ""%string -> targets = positions)
  /\ (forall name, symbol = Some name -> name <> ""%string ->
        forall position,
          In position targets <-> In position positions /\ Position.symbol position = name).
Proof.
  intros Hunique targets. split; [|split].
  - unfold Trading.closeAllPositions. fold targets.
    assert (Hsub : forall p, In p targets -> In p positions)
      by (intros p; apply targetPositions_In).
    clearbody targets. revert draw.
    induction targets as [|position rest IH]; intros draw; [constructor|].
    cbn [imap]. constructor.
    + unfold Trading.closePosition.
      rewrite (find_by_ticket positions position Hunique (Hsub _ (or_introl eq_refl))).
      cbn [fst snd]. split; [reflexivity|].
      unfold Trading.sendOrderRequest. destruct connected; reflexivity.
    + apply (IH (fun p Hp => Hsub p (or_intror Hp)) (fun k => draw (S k))).
  - intros [Hnone | Hempty]; subst symbol targets; reflexivity.
  - intros name Hname Hnonempty position. subst symbol targets.
    unfold Trading.targetPositions.
    apply String.eqb_neq in Hnonempty. rewrite Hnonempty.
    rewrite List.filter_In, String.eqb_eq. reflexivity.
Qed.

(** Two positions with tickets 1 and 2, one of them on EURUSD: closing
    EURUSD gives one result. *)
Lemma close_all_positions_witness :
  let other := Position.mk 2 "GBPUSD" PositionSELL 0.2 1.3 1.3 0 1.31 1.29 0 "" in
  length
    (Trading.closeAllPositions Trading.create true (fun _ => 100000%Z)
       [Scenario.winningPosition; other] (Some "EURUSD"%string))
  = 1%nat.
Proof.
  intros other.
  destruct (close_all_positions Trading.create true (fun _ => 100000%Z)
              [Scenario.winningPosition; other] (Some "EURUSD"%string))
    as [Hrequests _].
  - vm_compute. repeat constructor; cbn; intros Hin; inversion Hin; subst;
      match goal with H : _ ∈ _ |- _ => inversion H end.
  - cbn zeta in Hrequests. apply Forall2_length in Hrequests.
    rewrite <- Hrequests. reflexivity.
Defined.

(** ** The loss limit of a manager built before the connection opens *)

(** X21.  The exported risk manager is built when the module is loaded,
    before any connection is opened, so its initializeDailyTracking gets
    no account and the day's start balance stays 0.  From there, through
    any calls of validateTrade, monitorPositions, updateDailyPL and
    updateRiskParams (the orchestrator makes no other, and never calls
    resetDailyTracking), the start balance is still 0, and as long as the
    account balance seen by validateTrade is positive the manager is
    never blocked and no trade is rejected for the daily loss limit,
    whatever the balance has lost. *)
Theorem loss_limit_idle_without_start_balance (params : RiskParams.t)
    (calls : list RiskManager.Call) :
  List.Forall
    (fun call =>
       RiskManager.isReset call = false
       /\ match call with
          | RiskManager.CallValidateTrade feed _ =>
              forall accountInfo,
                Feed.getAccountInfo feed = Some accountInfo ->
                0 < AccountInfo.balance accountInfo
          | _ => True
          end)
    calls ->
  let rm := RiskManager.initializeDailyTracking (RiskManager.create params) offline in
  let final := fst (RiskManager.run rm calls) in
  RiskManager.dailyStartBalance final = 0
  /\ RiskManager.isTradeBlocked final = false
  /\ List.Forall
       (fun result =>
          TradeValidationResult.reason result <> TradingBlocked
          /\ forall currentDailyLoss maxDailyLoss,
               TradeValidationResult.reason result
               <> DailyLossLimitReached currentDailyLoss maxDailyLoss)
       (snd (RiskManager.run rm calls)).
Proof.
  intros Hcalls rm final. subst final.
  assert (Hstart : RiskManager.dailyStartBalance rm = 0 /\ RiskManager.isTradeBlocked rm = false)
    by (split; reflexivity).
  clearbody rm. revert rm Hstart.
  induction Hcalls as [|call rest [Hnoreset Hbalance] _ IH]; intros rm [Hzero Hfree].
  - cbn. split; [exact Hzero|]. split; [exact Hfree | constructor].
  - cbn [RiskManager.run].
    destruct (RiskManager.step rm call) as [rm' result] eqn:Hstep.
    assert (Hnext : RiskManager.dailyStartBalance rm' = 0
                    /\ RiskManager.isTradeBlocked rm' = false
                    /\ forall r, result = Some r ->
                         TradeValidationResult.reason r <> TradingBlocked
                         /\ forall cur lim,
                              TradeValidationResult.reason r <> DailyLossLimitReached cur lim).
    { destruct call as [feed signal | feed | feed | newParams | feed];
        cbn [RiskManager.step RiskManager.isReset] in Hstep, Hnoreset; try discriminate.
      - destruct (RiskManager.validateTrade rm feed signal) as [rm'' r] eqn:Hvalidate.
        inversion Hstep; subst rm'' result. clear Hstep.
        unfold RiskManager.validateTrade in Hvalidate. rewrite Hfree in Hvalidate.
        destruct (Feed.getAccountInfo feed) as [accountInfo|] eqn:Haccount.
        + specialize (Hbalance accountInfo eq_refl).
          unfold RiskManager.checkDailyLossLimit in Hvalidate. rewrite Hzero in Hvalidate.
          destruct (Qgeb _ _) eqn:Hloss in Hvalidate.
          * exfalso. qbool.
            assert (Hlimit : 0 * RiskParams.maxDailyLoss (RiskManager.riskParams rm) / 100 == 0)
              by field.
            lra.
          * cbn [negb ValidationCheck.passed] in Hvalidate.
            repeat match type of Hvalidate with
              | context [if ?c then _ else _] => destruct c
              end;
              inversion Hvalidate; subst;
              (split; [exact Hzero|]); (split; [exact Hfree|]);
              intros r' Hr'; inversion Hr'; subst; cbn;
              unfold RiskManager.checkMaxPositions, RiskManager.checkSpread;
              repeat match goal with
                | |- context [if ?c then _ else _] => destruct c
                | |- context [match ?c with Some _ => _ | None => _ end] => destruct c
                end; cbn; (split; [discriminate | intros; discriminate]).
        + inversion Hvalidate; subst. split; [exact Hzero|]. split; [exact Hfree|].
          intros r' Hr'. inversion Hr'; subst. cbn. split; [discriminate | intros; discriminate].
      - inversion Hstep; subst. split; [exact Hzero|]. split; [exact Hfree|]. discriminate.
      - inversion Hstep; subst. unfold RiskManager.updateDailyPL.
        destruct (Feed.getAccountInfo feed); cbn;
          (split; [exact Hzero|]); (split; [exact Hfree|]); discriminate.
      - inversion Hstep; subst. cbn. split; [exact Hzero|]. split; [exact Hfree|]. discriminate. }
    destruct Hnext as (Hzero' & Hfree' & Hresult).
    specialize (IH rm' (conj Hzero' Hfree')).
    destruct (RiskManager.run rm' rest) as [final results].
    cbn [fst snd] in *. destruct IH as (Hfinal & Hblocked & Hresults).
    split; [exact Hfinal|]. split; [exact Hblocked|].
    destruct result as [r|]; [|exact Hresults].
    constructor; [apply Hresult; reflexivity | exact Hresults].
Qed.

(** The exported manager after a trade checked at a balance of 9,000,
    10 percent below any start of the day at 10,000: not blocked. *)
Lemma loss_limit_idle_without_start_balance_witness :
  RiskManager.isTradeBlocked
    (fst (RiskManager.run
            (RiskManager.initializeDailyTracking
               (RiskManager.create RiskManager.defaultParams) offline)
            [RiskManager.CallValidateTrade
               (Scenario.feed 9000 (Scenario.eurusdInfo 0.01 5.0 0.01))
               (Scenario.buySignal 1.12)]))
  = false.
Proof.
  apply (loss_limit_idle_without_start_balance RiskManager.defaultParams
           [RiskManager.CallValidateTrade
              (Scenario.feed 9000 (Scenario.eurusdInfo 0.01 5.0 0.01))
              (Scenario.buySignal 1.12)]).
  constructor; [|constructor].
  split; [reflexivity|].
  intros accountInfo Haccount. inversion Haccount. reflexivity.
Defined.

(** ** The orchestrator: start and stop *)

Lemma collectSignals_inactive (strategies : list (string * SMC.t)) (symbol : string)
    (ohlc : list OHLC.t) (marketData : MarketData.t) (now : Z) :
  List.Forall (fun entry => SMC.isActive (snd entry) = false) strategies ->
  Core.collectSignals strategies symbol ohlc marketData now = (strategies, []).
Proof.
  induction 1 as [|[key strategy] rest Hinactive _ IH]; [reflexivity|].
  cbn [Core.collectSignals]. rewrite IH. cbn [snd] in Hinactive. rewrite Hinactive.
  reflexivity.
Qed.

Lemma analyzeSymbol_inactive (c : Core.t) (symbol : string)
    (marketData : option MarketData.t) (ohlc : list OHLC.t) (now : Z) :
  List.Forall (fun entry => SMC.isActive (snd entry) = false) (Core.strategies c) ->
  Core.analyzeSymbol c symbol marketData ohlc now = (c, [], None).
Proof.
  intros Hinactive. unfold Core.analyzeSymbol.
  destruct marketData as [marketData|]; [|reflexivity].
  destruct (length ohlc <? 50)%nat; [reflexivity|].
  rewrite (collectSignals_inactive _ _ _ _ _ Hinactive).
  destruct c; reflexivity.
Qed.

(** X22.  start does nothing when the connection fails; otherwise it
    activates every registered strategy, keeping what each has detected,
    adds the four default symbols to the monitored ones and sets the
    running flag, so that a default symbol removed before the start is
    monitored again.  stop clears the flag and deactivates every
    strategy but keeps the monitored symbols.  A stopped orchestrator,
    like one that was never started, collects no signal from any tick on
    any symbol and executes nothing, also when analyzeSymbol is run
    outside the interval, and it is left as it was. *)
Theorem start_and_stop (c : Core.t) (symbol : string)
    (marketData : option MarketData.t) (ohlc : list OHLC.t) (now : Z) :
  let started := fst (Orchestrator.start c true) in
  let stopped := Orchestrator.stop c in
  Orchestrator.start c false = (c, false)
  /\ snd (Orchestrator.start c true) = true
  /\ Core.isRunning started = true
  /\ (forall monitored : string,
         monitored ∈ Core.activeSymbols started
         <-> (monitored ∈ Core.activeSymbols c
              \/ monitored ∈ ["EURUSD"; "GBPUSD"; "USDCAD"; "AUDUSD"]%string))
  /\ Forall2
       (fun before after =>
          fst after = fst before
          /\ SMC.isActive (snd after) = true
          /\ SMC.orderBlocks (snd after) = SMC.orderBlocks (snd before)
          /\ SMC.liquidityZones (snd after) = SMC.liquidityZones (snd before)
          /\ SMC.fairValueGaps (snd after) = SMC.fairValueGaps (snd before))
       (Core.strategies c) (Core.strategies started)
  /\ ("EURUSD"%string
      ∈ Core.activeSymbols (fst (Orchestrator.start (Core.removeSymbol c "eurusd") true)))
  /\ Core.isRunning stopped = false
  /\ Core.activeSymbols stopped = Core.activeSymbols c
  /\ Core.analyzeSymbol stopped symbol marketData ohlc now = (stopped, [], None)
  /\ Orchestrator.analysisTick stopped symbol marketData ohlc now = (stopped, [], None)
  /\ Core.analyzeSymbol Core.create symbol marketData ohlc now = (Core.create, [], None)
  /\ Orchestrator.analysisTick Core.create symbol marketData ohlc now
     = (Core.create, [], None).
Proof.
  intros started stopped.
  split; [reflexivity|]. split; [reflexivity|]. split; [reflexivity|].
  split.
  { intros monitored. subst started. cbn [Orchestrator.start negb fst Core.activeSymbols].
    rewrite !elem_of_union, !elem_of_singleton, !elem_of_cons, elem_of_nil. tauto. }
  split.
  { subst started. cbn [Orchestrator.start negb fst Core.strategies].
    unfold Orchestrator.activateAll.
    induction (Core.strategies c) as [|[key strategy] rest IH]; constructor; [|exact IH].
    cbn. repeat split; reflexivity. }
  split.
  { cbn [Orchestrator.start negb fst Core.activeSymbols].
    rewrite !elem_of_union, !elem_of_singleton. right. right. right. left. reflexivity. }
  split; [reflexivity|]. split; [reflexivity|].
  assert (Hstopped : List.Forall (fun entry => SMC.isActive (snd entry) = false)
                       (Core.strategies stopped)).
  { subst stopped. cbn [Orchestrator.stop Core.strategies]. unfold Orchestrator.deactivateAll.
    apply List.Forall_forall. intros entry Hin. apply List.in_map_iff in Hin.
    destruct Hin as (before & Hentry & _). subst entry. reflexivity. }
  split; [apply analyzeSymbol_inactive; exact Hstopped|].
  split; [reflexivity|].
  assert (Hcreate : List.Forall (fun entry => SMC.isActive (snd entry) = false)
                      (Core.strategies Core.create)).
  { repeat constructor. }
  split; [apply analyzeSymbol_inactive; exact Hcreate | reflexivity].
Qed.

(** ** The orchestrator: execution of a signal *)

(** X23.  executeSignal builds no request and records nothing for a
    signal that validateTrade rejects.  For an accepted BUY or SELL it
    builds exactly one request: a deal on the symbol of the signal, in
    the direction of the signal, for the validated size (which is not
    zero or negative), with the stop of the signal and the target that
    adjustTakeProfit returns for it; the signal history gets one entry,
    with the adjusted signal, the ticket of the order and no outcome,
    exactly when the connection is active.  An accepted CLOSE records
    nothing.  The risk manager is left as validateTrade left it. *)
Theorem executed_orders (trading : Trading.t) (rm : RiskManager.t) (feed : Feed.t)
    (connected : bool) (draw : nat -> Z) (now : Z) (signal : Signal) :
  let validation := snd (RiskManager.validateTrade rm feed signal) in
  let executed := Orchestrator.executeSignal trading rm feed connected draw now signal in
  let requests := snd (fst executed) in
  let recorded := snd executed in
  fst (fst executed) = fst (RiskManager.validateTrade rm feed signal)
  /\ (TradeValidationResult.isValid validation = false -> requests = [] /\ recorded = None)
  /\ (TradeValidationResult.isValid validation = true ->
      StrategySignal.action signal = CLOSE -> recorded = None)
  /\ (TradeValidationResult.isValid validation = true ->
      StrategySignal.action signal <> CLOSE ->
      let target := RiskManager.adjustTakeProfit rm signal in
      exists size,
        TradeValidationResult.positionSize validation = Some size
        /\ js_leb size (Fin 0) = false
        /\ requests
           = [Request.mk DEAL (StrategySignal.symbol signal) size
                (match StrategySignal.action signal with
                 | SELL => OrderSELL
                 | _ => OrderBUY
                 end)
                None (Some (StrategySignal.stopLoss signal)) (Some target)
                (Some (MarketMindStrategy (StrategySignal.strategy signal)))
                (Trading.magicNumber trading)]
        /\ recorded
           = if connected
             then Some (SignalHistory.mk
                          (StrategySignal.mk (StrategySignal.symbol signal)
                             (StrategySignal.action signal)
                             (StrategySignal.confidence signal)
                             (StrategySignal.entry signal)
                             (StrategySignal.stopLoss signal) target
                             (StrategySignal.strategy signal)
                             (StrategySignal.timestamp signal))
                          (draw 0%nat) now None)
             else None).
Proof.
  intros validation executed requests recorded.
  subst requests recorded executed validation.
  unfold Orchestrator.executeSignal.
  destruct (TradeValidationResult.isValid (snd (RiskManager.validateTrade rm feed signal)))
    eqn:Hvalid.
  - destruct (validateTrade_valid rm feed signal Hvalid)
      as (accountInfo & _ & _ & Hsize & Hresult).
    rewrite Hresult.
    cbn [snd fst negb TradeValidationResult.isValid TradeValidationResult.adjustedSignal
         TradeValidationResult.positionSize StrategySignal.action StrategySignal.symbol
         StrategySignal.stopLoss StrategySignal.takeProfit StrategySignal.strategy].
    unfold RiskManager.adjustStopLoss.
    split.
    { destruct (StrategySignal.action signal); reflexivity. }
    split; [discriminate|].
    split.
    { intros _ Hclose. rewrite Hclose. reflexivity. }
    intros _ Hopen. cbn zeta.
    exists (RiskManager.calculatePositionSize rm feed signal accountInfo).
    split; [reflexivity|]. split; [exact Hsize|].
    unfold Trading.placeMarketOrder, Trading.sendOrderRequest.
    destruct (StrategySignal.action signal); try congruence;
      destruct connected; split; reflexivity.
  - destruct (RiskManager.validateTrade rm feed signal) as [rm' validation].
    cbn [snd fst] in *. rewrite Hvalid. cbn [negb fst snd].
    split; [reflexivity|]. split; [intros _; split; reflexivity|].
    split; discriminate.
Qed.

(** The buy signal of the scenarios on an account of 10,000, connection
    active: one request, and one entry in the signal history. *)
Lemma executed_orders_witness :
  let executed :=
    Orchestrator.executeSignal Trading.create Scenario.managerAt10000
      (Scenario.feed 10000 (Scenario.eurusdInfo 0.01 5.0 0.01)) true
      (fun _ => 100000%Z) 0 (Scenario.buySignal 1.12) in
  length (snd (fst executed)) = 1%nat /\ snd executed <> None.
Proof.
  intros executed.
  destruct (executed_orders Trading.create Scenario.managerAt10000
              (Scenario.feed 10000 (Scenario.eurusdInfo 0.01 5.0 0.01)) true
              (fun _ => 100000%Z) 0 (Scenario.buySignal 1.12))
    as (_ & _ & _ & Hopen).
  destruct Hopen as (size & _ & _ & Hrequests & Hrecorded);
    [vm_compute; reflexivity | discriminate |].
  subst executed. split.
  - rewrite Hrequests. reflexivity.
  - rewrite Hrecorded. discriminate.
Defined.

(** ** The orchestrator: learning data *)

Lemma setPerformance_keys (records : list (string * StrategyPerformance.t)) (key : string)
    (p : StrategyPerformance.t) :
  map fst (Orchestrator.setPerformance records key p) = map fst records.
Proof.
  induction records as [|[k old] rest IH]; [reflexivity|].
  cbn [Orchestrator.setPerformance]. destruct (String.eqb k key); cbn [map fst].
  - reflexivity.
  - rewrite IH. reflexivity.
Qed.

Lemma updateEntries_settled (positions : list Position.t) (draw : nat -> TradeResultKind * Q)
    (now : Z) (histories : list (SignalHistory.t Q)) :
  List.Forall (fun history => Orchestrator.isPending positions history = false) histories ->
  forall k records learner,
    Orchestrator.updateEntries positions draw now k histories records learner
    = Orchestrator.mkLearningData records learner histories.
Proof.
  induction 1 as [|history rest Hsettled _ IH]; intros k records learner; [reflexivity|].
  cbn [Orchestrator.updateEntries]. rewrite Hsettled, IH. reflexivity.
Qed.

Lemma updateEntries_outcomes (positions : list Position.t) (draw : nat -> TradeResultKind * Q)
    (now : Z) (histories : list (SignalHistory.t Q)) :
  forall k records learner,
    let after := Orchestrator.updateEntries positions draw now k histories records learner in
    Forall2
      (fun before entry =>
         if Orchestrator.isPending positions before
         then exists result profit, entry = Orchestrator.closed before result profit now
         else entry = before)
      histories (Orchestrator.signalHistory after)
    /\ Orchestrator.engine after
       = LearningEngine.updateFromTrades learner
           (newlyClosed positions histories (Orchestrator.signalHistory after))
    /\ map fst (Orchestrator.performances after) = map fst records.
Proof.
  induction histories as [|history rest IH]; intros k records learner after.
  - subst after. cbn. split; [constructor|]. split; reflexivity.
  - subst after. cbn [Orchestrator.updateEntries].
    destruct (Orchestrator.isPending positions history) eqn:Hpending.
    + destruct (draw k) as [result profit].
      match goal with
      | |- context [Orchestrator.updateEntries positions draw now (S k) rest ?r ?l] =>
          destruct (IH (S k) r l) as (Hentries & Hengine & Hkeys);
          set (after := Orchestrator.updateEntries positions draw now (S k) rest r l) in *
      end.
      cbn [Orchestrator.signalHistory Orchestrator.engine Orchestrator.performances].
      split.
      * constructor; [|exact Hentries]. rewrite Hpending. exists result, profit. reflexivity.
      * split.
        -- unfold newlyClosed. cbn [combine List.filter fst]. rewrite Hpending.
           cbn [map snd]. rewrite Hengine. reflexivity.
        -- rewrite Hkeys.
           destruct (Orchestrator.getPerformance records _); [|reflexivity].
           apply setPerformance_keys.
    + destruct (IH (S k) records learner) as (Hentries & Hengine & Hkeys).
      set (after := Orchestrator.updateEntries positions draw now (S k) rest records learner)
        in *.
      cbn [Orchestrator.signalHistory Orchestrator.engine Orchestrator.performances].
      split.
      * constructor; [|exact Hentries]. rewrite Hpending. reflexivity.
      * split; [|exact Hkeys].
        unfold newlyClosed. cbn [combine List.filter fst]. rewrite Hpending.
        exact Hengine.
Qed.

(** X24.  updateLearningData gives an outcome to every entry of the
    signal history that has none and whose ticket is not among the open
    positions, and leaves every other entry as it is; the learning
    engine is updated with exactly these entries, in the order of the
    history, and its weights stay in range if they were; the registry
    keeps its keys.  Afterwards no entry is waiting, so a second run on
    the same open positions changes nothing: every closed trade is
    counted once. *)
Theorem learning_data_updated_once (data : Orchestrator.LearningData)
    (positions : list Position.t) (draw : nat -> TradeResultKind * Q) (now : Z) :
  let after := Orchestrator.updateLearningData data positions draw now in
  Forall2
    (fun before entry =>
       if Orchestrator.isPending positions before
       then exists result profit, entry = Orchestrator.closed before result profit now
       else entry = before)
    (Orchestrator.signalHistory data) (Orchestrator.signalHistory after)
  /\ Orchestrator.engine after
     = LearningEngine.updateFromTrades (Orchestrator.engine data)
         (newlyClosed positions (Orchestrator.signalHistory data)
            (Orchestrator.signalHistory after))
  /\ (weightsInRange (Orchestrator.engine data) -> weightsInRange (Orchestrator.engine after))
  /\ map fst (Orchestrator.performances after) = map fst (Orchestrator.performances data)
  /\ List.Forall (fun entry => Orchestrator.isPending positions entry = false)
       (Orchestrator.signalHistory after)
  /\ forall draw' now', Orchestrator.updateLearningData after positions draw' now' = after.
Proof.
  intros after.
  destruct (updateEntries_outcomes positions draw now (Orchestrator.signalHistory data) 0
              (Orchestrator.performances data) (Orchestrator.engine data))
    as (Hentries & Hengine & Hkeys).
  fold (Orchestrator.updateLearningData data positions draw now) in Hentries, Hengine, Hkeys.
  fold after in Hentries, Hengine, Hkeys.
  assert (Hsettled : List.Forall (fun entry => Orchestrator.isPending positions entry = false)
                       (Orchestrator.signalHistory after)).
  { clear Hengine Hkeys. induction Hentries as [|before entry befores entries Hentry _ IH];
      constructor; [|exact IH].
    destruct (Orchestrator.isPending positions before) eqn:Hpending.
    - destruct Hentry as (result & profit & Hclosed). subst entry. reflexivity.
    - subst entry. exact Hpending. }
  split; [exact Hentries|]. split; [exact Hengine|].
  split; [intros Hrange; rewrite Hengine; apply updateFromTrades_weightsInRange; exact Hrange|].
  split; [exact Hkeys|]. split; [exact Hsettled|].
  intros draw' now'. unfold Orchestrator.updateLearningData at 1.
  rewrite (updateEntries_settled positions draw' now' _ Hsettled).
  destruct after; reflexivity.
Qed.

(** ** The names under which a strategy is known *)

Lemma orElse_strategy (found : option Signal) (symbol name : string) (now : Z)
    (rest : option Signal) (signal : Signal) :
  SMC.orElse found symbol name now rest = Some signal ->
  StrategySignal.strategy signal = name \/ rest = Some signal.
Proof.
  unfold SMC.orElse. destruct found as [candidate|]; [|auto].
  destruct (Base.validateSignal _); [|auto].
  intros Hsignal. inversion Hsignal. left. reflexivity.
Qed.

Lemma analyze_strategy (s : SMC.t) (symbol : string) (ohlc : list OHLC.t)
    (marketData : MarketData.t) (now : Z) :
  SMC.name (fst (SMC.analyze s symbol ohlc marketData now)) = SMC.name s
  /\ forall signal,
       snd (SMC.analyze s symbol ohlc marketData now) = Some signal ->
       StrategySignal.strategy signal = SMC.name s
       /\ StrategySignal.symbol signal = symbol.
Proof.
  unfold SMC.analyze.
  destruct (negb (SMC.isActive s) || (length ohlc <? 50)%nat);
    [split; [reflexivity | discriminate]|].
  cbn [fst snd SMC.updateStructures SMC.name]. split; [reflexivity|].
  intros signal Hsignal.
  unfold SMC.orElse in Hsignal.
  repeat match type of Hsignal with
    | context [match ?found with Some _ => _ | None => _ end] =>
        destruct found as [?candidate|]
    | context [if ?test then _ else _] => destruct test
    end;
    inversion Hsignal; split; reflexivity.
Qed.

Lemma collectSignals_strategy (name : string) (strategies : list (string * SMC.t))
    (symbol : string) (ohlc : list OHLC.t) (marketData : MarketData.t) (now : Z) :
  List.Forall (fun entry => SMC.name (snd entry) = name) strategies ->
  let collected := Core.collectSignals strategies symbol ohlc marketData now in
  List.Forall (fun entry => SMC.name (snd entry) = name) (fst collected)
  /\ map fst (fst collected) = map fst strategies
  /\ List.Forall (fun signal => StrategySignal.strategy signal = name
                                /\ StrategySignal.symbol signal = symbol) (snd collected).
Proof.
  induction 1 as [|[key strategy] rest Hname _ IH]; cbn [Core.collectSignals].
  - cbn. repeat split; constructor.
  - cbn zeta in IH.
    destruct (Core.collectSignals rest symbol ohlc marketData now) as [rest' signals].
    cbn [fst snd] in IH, Hname. destruct IH as (Hnames & Hkeys & Hsignals).
    destruct (negb (SMC.isActive strategy)).
    + cbn [fst snd map]. split; [constructor; assumption|].
      split; [rewrite Hkeys; reflexivity | exact Hsignals].
    + destruct (analyze_strategy strategy symbol ohlc marketData now) as [Hkept Hemitted].
      destruct (SMC.analyze strategy symbol ohlc marketData now) as [strategy' signal].
      cbn [fst snd map] in *. split; [constructor; [cbn [snd]; congruence | assumption]|].
      split; [rewrite Hkeys; reflexivity|].
      destruct signal as [signal|]; [|exact Hsignals].
      constructor; [|exact Hsignals].
      destruct (Hemitted signal eq_refl) as [Hstrategy Hsymbol]. split; congruence.
Qed.

Lemma getPerformance_missing (records : list (string * StrategyPerformance.t)) (key : string) :
  ~ In key (map fst records) -> Orchestrator.getPerformance records key = None.
Proof.
  intros Hmissing. unfold Orchestrator.getPerformance.
  destruct (List.find _ records) as [[k p]|] eqn:Hfind; [|reflexivity].
  exfalso. apply List.find_some in Hfind. destruct Hfind as [Hin Hkey].
  cbn [fst] in Hkey. apply String.eqb_eq in Hkey. subst k.
  apply Hmissing. apply (List.in_map fst) in Hin. exact Hin.
Qed.

Lemma updateEntries_foreign (positions : list Position.t) (draw : nat -> TradeResultKind * Q)
    (now : Z) (other : string) (histories : list (SignalHistory.t Q)) :
  forall k records learner,
    List.Forall
      (fun history =>
         let strategy := StrategySignal.strategy (SignalHistory.signal history) in
         ~ In strategy (map fst records) /\ strategy <> other)
      histories ->
    let after := Orchestrator.updateEntries positions draw now k histories records learner in
    Orchestrator.performances after = records
    /\ LearningEngine.strategyWeights (Orchestrator.engine after) !! other
       = LearningEngine.strategyWeights learner !! other.
Proof.
  induction histories as [|history rest IH]; intros k records learner Hforeign after.
  - subst after. cbn. split; reflexivity.
  - subst after. apply List.Forall_cons_iff in Hforeign.
    destruct Hforeign as [[Hmissing Hother] Hforeign].
    cbn [Orchestrator.updateEntries].
    destruct (Orchestrator.isPending positions history).
    + destruct (draw k) as [result profit].
      rewrite (getPerformance_missing records _ Hmissing).
      match goal with
      | |- context [Orchestrator.updateEntries positions draw now (S k) rest records ?l] =>
          destruct (IH (S k) records l Hforeign) as [Hrecords Hweight]
      end.
      cbn [Orchestrator.performances Orchestrator.engine].
      split; [exact Hrecords|]. rewrite Hweight.
      unfold LearningEngine.updateFromTrade, Orchestrator.closed.
      cbn [SignalHistory.outcome SignalHistory.signal LearningEngine.strategyWeights].
      apply lookup_insert_ne. congruence.
    + destruct (IH (S k) records learner Hforeign) as [Hrecords Hweight].
      cbn [Orchestrator.performances Orchestrator.engine].
      split; assumption.
Qed.

(** X25.  The orchestrator registers its strategy under the key 'SMC',
    while the strategy signs its signals with its name, 'SMC (Smart
    Money)'.  As long as the registry is the one of the constructor
    (and a cycle of analyzeSymbol keeps it so), every signal collected
    carries that name and the symbol of the cycle; the registry has no
    entry under the name, so updateLearningData finds no strategy for a
    closed trade of such a signal and never calls updatePerformance: the
    performance records stay what they were.  The learning engine stores
    what it learns under the name as well, and the weight it holds under
    'SMC' is never changed. *)
Theorem own_signals_miss_the_registry (c : Core.t) (symbol : string)
    (marketData : option MarketData.t) (ohlc : list OHLC.t) (now : Z) :
  map fst (Core.strategies c) = ["SMC"%string] ->
  List.Forall (fun entry => SMC.name (snd entry) = SMC.name SMC.create) (Core.strategies c) ->
  let cycle := Core.analyzeSymbol c symbol marketData ohlc now in
  let c' := fst (fst cycle) in
  map fst (Core.strategies c') = ["SMC"%string]
  /\ List.Forall (fun entry => SMC.name (snd entry) = SMC.name SMC.create)
       (Core.strategies c')
  /\ List.Forall
       (fun signal =>
          StrategySignal.strategy signal = "SMC (Smart Money)"%string
          /\ StrategySignal.symbol signal = symbol
          /\ Orchestrator.getPerformance (Orchestrator.createPerformances c)
               (StrategySignal.strategy signal) = None)
       (snd (fst cycle))
  /\ forall (data : Orchestrator.LearningData) positions draw now',
       map fst (Orchestrator.performances data) = map fst (Core.strategies c) ->
       List.Forall
         (fun history =>
            StrategySignal.strategy (SignalHistory.signal history)
            = "SMC (Smart Money)"%string)
         (Orchestrator.signalHistory data) ->
       let after := Orchestrator.updateLearningData data positions draw now' in
       Orchestrator.performances after = Orchestrator.performances data
       /\ LearningEngine.strategyWeights (Orchestrator.engine after) !! "SMC"
          = LearningEngine.strategyWeights (Orchestrator.engine data) !! "SMC".
Proof.
  intros Hkeys Hnames cycle c'.
  assert (Hcycle : map fst (Core.strategies c') = ["SMC"%string]
                   /\ List.Forall (fun entry => SMC.name (snd entry) = SMC.name SMC.create)
                        (Core.strategies c')
                   /\ List.Forall
                        (fun signal =>
                           StrategySignal.strategy signal = SMC.name SMC.create
                           /\ StrategySignal.symbol signal = symbol)
                        (snd (fst cycle))).
  { subst c' cycle. unfold Core.analyzeSymbol.
    destruct marketData as [marketData|];
      [|cbn; split; [exact Hkeys|]; split; [exact Hnames | constructor]].
    destruct (length ohlc <? 50)%nat;
      [cbn; split; [exact Hkeys|]; split; [exact Hnames | constructor]|].
    pose proof (collectSignals_strategy _ _ symbol ohlc marketData now Hnames) as Hcollected.
    cbn zeta in Hcollected.
    destruct (Core.collectSignals (Core.strategies c) symbol ohlc marketData now)
      as [strategies' signals].
    cbn [fst snd Core.strategies] in *. destruct Hcollected as (Hnames' & Hkeys' & Hsignals).
    split; [congruence|]. split; assumption. }
  destruct Hcycle as (Hkeys' & Hnames' & Hsignals).
  split; [exact Hkeys'|]. split; [exact Hnames'|].
  split.
  - eapply List.Forall_impl; [|exact Hsignals].
    intros signal [Hstrategy Hsymbol]. split; [exact Hstrategy|]. split; [exact Hsymbol|].
    apply getPerformance_missing. unfold Orchestrator.createPerformances.
    rewrite List.map_map. cbn [fst].
    change (map (fun x => fst x) (Core.strategies c)) with (map fst (Core.strategies c)).
    rewrite Hkeys, Hstrategy. cbn. intros [Hsame | []]. discriminate Hsame.
  - intros data positions draw now' Hregistry Hhistory after.
    subst after. unfold Orchestrator.updateLearningData.
    apply updateEntries_foreign.
    eapply List.Forall_impl; [|exact Hhistory].
    intros history Hstrategy. cbn zeta. rewrite Hstrategy, Hregistry, Hkeys.
    split; [|discriminate]. cbn. intros [Hsame | []]. discriminate Hsame.
Qed.

(** The started orchestrator on the window with an order block and a
    gap: the signal it collects is signed 'SMC (Smart Money)', and the
    registry has nothing under that name. *)
Lemma own_signals_miss_the_registry_witness :
  let c := fst (Orchestrator.start Core.create true) in
  let cycle :=
    Core.analyzeSymbol c "EURUSD" (Some (Scenario.tick 102.5)) Scenario.blockAndGap 7 in
  length (snd (fst cycle)) = 1%nat
  /\ List.Forall
       (fun signal =>
          Orchestrator.getPerformance (Orchestrator.createPerformances c)
            (StrategySignal.strategy signal) = None)
       (snd (fst cycle)).
Proof.
  intros c cycle. split; [vm_compute; reflexivity|].
  destruct (own_signals_miss_the_registry c "EURUSD" (Some (Scenario.tick 102.5))
              Scenario.blockAndGap 7) as (_ & _ & Hsignals & _).
  - reflexivity.
  - repeat constructor.
  - eapply List.Forall_impl; [|exact Hsignals].
    intros signal (_ & _ & Hmissing). exact Hmissing.
Defined.

(** ** The status report of the risk manager *)

Lemma exposure_nonneg (positions : list Position.t) :
  forall start, 0 <= start ->
    0 <= fold_left (fun sum pos => sum + Qabs (Position.profit pos)) positions start.
Proof.
  induction positions as [|position rest IH]; intros start Hstart; [exact Hstart|].
  cbn [fold_left]. apply IH. pose proof (Qabs_nonneg (Position.profit position)). lra.
Qed.

(** X26.  After updateDailyPL on a known account the report of
    getRiskStatus shows the balance minus the day's start balance as the
    daily P&L and, for a positive start balance, that amount as a
    percentage of the start balance; the loss check of validateTrade
    fails on that account exactly when the reported percentage is at or
    below minus maxDailyLoss.  The block flag of the report is the one
    the manager had before: updateDailyPL and getRiskStatus do not run
    the check, so the report can show a loss beyond the limit while the
    flag is still false.  The exposure is never negative. *)
Theorem status_reports_the_loss (rm : RiskManager.t) (feed : Feed.t)
    (accountInfo : AccountInfo.t) :
  Feed.getAccountInfo feed = Some accountInfo ->
  0 < RiskManager.dailyStartBalance rm ->
  let updated := RiskManager.updateDailyPL rm feed in
  let status := getRiskStatus updated feed in
  RiskStatus.dailyPL status
  = AccountInfo.balance accountInfo - RiskManager.dailyStartBalance rm
  /\ RiskStatus.dailyLossPercent status
     == (AccountInfo.balance accountInfo - RiskManager.dailyStartBalance rm)
        / RiskManager.dailyStartBalance rm * 100
  /\ (ValidationCheck.passed (snd (RiskManager.checkDailyLossLimit updated accountInfo)) = false
      <-> RiskStatus.dailyLossPercent status
          <= - RiskParams.maxDailyLoss (RiskManager.riskParams rm))
  /\ RiskStatus.isTradeBlocked status = RiskManager.isTradeBlocked rm
  /\ RiskStatus.openPositions status = length (Feed.getPositions feed)
  /\ 0 <= RiskStatus.totalExposure status.
Proof.
  intros Haccount Hstart updated status. subst status updated.
  unfold RiskManager.updateDailyPL, getRiskStatus. rewrite Haccount.
  cbn [RiskManager.dailyPL RiskManager.dailyStartBalance RiskManager.riskParams
       RiskManager.isTradeBlocked RiskStatus.dailyPL RiskStatus.dailyLossPercent
       RiskStatus.isTradeBlocked RiskStatus.openPositions RiskStatus.totalExposure].
  assert (Hpositive : Qgtb (RiskManager.dailyStartBalance rm) 0 = true)
    by (apply Qgtb_gt; exact Hstart).
  rewrite Hpositive.
  split; [reflexivity|]. split; [reflexivity|].
  split.
  - unfold RiskManager.checkDailyLossLimit.
    cbn [RiskManager.dailyStartBalance RiskManager.riskParams].
    set (start := RiskManager.dailyStartBalance rm) in *.
    set (balance := AccountInfo.balance accountInfo).
    set (limit := RiskParams.maxDailyLoss (RiskManager.riskParams rm)).
    assert (Hquotient : (balance - start) / start * start == balance - start)
      by (apply Qdiv_cancel; exact Hstart).
    assert (Hlimit : start * limit / 100 * 100 == start * limit) by field.
    set (percent := (balance - start) / start) in *.
    destruct (Qgeb (start - balance) (start * limit / 100)) eqn:Hloss;
      cbn [snd ValidationCheck.passed]; qbool.
    + split; [intros _ | reflexivity].
      destruct (Qlt_le_dec (- limit) (percent * 100)) as [Habove | Hbelow]; [|exact Hbelow].
      exfalso.
      assert (Hscaled : (- limit) * start < percent * 100 * start)
        by (apply Qmult_lt_compat_r; assumption).
      assert (Hleft : (- limit) * start == - (start * limit)) by ring.
      assert (Hright : percent * 100 * start == 100 * (percent * start)) by ring.
      lra.
    + split; [discriminate|]. intros Hbelow. exfalso.
      assert (Hscaled : percent * 100 * start <= (- limit) * start)
        by (apply Qmult_le_compat_r; lra).
      assert (Hleft : (- limit) * start == - (start * limit)) by ring.
      assert (Hright : percent * 100 * start == 100 * (percent * start)) by ring.
      lra.
  - split; [reflexivity|]. split; [reflexivity|].
    apply exposure_nonneg. lra.
Qed.

(** The day started at 10,000 and the balance is 9,300: the report shows
    minus 700, and the loss check fails. *)
Lemma status_reports_the_loss_witness :
  let feed := Scenario.feed 9300 (Scenario.eurusdInfo 0.01 5.0 0.01) in
  let updated := RiskManager.updateDailyPL Scenario.managerAt10000 feed in
  RiskStatus.dailyPL (getRiskStatus updated feed) = 9300 - 10000
  /\ RiskStatus.isTradeBlocked (getRiskStatus updated feed) = false.
Proof.
  intros feed updated.
  destruct (status_reports_the_loss Scenario.managerAt10000 feed (Scenario.account 9300))
    as (Hpl & _ & _ & Hflag & _).
  - reflexivity.
  - reflexivity.
  - split; [exact Hpl | exact Hflag].
Defined.

(** ** One structure per bar *)

(** A loop that pushes at most one item per index, carrying that index,
    leaves the indices in increasing order. *)
Lemma flat_map_indices {A : Type} (index : A -> nat) (found : nat -> list A) :
  (forall i, (length (found i) <= 1)%nat /\ forall x, In x (found i) -> index x = i) ->
  forall n first,
    StronglySorted lt (map index (flat_map found (seq first n))).
Proof.
  intros Hfound. induction n as [|n IH]; intros first; [constructor|].
  cbn [seq flat_map]. rewrite List.map_app.
  destruct (Hfound first) as [Hone Hindex].
  assert (Hlater : List.Forall (lt first) (map index (flat_map found (seq (S first) n)))).
  { apply List.Forall_forall. intros i Hi. apply List.in_map_iff in Hi.
    destruct Hi as (x & Hx & Hin). apply List.in_flat_map in Hin.
    destruct Hin as (j & Hj & Hin). apply List.in_seq in Hj.
    destruct (Hfound j) as [_ Hindexj]. rewrite (Hindexj x Hin) in Hx. lia. }
  destruct (found first) as [|x [|y rest]].
  - cbn. apply IH.
  - cbn [map app]. rewrite (Hindex x (or_introl eq_refl)).
    constructor; [apply IH | exact Hlater].
  - cbn in Hone. lia.
Qed.

Lemma StronglySorted_lt_NoDup (indices : list nat) :
  StronglySorted lt indices -> NoDup indices.
Proof.
  induction 1 as [|i rest _ IH Hall]; constructor; [|exact IH].
  intros Hin. apply list_elem_of_In in Hin.
  rewrite List.Forall_forall in Hall. specialize (Hall i Hin). lia.
Qed.

Lemma orderBlocksAt_one (ohlc : list OHLC.t) (i : nat) :
  (length (SMC.orderBlocksAt ohlc i) <= 1)%nat
  /\ forall b, In b (SMC.orderBlocksAt ohlc i) -> OrderBlock.index b = i.
Proof.
  unfold SMC.orderBlocksAt.
  destruct (SMC.isBullishOrderBlock ohlc i) eqn:Hbull;
    destruct (SMC.isBearishOrderBlock ohlc i) eqn:Hbear.
  - apply isBullishOrderBlock_body in Hbull. apply isBearishOrderBlock_body in Hbear. lra.
  - split; [cbn; lia|]. intros b [Hb | []]. subst b. reflexivity.
  - split; [cbn; lia|]. intros b [Hb | []]. subst b. reflexivity.
  - split; [cbn; lia|]. intros b [].
Qed.

Lemma fairValueGapsAt_one (ohlc : list OHLC.t) (i : nat) :
  (length (SMC.fairValueGapsAt ohlc i) <= 1)%nat
  /\ forall g, In g (SMC.fairValueGapsAt ohlc i) -> FairValueGap.index g = i.
Proof.
  unfold SMC.fairValueGapsAt.
  destruct (Qltb _ _ && Qgtb _ _) eqn:Hbull; destruct (Qgtb _ _ && Qltb _ _) eqn:Hbear.
  - qbool. lra.
  - split; [cbn; lia|]. intros g [Hg | []]. subst g. reflexivity.
  - split; [cbn; lia|]. intros g [Hg | []]. subst g. reflexivity.
  - split; [cbn; lia|]. intros g [].
Qed.

(** X27.  No bar is a bullish and a bearish order block at once, nor
    the middle of a bullish and of a bearish gap: each loop pushes at
    most one structure per bar.  The retained order blocks therefore
    come from distinct bars, and the fair-value gaps are stored in the
    order of their bars, from distinct bars between the second and the
    last but one. *)
Theorem one_structure_per_bar (ohlc : list OHLC.t) :
  (forall i, SMC.isBullishOrderBlock ohlc i = true -> SMC.isBearishOrderBlock ohlc i = false)
  /\ NoDup (map OrderBlock.index (SMC.updateOrderBlocks ohlc))
  /\ StronglySorted lt (map FairValueGap.index (SMC.updateFairValueGaps ohlc))
  /\ NoDup (map FairValueGap.index (SMC.updateFairValueGaps ohlc))
  /\ List.Forall (fun g => (1 <= FairValueGap.index g /\ FairValueGap.index g + 1 < length ohlc)%nat)
       (SMC.updateFairValueGaps ohlc).
Proof.
  split.
  { intros i Hbull. destruct (SMC.isBearishOrderBlock ohlc i) eqn:Hbear; [|reflexivity].
    apply isBullishOrderBlock_body in Hbull. apply isBearishOrderBlock_body in Hbear. lra. }
  split.
  { unfold SMC.updateOrderBlocks.
    set (found := flat_map (SMC.orderBlocksAt ohlc) (seq 10 (length ohlc - 5 - 10))).
    assert (Hfound : NoDup (map OrderBlock.index found)).
    { apply StronglySorted_lt_NoDup. apply flat_map_indices. apply orderBlocksAt_one. }
    assert (Hsorted : NoDup (map OrderBlock.index (SMC.sortByStrength found))).
    { assert (Hperm : Permutation (map OrderBlock.index (SMC.sortByStrength found))
                        (map OrderBlock.index found))
        by (apply Permutation_map; apply sortByStrength_permutation).
      rewrite Hperm. exact Hfound. }
    rewrite <- (take_drop 10 (SMC.sortByStrength found)), List.map_app in Hsorted.
    apply NoDup_app in Hsorted. apply Hsorted. }
  assert (Hgaps : StronglySorted lt (map FairValueGap.index (SMC.updateFairValueGaps ohlc))).
  { unfold SMC.updateFairValueGaps. apply flat_map_indices. apply fairValueGapsAt_one. }
  split; [exact Hgaps|]. split; [apply StronglySorted_lt_NoDup; exact Hgaps|].
  apply List.Forall_forall. intros g Hin. unfold SMC.updateFairValueGaps in Hin.
  apply List.in_flat_map in Hin. destruct Hin as (i & Hi & Hin). apply List.in_seq in Hi.
  destruct (fairValueGapsAt_one ohlc i) as [_ Hindex]. rewrite (Hindex g Hin). lia.
Qed.

(** ** Sessions of the authentication manager *)

(** X28.  authenticate succeeds exactly for a positive login with a
    password of four characters or more when the storage takes the item.
    With such credentials it marks the object as logged in and keeps the
    credentials, before it stores the server and the login (not the
    password): when storing throws, the call reports 'Authentication
    failed', the storage is as before and the object is logged in all
    the same.  With other credentials the call changes nothing: a
    session that was open stays open, with the credentials it had.  A
    new object that restores the session from what a successful login
    stored is logged in without credentials; logout clears the object
    even if removing the item throws, and after a logout that returns
    nothing is stored and the session cannot be restored.  With a
    storage that cannot be reached restoreSession returns false and
    changes nothing. *)
Theorem session_lifecycle (auth : Auth.t) (storage : Storage.t) (c : Credentials.t) :
  let attempt := Auth.authenticate auth storage c in
  let auth' := fst (fst attempt) in
  let storage' := snd (fst attempt) in
  let result := snd attempt in
  let valid :=
    (0 < Credentials.login c)%Z /\ (4 <= String.length (Credentials.password c))%nat in
  let stores := Storage.reachable storage = true /\ Storage.writable storage = true in
  let after := Auth.logout auth' storage' in
  (AuthResult.success result = true <-> valid /\ stores)
  /\ (valid -> Auth.isLoggedIn auth' = true /\ Auth.getCredentials auth' = Some c)
  /\ (valid -> stores ->
      storage'
      = Storage.mk (Some (Credentials.server c, Credentials.login c)) true true
      /\ AuthResult.error result = None
      /\ Auth.isLoggedIn (fst (Auth.restoreSession Auth.create storage')) = true
      /\ Auth.getCredentials (fst (Auth.restoreSession Auth.create storage')) = None
      /\ snd (Auth.restoreSession Auth.create storage') = true)
  /\ (valid -> ~ stores ->
      storage' = storage
      /\ result
         = AuthResult.mk false None
             (Some "Authentication failed. Please check your credentials."%string))
  /\ (~ valid ->
      auth' = auth /\ storage' = storage
      /\ result
         = AuthResult.mk false None
             (Some "Invalid credentials. Please check your login and password."%string))
  /\ Auth.isLoggedIn (fst (fst after)) = false
  /\ Auth.getCredentials (fst (fst after)) = None
  /\ (snd after = true <-> Storage.reachable storage = true)
  /\ (snd after = true ->
      Storage.item (snd (fst after)) = None
      /\ Auth.restoreSession Auth.create (snd (fst after)) = (Auth.create, false))
  /\ (snd after = false -> snd (fst after) = storage')
  /\ (Storage.reachable storage = false ->
      Auth.restoreSession auth storage = (auth, false)).
Proof.
  intros attempt auth' storage' result valid stores after.
  subst after auth' storage' result attempt valid stores.
  unfold Auth.authenticate, Auth.simulateAuth, Auth.logout, Auth.restoreSession,
    Storage.setItem, Storage.removeItem, Storage.getItem.
  destruct storage as [item reachable writable].
  cbn [Storage.item Storage.reachable Storage.writable].
  destruct (0 <? Credentials.login c)%Z eqn:Hlogin;
    destruct (4 <=? String.length (Credentials.password c))%nat eqn:Hpassword;
    [apply Z.ltb_lt in Hlogin | apply Z.ltb_lt in Hlogin
     | apply Z.ltb_ge in Hlogin | apply Z.ltb_ge in Hlogin];
    [apply Nat.leb_le in Hpassword | apply Nat.leb_gt in Hpassword
     | apply Nat.leb_le in Hpassword | apply Nat.leb_gt in Hpassword];
    destruct reachable, writable;
    cbn [andb fst snd AuthResult.success AuthResult.error Storage.item Storage.reachable
         Storage.writable Auth.isLoggedIn Auth.getCredentials Auth.isAuthenticated
         Auth.credentials];
    repeat match goal with
      | |- _ /\ _ => split
      | |- _ <-> _ => split
      | |- _ -> _ => intro
      end;
    repeat match goal with
      | H : _ /\ _ |- _ => destruct H
      end;
    try reflexivity; try discriminate; try lia; try tauto;
    try (exfalso; match goal with H : ~ _ |- _ => apply H; split; (reflexivity || assumption) end).
Qed.

(** A login with a password of five characters while the storage is
    full: the call reports a failure, and the object is logged in. *)
Lemma session_lifecycle_witness :
  let c := Credentials.mk "Demo-Server" 1001 "12345" in
  let attempt := Auth.authenticate Auth.create (Storage.mk None true false) c in
  AuthResult.success (snd attempt) = false
  /\ Auth.isLoggedIn (fst (fst attempt)) = true
  /\ Auth.getCredentials (fst (fst attempt)) = Some c.
Proof.
  intros c attempt.
  destruct (session_lifecycle Auth.create (Storage.mk None true false) c)
    as (_ & Hlogged & _).
  split; [reflexivity|]. apply Hlogged. split; [reflexivity | cbn; lia].
Defined.

(** ** One registered strategy *)

(** X29.  With at most one strategy registered, as in the registry of
    the constructor, a cycle of analyzeSymbol collects at most one
    signal and hands it to execution as it is: selectBestSignal returns
    a single candidate without computing a score, so the result of the
    cycle is the same whatever weights the learning engine holds. *)
Theorem single_strategy_needs_no_arbitration (c : Core.t) (symbol : string)
    (marketData : option MarketData.t) (ohlc : list OHLC.t) (now : Z)
    (weights : LearningEngine.t Q) :
  (length (Core.strategies c) <= 1)%nat ->
  let cycle := Core.analyzeSymbol c symbol marketData ohlc now in
  let reweighted :=
    Core.analyzeSymbol
      (Core.mk (Core.strategies c) (Core.activeSymbols c) (Core.isRunning c) weights)
      symbol marketData ohlc now in
  (length (snd (fst cycle)) <= 1)%nat
  /\ snd cycle = head (snd (fst cycle))
  /\ snd (fst reweighted) = snd (fst cycle)
  /\ snd reweighted = snd cycle.
Proof.
  intros Hone cycle reweighted. subst cycle reweighted. unfold Core.analyzeSymbol.
  destruct marketData as [marketData|]; [|cbn; repeat split; lia].
  destruct (length ohlc <? 50)%nat; [cbn; repeat split; lia|].
  cbn [Core.strategies Core.learningEngine].
  pose proof (collectSignals_length (Core.strategies c) symbol ohlc marketData now) as Hlength.
  assert (Hactive : (length (List.filter (fun entry => SMC.isActive (snd entry))
                               (Core.strategies c))
                     <= length (Core.strategies c))%nat)
    by apply List.filter_length_le.
  destruct (Core.collectSignals (Core.strategies c) symbol ohlc marketData now)
    as [strategies' signals].
  cbn [fst snd] in *.
  destruct signals as [|signal [|second rest]]; cbn [length] in *; try lia;
    cbn; repeat split; lia.
Qed.

(** The started orchestrator of the constructor on the window with an
    order block and a gap: one signal, handed on as it is. *)
Lemma single_strategy_needs_no_arbitration_witness :
  let cycle :=
    Core.analyzeSymbol (fst (Orchestrator.start Core.create true)) "EURUSD"
      (Some (Scenario.tick 102.5)) Scenario.blockAndGap 7 in
  snd cycle = head (snd (fst cycle)) /\ snd cycle <> None.
Proof.
  intros cycle.
  destruct (single_strategy_needs_no_arbitration
              (fst (Orchestrator.start Core.create true)) "EURUSD"
              (Some (Scenario.tick 102.5)) Scenario.blockAndGap 7 LearningEngine.create)
    as (_ & Hhead & _).
  - cbn. lia.
  - split; [exact Hhead|]. vm_compute. discriminate.
Defined.

(** ** Emitted signals and the minimum ratio *)

(** X30.  validateSignal and adjustTakeProfit compare the same quotient
    with a threshold, 1.5 for the strategy and minRiskReward for the
    risk manager.  For a minRiskReward of 1.5 or less, as in the
    exported parameters, the risk manager therefore never moves the
    target of a signal that a strategy has emitted: validateTrade, when
    it accepts such a signal, returns it unchanged. *)
Theorem emitted_targets_are_kept (s : SMC.t) (symbol : string) (ohlc : list OHLC.t)
    (marketData : MarketData.t) (now : Z) (signal : Signal) (rm : RiskManager.t)
    (feed : Feed.t) :
  snd (SMC.analyze s symbol ohlc marketData now) = Some signal ->
  RiskParams.minRiskReward (RiskManager.riskParams rm) <= 1.5 ->
  RiskManager.adjustTakeProfit rm signal = StrategySignal.takeProfit signal
  /\ RiskManager.adjustStopLoss rm signal = StrategySignal.stopLoss signal
  /\ (TradeValidationResult.isValid (snd (RiskManager.validateTrade rm feed signal)) = true ->
      TradeValidationResult.adjustedSignal (snd (RiskManager.validateTrade rm feed signal))
      = Some signal).
Proof.
  intros Hemitted Hmin.
  pose proof (analyze_validated s symbol ohlc marketData now signal Hemitted) as Hvalid.
  assert (Htarget : RiskManager.adjustTakeProfit rm signal = StrategySignal.takeProfit signal).
  { unfold RiskManager.adjustTakeProfit, adjustTakeProfitOver.
    cbn [nadd nsub nmul nabs nquotient_ltb Q_number].
    set (risk := Qabs (StrategySignal.entry signal - StrategySignal.stopLoss signal)).
    set (reward := Qabs (StrategySignal.takeProfit signal - StrategySignal.entry signal)).
    assert (Hrisk : 0 <= risk) by apply Qabs_nonneg.
    assert (Hreward : 0 <= reward) by apply Qabs_nonneg.
    destruct (js_ltb (js_div (Fin reward) (Fin risk))
                (Fin (RiskParams.minRiskReward (RiskManager.riskParams rm)))) eqn:Hlow;
      [|reflexivity].
    exfalso. apply js_ratio_lt in Hlow; [|assumption|assumption].
    destruct Hlow as [Hpositive Hlow].
    unfold Base.validateSignal in Hvalid.
    destruct (String.eqb _ _ || Qltb _ _); [discriminate|].
    destruct (js_ltb (Base.riskReward signal) (Fin 1.5)) eqn:Hratio; [discriminate|].
    unfold Base.riskReward in Hratio. fold risk reward in Hratio.
    apply js_ratio_not_lt in Hratio; [|assumption|assumption].
    assert (Hscaled : RiskParams.minRiskReward (RiskManager.riskParams rm) * risk
                      <= 1.5 * risk) by (apply Qmult_le_compat_r; assumption).
    destruct Hratio as [Hzero | Hhigh]; lra. }
  split; [exact Htarget|]. split; [reflexivity|].
  intros Haccepted.
  destruct (validateTrade_valid rm feed signal Haccepted) as (accountInfo & _ & _ & _ & Hresult).
  rewrite Hresult. cbn [snd TradeValidationResult.adjustedSignal].
  rewrite Htarget. unfold RiskManager.adjustStopLoss. destruct signal; reflexivity.
Qed.

(** The order-block signal of the scenario window, checked by the
    manager of the daily-loss scenario (minRiskReward 1.5): the target
    is the one the strategy set. *)
Lemma emitted_targets_are_kept_witness :
  exists signal,
    snd (SMC.analyze Scenario.activeStrategy "EURUSD" Scenario.blockAndGap
           (Scenario.tick 102.5) 7) = Some signal
    /\ RiskManager.adjustTakeProfit Scenario.managerAt10000 signal
       = StrategySignal.takeProfit signal.
Proof.
  destruct (snd (SMC.analyze Scenario.activeStrategy "EURUSD" Scenario.blockAndGap
                   (Scenario.tick 102.5) 7)) as [signal|] eqn:Hsignal.
  - exists signal. split; [reflexivity|].
    destruct (emitted_targets_are_kept Scenario.activeStrategy "EURUSD" Scenario.blockAndGap
                (Scenario.tick 102.5) 7 signal Scenario.managerAt10000
                (Scenario.feed 10000 (Scenario.eurusdInfo 0.01 5.0 0.01)) Hsignal)
      as [Htarget _]; [vm_compute; discriminate | exact Htarget].
  - vm_compute in Hsignal. discriminate Hsignal.
Defined.
